(** * pinnstorch.models.net.neural_net: FCN, NetHFM and ParallelNet

    A shallow embedding of [src/pinnstorch/models/net/neural_net.py] and the
    properties of its construction and forward passes.

    Conventions of the embedding.
    - A [torch.Tensor] of rank 2 is a [Tensor]: its number of columns and
      the list of its rows.  The number of columns is stored, so a
      [batch x 0] tensor and a [0 x n] tensor keep their shape.
    - Every tensor is a float32 tensor: the dtype is not modelled, and
      the statistics handed to NetHFM are taken to be float32 arrays
      ([torch.from_numpy] keeps the dtype of the array).
    - Tensor entries are real numbers ([R]): float32 arithmetic is
      idealised as exact arithmetic, without rounding and overflow.  Two
      places keep the float32 behaviour a property depends on:
      [torch_exp] rounds a result below the float32 range to [0.0]
      (underflow), and [Float32] evaluates one entry of the rescaling in
      IEEE 754 binary32.
    - Rank-1 tensors ([lb], [ub]) and the [1 x n] parameters of NetHFM
      ([b], [g], [X_mean], [X_std]) are lists of reals; both shapes
      broadcast against a rank-2 tensor in the same way.
    - A Python exception is the [Raise] case of [result].
    - Python [dict] and [nn.Sequential]'s module table are insertion
      ordered: [PyDict] keeps the position of a key that is set again.
    - Random initialisation reads a stream of reals [noise]; the position
      in the stream is threaded through the constructors. *)

From Stdlib Require Import String Ascii ZArith Lia Bool Arith.
From Stdlib Require Import Reals Lra.
From Stdlib Require Import SpecFloat.
From Stdlib Require Import DecimalString DecimalZ.
From Stdlib Require Import List.
Import ListNotations.

Set Implicit Arguments.

(* ------------------------------------------------------------------ *)
(** ** Python exceptions *)

Inductive PyError : Type :=
| IndexError
| ValueError
| RuntimeError
| ZeroDivisionError.

Inductive result (A : Type) : Type :=
| Ok (a : A)
| Raise (e : PyError).

Arguments Ok {A} a.
Arguments Raise {A} e.

Definition bind {A B : Type} (m : result A) (k : A -> result B) : result B :=
  match m with
  | Ok a => k a
  | Raise e => Raise e
  end.

Declare Scope py_scope.
Delimit Scope py_scope with py.
Notation "x <- m ;; k" := (bind m (fun x => k))
  (at level 61, m at next level, right associativity) : py_scope.
Notation "' p <- m ;; k" := (bind m (fun x => match x with p => k end))
  (at level 61, p pattern, m at next level, right associativity) : py_scope.
Open Scope py_scope.

Definition is_ok {A : Type} (m : result A) : bool :=
  match m with Ok _ => true | Raise _ => false end.

(* ------------------------------------------------------------------ *)
(** ** Python sequences *)

(** [l[i]] with Python's negative indices. *)
Definition py_index {A : Type} (l : list A) (i : Z) : result A :=
  let n := Z.of_nat (length l) in
  let j := if (i <? 0)%Z then (i + n)%Z else i in
  if ((0 <=? j) && (j <? n))%Z then
    match nth_error l (Z.to_nat j) with
    | Some a => Ok a
    | None => Raise IndexError
    end
  else Raise IndexError.

(** [range(lo, hi)]. *)
Definition py_range (lo hi : Z) : list Z :=
  map (fun k => (lo + Z.of_nat k)%Z) (seq 0 (Z.to_nat (hi - lo))).

(** [x, y = l] and [x, y, z = l]. *)
Definition unpack2 {A : Type} (l : list A) : result (A * A) :=
  match l with
  | [x; y] => Ok (x, y)
  | _ => Raise ValueError
  end.

Definition unpack3 {A : Type} (l : list A) : result (A * A * A) :=
  match l with
  | [x; y; z] => Ok (x, y, z)
  | _ => Raise ValueError
  end.

(** [f"{i}"] for an integer. *)
Definition py_str (i : Z) : string := NilEmpty.string_of_int (Z.to_int i).

(** [zip] of two lists through a function. *)
Fixpoint zip_with {A B C : Type} (f : A -> B -> C) (l : list A) (l' : list B)
  : list C :=
  match l, l' with
  | a :: t, b :: t' => f a b :: zip_with f t t'
  | _, _ => []
  end.

(** [for x in xs: acc = body(x, acc)], stopped by the first exception. *)
Fixpoint for_each {A S : Type} (xs : list A) (acc : S)
  (body : A -> S -> result S) : result S :=
  match xs with
  | [] => Ok acc
  | x :: xs' => acc' <- body x acc ;; for_each xs' acc' body
  end.

(* ------------------------------------------------------------------ *)
(** ** Insertion-ordered dictionaries *)

Module PyDict.
Section Dict.
Variable V : Type.

Definition t : Type := list (string * V).

Definition empty : t := [].

(** [d[k] = v]: a key already present keeps its position. *)
Fixpoint set (k : string) (v : V) (d : t) : t :=
match d with
| [] => [(k, v)]
| (k', v') :: d' =>
    if String.eqb k' k then (k', v) :: d' else (k', v') :: set k v d'
end.

Fixpoint get (k : string) (d : t) : option V :=
match d with
| [] => None
| (k', v') :: d' => if String.eqb k' k then Some v' else get k d'
end.

Definition keys (d : t) : list string := map fst d.
Definition values (d : t) : list V := map snd d.
Definition len (d : t) : nat := length d.

(** [{name: f(i, name) for i, name in enumerate(names, start)}], on top
  of the entries already in [d]. *)
Fixpoint comprehend (f : nat -> string -> V) (start : nat)
(names : list string) (d : t) : t :=
match names with
| [] => d
| name :: names' => comprehend f (S start) names' (set name (f start name) d)
end.
End Dict.
Arguments empty {V}.
End PyDict.

(* ------------------------------------------------------------------ *)
(** ** Tensors *)

Record Tensor : Type := mkTensor {
  ncols : nat;
  rows : list (list R)
}.

Definition nrows (t : Tensor) : nat := length (rows t).

(** Every row has the stored width. *)
Definition wf (t : Tensor) : Prop :=
  Forall (fun r => length r = ncols t) (rows t).

(** An elementwise function, and an operation with a Python scalar. *)
Definition tmap (f : R -> R) (t : Tensor) : Tensor :=
  mkTensor (ncols t) (map (map f) (rows t)).

(** [torch.cat((a, b), 1)]. *)
Definition cat2 (a b : Tensor) : result Tensor :=
  if nrows a =? nrows b
  then Ok (mkTensor (ncols a + ncols b) (zip_with (@app R) (rows a) (rows b)))
  else Raise RuntimeError.

Fixpoint cat_onto (acc : Tensor) (ts : list Tensor) : result Tensor :=
  match ts with
  | [] => Ok acc
  | t :: ts' => acc' <- cat2 acc t ;; cat_onto acc' ts'
  end.

(** [torch.cat(ts, 1)] for a tuple of rank-2 tensors. *)
Definition torch_cat (ts : list Tensor) : result Tensor :=
  match ts with
  | [] => Raise RuntimeError
  | t :: ts' => cat_onto t ts'
  end.

(** Broadcasting of a rank-2 tensor against a rank-1 tensor (or a [1 x n]
    tensor): the widths agree, or one of them is 1. *)
Definition broadcast (f : R -> R -> R) (z : Tensor) (v : list R)
  : result Tensor :=
  if ncols z =? length v then
    Ok (mkTensor (ncols z) (map (fun r => zip_with f r v) (rows z)))
  else if length v =? 1 then
    Ok (mkTensor (ncols z) (map (map (fun a => f a (hd 0%R v))) (rows z)))
  else if ncols z =? 1 then
    Ok (mkTensor (length v)
          (map (fun r => map (fun b => f (hd 0%R r) b) v) (rows z)))
  else Raise RuntimeError.

(** Broadcasting of two rank-1 tensors. *)
Definition vbroadcast (f : R -> R -> R) (u v : list R) : result (list R) :=
  if length u =? length v then Ok (zip_with f u v)
  else if length v =? 1 then Ok (map (fun a => f a (hd 0%R v)) u)
  else if length u =? 1 then Ok (map (fun b => f (hd 0%R u) b) v)
  else Raise RuntimeError.

(** [v[:-1]] on a rank-1 tensor. *)
Definition drop_last (v : list R) : list R := removelast v.

(** [z[:, start:stop]] for non-negative bounds; a slice never raises. *)
Definition slice_cols (z : Tensor) (start stop : nat) : Tensor :=
  mkTensor (Nat.min stop (ncols z) - Nat.min start (ncols z))
           (map (fun r => firstn (stop - start) (skipn start r)) (rows z)).

(** [torch.matmul(h, v)] for rank-2 tensors. *)
Definition dot (u v : list R) : R :=
  fold_right Rplus 0%R (zip_with Rmult u v).

Definition column (j : nat) (t : Tensor) : list R :=
  map (fun r => nth j r 0%R) (rows t).

Definition matmul (h v : Tensor) : result Tensor :=
  if ncols h =? nrows v then
    Ok (mkTensor (ncols v)
          (map (fun r => map (fun j => dot r (column j v)) (seq 0 (ncols v)))
               (rows h)))
  else Raise RuntimeError.

(** [torch.norm(w, dim=0)]: the L2 norm of every column. *)
Definition norm_dim0 (w : Tensor) : list R :=
  map (fun j => sqrt (fold_right Rplus 0%R (map (fun x => (x * x)%R) (column j w))))
      (seq 0 (ncols w)).

(** The rescaling [2.0 * (z - lb) / (ub - lb) - 1.0]. *)
Definition rescale (z : Tensor) (lb ub : list R) : result Tensor :=
  d <- broadcast Rminus z lb ;;
  let m := tmap (fun a => (2 * a)%R) d in
  w <- vbroadcast Rminus ub lb ;;
  q <- broadcast Rdiv m w ;;
  Ok (tmap (fun a => (a - 1)%R) q).

(** The same expression with the rank-0 bounds [lb[0]] and [ub[0]]. *)
Definition index0 (v : list R) : result R := py_index v 0.

Definition rescale0 (z : Tensor) (lb ub : list R) : result Tensor :=
  l0 <- index0 lb ;;
  let d := tmap (fun a => (a - l0)%R) z in
  let m := tmap (fun a => (2 * a)%R) d in
  u0 <- index0 ub ;;
  l0' <- index0 lb ;;
  let w := (u0 - l0')%R in
  let q := tmap (fun a => (a / w)%R) m in
  Ok (tmap (fun a => (a - 1)%R) q).

(* ------------------------------------------------------------------ *)
(** ** float32 *)

(** IEEE 754 binary32, with rounding to nearest, ties to even: the
    operations of [SpecFloat] for a precision of 24 bits and a maximal
    exponent of 128. *)
Module Float32.

Definition prec : Z := 24.
Definition emax : Z := 128.

Definition of_Z (n : Z) : spec_float := binary_normalize prec emax n 0 false.

Definition sub : spec_float -> spec_float -> spec_float := SFsub prec emax.
Definition mul : spec_float -> spec_float -> spec_float := SFmul prec emax.
Definition div : spec_float -> spec_float -> spec_float := SFdiv prec emax.



(** One entry of [2.0 * (z - lb) / (ub - lb) - 1.0], for the entry [z] of
    a column and the bounds [lb] and [ub] of that column. *)
Definition rescale (z lb ub : spec_float) : spec_float :=
  sub (div (mul (of_Z 2) (sub z lb)) (sub ub lb)) (of_Z 1).

End Float32.

(** [torch.exp] on a float32 entry.  Entries are reals, but the float32
    exponential is not the real one for very negative arguments: a result
    of at most [2^-150], half of the smallest positive float32, is
    rounded to [0.0].  This underflow is kept; the rounding of the other
    results, and the overflow of large ones to [inf], are not. *)
Definition float32_underflow : R := (/ 2 ^ 150)%R.

Definition torch_exp (x : R) : R :=
  if Rle_dec (exp x) float32_underflow then 0%R else exp x.

(* ------------------------------------------------------------------ *)
(** ** Modules of [torch.nn] *)

Inductive TorchModule : Type :=
| Linear (in_features out_features : nat) (weight : Tensor) (bias : list R)
| Sin
| Tanh
| Sigmoid.

Definition sigmoid (x : R) : R := (1 / (1 + exp (- x)))%R.

(** [F.linear(x, w, b) = x @ w.T + b], with [w] of shape [out x in]. *)
Definition F_linear (x w : Tensor) (b : list R) : result Tensor :=
  if ncols x =? ncols w then
    let h := mkTensor (nrows w)
               (map (fun r => map (fun wr => dot r wr) (rows w)) (rows x)) in
    broadcast Rplus h b
  else Raise RuntimeError.

Definition module_forward (m : TorchModule) (x : Tensor) : result Tensor :=
  match m with
  | Linear _ _ w b => F_linear x w b
  | Sin => Ok (tmap sin x)
  | Tanh => Ok (tmap tanh x)
  | Sigmoid => Ok (tmap sigmoid x)
  end.

(** [nn.Sequential]: the table of named modules, applied in order. *)
Definition Sequential : Type := PyDict.t TorchModule.

Definition add_module (net : Sequential) (name : string) (m : TorchModule)
  : Sequential :=
  PyDict.set name m net.

Definition Sequential_forward (net : Sequential) (x : Tensor) : result Tensor :=
  for_each (PyDict.values net) x module_forward.

(** [{name: z[:, i : i + 1] for i, name in enumerate(output_names)}]. *)
Definition column_dict (z : Tensor) (output_names : list string)
  : PyDict.t Tensor :=
  PyDict.comprehend (fun i _ => slice_cols z i (i + 1)) 0 output_names
    PyDict.empty.

(** [{name: z for i, name in enumerate(output_names)}]. *)
Definition shared_dict (z : Tensor) (output_names : list string)
  : PyDict.t Tensor :=
  PyDict.comprehend (fun _ _ => z) 0 output_names PyDict.empty.

(* ------------------------------------------------------------------ *)
(** ** Random initialisation *)

Section Initialisation.
(** The values the random generator hands out, in order. *)
Variable noise : nat -> R.

(** A tensor of [r x c] fresh values, and the next position. *)
Definition draw (r c : nat) (s : nat) : Tensor * nat :=
  (mkTensor c
     (map (fun i => map (fun j => noise (s + i * c + j)) (seq 0 c)) (seq 0 r)),
   s + r * c).

Definition draw_vec (n : nat) (s : nat) : list R * nat :=
  (map (fun j => noise (s + j)) (seq 0 n), s + n).

(** [nn.Linear(in_features, out_features)]: weight [out x in] and bias
    [out], both randomly initialised. *)
Definition nn_Linear (in_features out_features : nat) (s : nat)
  : TorchModule * nat :=
  let '(w, s) := draw out_features in_features s in
  let '(b, s) := draw_vec out_features s in
  (Linear in_features out_features w b, s).

(** [nn.init.xavier_uniform_(layer.weight)]: the weight is redrawn in
    place.  The bound of the distribution is computed from
    [2.0 / float(fan_in + fan_out)], with [fan_in] the number of columns
    and [fan_out] the number of rows of the weight: a [0 x 0] weight
    raises [ZeroDivisionError]. *)
Definition initializer (layer : TorchModule) (s : nat)
  : result (TorchModule * nat) :=
  match layer with
  | Linear i o w b =>
      let fan_in := ncols w in
      let fan_out := nrows w in
      if fan_in + fan_out =? 0 then Raise ZeroDivisionError
      else let '(w', s') := draw (nrows w) (ncols w) s in
           Ok (Linear i o w' b, s')
  | _ => Ok (layer, s)
  end.
End Initialisation.

(* ------------------------------------------------------------------ *)
(** ** class FCN *)

Module FCN.

Record t : Type := mk {
  model : Sequential;
  lb : list R;
  ub : list R;
  output_names : list string;
  discrete : bool
}.

Section Construction.
Variable noise : nat -> R.

Definition initalize_net (layers : list nat) (act_function : string)
  (s : nat) : result (Sequential * nat) :=
  let net : Sequential := PyDict.empty in
  l0 <- py_index layers 0 ;;
  l1 <- py_index layers 1 ;;
  let '(input_layer, s) := nn_Linear noise l0 l1 s in
  '(input_layer, s) <- initializer noise input_layer s ;;
  let net := add_module net "input" input_layer in
  let net :=
    if String.eqb act_function "sin"
    then add_module net "activation_1" Sin
    else add_module net "activation_1" Tanh in
  '(net, s) <-
    for_each (py_range 1 (Z.of_nat (length layers) - 2)) (net, s)
      (fun i '(net, s) =>
         a <- py_index layers i ;;
         b <- py_index layers (i + 1) ;;
         let '(hidden_layer, s) := nn_Linear noise a b s in
         '(hidden_layer, s) <- initializer noise hidden_layer s ;;
         let net :=
           add_module net ("hidden_" ++ py_str (i + 1))%string hidden_layer in
         let net :=
           if String.eqb act_function "sin"
           then add_module net ("activation_" ++ py_str (i + 1))%string Sin
           else add_module net ("activation_" ++ py_str (i + 1))%string Tanh in
         Ok (net, s)) ;;
  a <- py_index layers (-2) ;;
  b <- py_index layers (-1) ;;
  let '(output_layer, s) := nn_Linear noise a b s in
  '(output_layer, s) <- initializer noise output_layer s ;;
  let net := add_module net "output" output_layer in
  Ok (net, s).

(** [FCN.__init__]. *)
Definition init (layers : list nat) (lb ub : list R)
  (output_names : list string) (act_function : string) (discrete : bool)
  (s : nat) : result (t * nat) :=
  '(model, s) <- initalize_net layers act_function s ;;
  Ok (mk model lb ub output_names discrete, s).
End Construction.

(** The concatenated and rescaled input of the network. *)
Definition network_input (self : t) (spatial : list Tensor) (time : Tensor)
  : result Tensor :=
  if discrete self then
    z <- (if length spatial =? 2 then
            '(x, y) <- unpack2 spatial ;;
            torch_cat [x; y]
          else if length spatial =? 3 then
            '(x, y, z) <- unpack3 spatial ;;
            torch_cat [x; y; z]
          else py_index spatial 0) ;;
    rescale z (drop_last (lb self)) (drop_last (ub self))
  else
    z <- (if length spatial =? 1 then
            x <- py_index spatial 0 ;;
            torch_cat [x; time]
          else if length spatial =? 2 then
            '(x, y) <- unpack2 spatial ;;
            torch_cat [x; y; time]
          else
            '(x, y, z) <- unpack3 spatial ;;
            torch_cat [x; y; z; time]) ;;
    rescale z (lb self) (ub self).

(** [z = self.model(z)]. *)
Definition network_output (self : t) (spatial : list Tensor) (time : Tensor)
  : result Tensor :=
  z <- network_input self spatial time ;;
  Sequential_forward (model self) z.

Definition forward (self : t) (spatial : list Tensor) (time : Tensor)
  : result (PyDict.t Tensor) :=
  z <- network_output self spatial time ;;
  let outputs_dict :=
    if discrete self
    then shared_dict z (output_names self)
    else column_dict z (output_names self) in
  Ok outputs_dict.

End FCN.

(* ------------------------------------------------------------------ *)
(** ** class NetHFM *)

Module NetHFM.

Record t : Type := mk {
  num_layers : nat;
  output_names : list string;
  X_mean : list R;
  X_std : list R;
  weights : list Tensor;
  biases : list (list R);
  gammas : list (list R)
}.

Section Construction.
Variable noise : nat -> R.

(** The three parameter lists, filled layer by layer. *)
Definition initalize_net (num_layers : nat) (layers : list nat) (s : nat)
  : result (list Tensor * list (list R) * list (list R) * nat) :=
  for_each (py_range 0 (Z.of_nat num_layers - 1)) ([], [], [], s)
    (fun i '(weights, biases, gammas, s) =>
       in_dim <- py_index layers i ;;
       out_dim <- py_index layers (i + 1) ;;
       let '(W, s) := draw noise in_dim out_dim s in
       let b := repeat 0%R out_dim in
       let g := repeat 1%R out_dim in
       Ok (weights ++ [W], biases ++ [b], gammas ++ [g], s)).

(** [NetHFM.__init__].  [mean] and [std] are float32 arrays:
    [torch.from_numpy] keeps the dtype of the array it is given. *)
Definition init (mean std : list R) (layers : list nat)
  (output_names : list string) (s : nat) : result (t * nat) :=
  let num_layers := length layers in
  '(weights, biases, gammas, s) <- initalize_net num_layers layers s ;;
  Ok (mk num_layers output_names mean std weights biases gammas, s).
End Construction.

Definition swish (h : R) : R := (h * sigmoid h)%R.

(** The body of the loop over the layers, for the layer of index [i]. *)
Definition layer_step (self : t) (i : nat) (W : Tensor) (b g : list R)
  (H : Tensor) : result Tensor :=
  V <- broadcast Rdiv W (norm_dim0 W) ;;
  H <- matmul H V ;;
  gH <- broadcast (fun h gj => (gj * h)%R) H g ;;
  H <- broadcast Rplus gH b ;;
  if (Z.of_nat i <? Z.of_nat (num_layers self) - 2)%Z
  then Ok (tmap swish H)
  else Ok H.

(** [for i, (W, b, g) in enumerate(zip(weights, biases, gammas))]. *)
Fixpoint layer_loop (self : t) (i : nat) (Ws : list Tensor)
  (bs gs : list (list R)) (H : Tensor) : result Tensor :=
  match Ws, bs, gs with
  | W :: Ws', b :: bs', g :: gs' =>
      H' <- layer_step self i W b g H ;;
      layer_loop self (S i) Ws' bs' gs' H'
  | _, _, _ => Ok H
  end.

(** [H = (H - self.X_mean) / self.X_std] on the concatenated input. *)
Definition network_input (self : t) (spatial : list Tensor) (time : Tensor)
  : result Tensor :=
  H <- (if length spatial =? 1 then
          x <- py_index spatial 0 ;;
          torch_cat [x; time]
        else if length spatial =? 2 then
          '(x, y) <- unpack2 spatial ;;
          torch_cat [x; y; time]
        else
          '(x, y, z) <- unpack3 spatial ;;
          torch_cat [x; y; z; time]) ;;
  d <- broadcast Rminus H (X_mean self) ;;
  broadcast Rdiv d (X_std self).

Definition network_output (self : t) (spatial : list Tensor) (time : Tensor)
  : result Tensor :=
  H <- network_input self spatial time ;;
  layer_loop self 0 (weights self) (biases self) (gammas self) H.

Definition forward (self : t) (spatial : list Tensor) (time : Tensor)
  : result (PyDict.t Tensor) :=
  H <- network_output self spatial time ;;
  let outputs_dict := column_dict H (output_names self) in
  Ok outputs_dict.

End NetHFM.

(* ------------------------------------------------------------------ *)
(** ** class ParallelNet *)

Module ParallelNet.

Record t : Type := mk {
  model1 : Sequential;
  model2 : Sequential;
  lb : list R;
  ub : list R;
  output_names : list string
}.

Section Construction.
Variable noise : nat -> R.

Definition initialize_net (layers : list nat) (act_function : string)
  (s : nat) : result (Sequential * nat) :=
  let net : Sequential := PyDict.empty in
  l0 <- py_index layers 0 ;;
  l1 <- py_index layers 1 ;;
  let '(input_layer, s) := nn_Linear noise l0 l1 s in
  '(input_layer, s) <- initializer noise input_layer s ;;
  let net := add_module net "input" input_layer in
  let net :=
    if String.eqb act_function "sin"
    then add_module net "activation_1" Sin
    else if String.eqb act_function "sigmoid"
    then add_module net "activation_1" Sigmoid
    else add_module net "activation_1" Tanh in
  '(net, s) <-
    for_each (py_range 1 (Z.of_nat (length layers) - 2)) (net, s)
      (fun i '(net, s) =>
         a <- py_index layers i ;;
         b <- py_index layers (i + 1) ;;
         let '(hidden_layer, s) := nn_Linear noise a b s in
         '(hidden_layer, s) <- initializer noise hidden_layer s ;;
         let net :=
           add_module net ("hidden_" ++ py_str (i + 1))%string hidden_layer in
         let net :=
           if String.eqb act_function "sin"
           then add_module net ("activation_" ++ py_str (i + 1))%string Sin
           else if String.eqb act_function "sigmoid"
           then add_module net ("activation_" ++ py_str (i + 1))%string Sigmoid
           else add_module net ("activation_" ++ py_str (i + 1))%string Tanh in
         Ok (net, s)) ;;
  a <- py_index layers (-2) ;;
  b <- py_index layers (-1) ;;
  let '(output_layer, s) := nn_Linear noise a b s in
  '(output_layer, s) <- initializer noise output_layer s ;;
  let net := add_module net "output" output_layer in
  Ok (net, s).

(** [ParallelNet.__init__]. *)
Definition init (layers1 layers2 : list nat) (lb ub : list R)
  (output_names : list string) (act_function1 act_function2 : string)
  (s : nat) : result (t * nat) :=
  '(model1, s) <- initialize_net layers1 act_function1 s ;;
  '(model2, s) <- initialize_net layers2 act_function2 s ;;
  Ok (mk model1 model2 lb ub output_names, s).
End Construction.

(** The rescaled inputs [z1] and [z2] of the two branches. *)
Definition branch_inputs (self : t) (spatial : list Tensor) (time : Tensor)
  : result (Tensor * Tensor) :=
  '(z1, z2) <- (if length spatial =? 1 then
                  x <- py_index spatial 0 ;;
                  z1 <- torch_cat [x; time] ;;
                  Ok (z1, x)
                else if length spatial =? 2 then
                  '(x, y) <- unpack2 spatial ;;
                  z1 <- torch_cat [x; y; time] ;;
                  z2 <- torch_cat [x; y] ;;
                  Ok (z1, z2)
                else
                  '(x, y, z) <- unpack3 spatial ;;
                  z1 <- torch_cat [x; y; z; time] ;;
                  z2 <- torch_cat [x; y; z] ;;
                  Ok (z1, z2)) ;;
  z1 <- rescale z1 (lb self) (ub self) ;;
  z2 <- rescale0 z2 (lb self) (ub self) ;;
  Ok (z1, z2).

(** [z1 = self.model1(z1)] and [z2 = torch.exp(self.model2(z2))]. *)
Definition branch_outputs (self : t) (spatial : list Tensor) (time : Tensor)
  : result (Tensor * Tensor) :=
  '(z1, z2) <- branch_inputs self spatial time ;;
  z1 <- Sequential_forward (model1 self) z1 ;;
  m2 <- Sequential_forward (model2 self) z2 ;;
  let z2 := tmap torch_exp m2 in
  Ok (z1, z2).

(** [z = torch.cat((z1, z2), 1)]. *)
Definition network_output (self : t) (spatial : list Tensor) (time : Tensor)
  : result Tensor :=
  '(z1, z2) <- branch_outputs self spatial time ;;
  torch_cat [z1; z2].

Definition forward (self : t) (spatial : list Tensor) (time : Tensor)
  : result (PyDict.t Tensor) :=
  z <- network_output self spatial time ;;
  let outputs_dict := column_dict z (output_names self) in
  Ok outputs_dict.

End ParallelNet.

(* ------------------------------------------------------------------ *)
(** ** Notions used by the specification *)

(** What a module is, without its parameter values. *)
Inductive ModuleKind : Type :=
| Affine (in_features out_features : nat)
| SinAct
| TanhAct
| SigmoidAct.

Definition kind_of (m : TorchModule) : ModuleKind :=
  match m with
  | Linear i o _ _ => Affine i o
  | Sin => SinAct
  | Tanh => TanhAct
  | Sigmoid => SigmoidAct
  end.

Definition is_affine (k : ModuleKind) : bool :=
  match k with Affine _ _ => true | _ => false end.

(** The kinds of the modules of a network, in the order they are applied. *)
Definition architecture (net : Sequential) : list ModuleKind :=
  map kind_of (PyDict.values net).

Definition affine_layers (net : Sequential) : list ModuleKind :=
  filter is_affine (architecture net).

Definition activations (net : Sequential) : list ModuleKind :=
  filter (fun k => negb (is_affine k)) (architecture net).

(** The stack the specification describes for the widths [layers]: one
    affine layer per pair of consecutive widths, each followed by the
    activation [act] except the last one. *)
Fixpoint layer_stack (act : ModuleKind) (layers : list nat) : list ModuleKind :=
  match layers with
  | a :: (b :: rest) as tl =>
      match rest with
      | [] => [Affine a b]
      | _ :: _ => Affine a b :: act :: layer_stack act tl
      end
  | _ => []
  end.

(** The affine layer between the widths of index [i] and [i + 1], with
    the activation that follows it. *)
Definition stack_item (act : ModuleKind) (layers : list nat) (i : nat)
  : list ModuleKind :=
  [Affine (nth i layers 0) (nth (S i) layers 0); act].

(** The activation each class selects for an identifier. *)
Definition fcn_activation (act_function : string) : ModuleKind :=
  if String.eqb act_function "sin" then SinAct else TanhAct.

Definition parallel_activation (act_function : string) : ModuleKind :=
  if String.eqb act_function "sin" then SinAct
  else if String.eqb act_function "sigmoid" then SigmoidAct
  else TanhAct.

(** The index of the last occurrence of [name] in [names]. *)
Fixpoint last_occurrence (name : string) (names : list string) : option nat :=
  match names with
  | [] => None
  | n :: names' =>
      match last_occurrence name names' with
      | Some i => Some (S i)
      | None => if String.eqb n name then Some 0 else None
      end
  end.

(** One weight-normalised affine transform of NetHFM:
    [g * (H @ (W / ||W||)) + b]. *)
Definition hfm_affine (W : Tensor) (b g : list R) (H : Tensor) : result Tensor :=
  V <- broadcast Rdiv W (norm_dim0 W) ;;
  HV <- matmul H V ;;
  gH <- broadcast (fun h gj => (gj * h)%R) HV g ;;
  broadcast Rplus gH b.

(** The layers as the specification describes them: every transform but
    the last is followed by the swish-like activation. *)
Fixpoint hfm_stack (Ws : list Tensor) (bs gs : list (list R)) (H : Tensor)
  : result Tensor :=
  match Ws, bs, gs with
  | W :: Ws', b :: bs', g :: gs' =>
      H' <- hfm_affine W b g H ;;
      match Ws' with
      | [] => Ok H'
      | _ :: _ => hfm_stack Ws' bs' gs' (tmap NetHFM.swish H')
      end
  | _, _, _ => Ok H
  end.

(** The lengths of the parameter lists fixed by [NetHFM.init]. *)
Definition hfm_shape (self : NetHFM.t) : Prop :=
  Z.of_nat (length (NetHFM.weights self)) = Z.max 0 (Z.of_nat (NetHFM.num_layers self) - 1)
  /\ length (NetHFM.biases self) = length (NetHFM.weights self)
  /\ length (NetHFM.gammas self) = length (NetHFM.weights self).

(** The construction [FCN.initalize_net] and [ParallelNet.initialize_net]
    share, for the activation module [act] they select. *)
Section Skeleton.
Variable noise : nat -> R.
Variable act : TorchModule.

Definition hidden_step (layers : list nat) (i : Z) (st : Sequential * nat)
  : result (Sequential * nat) :=
  let '(net, s) := st in
  a <- py_index layers i ;;
  b <- py_index layers (i + 1) ;;
  let '(hidden_layer, s) := nn_Linear noise a b s in
  '(hidden_layer, s) <- initializer noise hidden_layer s ;;
  let net := add_module net ("hidden_" ++ py_str (i + 1))%string hidden_layer in
  let net := add_module net ("activation_" ++ py_str (i + 1))%string act in
  Ok (net, s).

Definition build_net (layers : list nat) (s : nat)
  : result (Sequential * nat) :=
  l0 <- py_index layers 0 ;;
  l1 <- py_index layers 1 ;;
  let '(input_layer, s) := nn_Linear noise l0 l1 s in
  '(input_layer, s) <- initializer noise input_layer s ;;
  let net := add_module PyDict.empty "input" input_layer in
  let net := add_module net "activation_1" act in
  '(net, s) <-
    for_each (py_range 1 (Z.of_nat (length layers) - 2)) (net, s)
      (hidden_step layers) ;;
  a <- py_index layers (-2) ;;
  b <- py_index layers (-1) ;;
  let '(output_layer, s) := nn_Linear noise a b s in
  '(output_layer, s) <- initializer noise output_layer s ;;
  Ok (add_module net "output" output_layer, s).
End Skeleton.

(** The body of the loop of [NetHFM.initalize_net]. *)
Definition hfm_param_step (noise : nat -> R) (layers : list nat) (i : Z)
  (st : list Tensor * list (list R) * list (list R) * nat)
  : result (list Tensor * list (list R) * list (list R) * nat) :=
  let '(weights, biases, gammas, s) := st in
  in_dim <- py_index layers i ;;
  out_dim <- py_index layers (i + 1) ;;
  let '(W, s) := draw noise in_dim out_dim s in
  let b := repeat 0%R out_dim in
  let g := repeat 1%R out_dim in
  Ok (weights ++ [W], biases ++ [b], gammas ++ [g], s).

Definition fcn_module (act_function : string) : TorchModule :=
  if String.eqb act_function "sin" then Sin else Tanh.

Definition parallel_module (act_function : string) : TorchModule :=
  if String.eqb act_function "sin" then Sin
  else if String.eqb act_function "sigmoid" then Sigmoid
  else Tanh.

(** The three classes behind their common interface [forward]. *)
Inductive Net : Type :=
| OfFCN (self : FCN.t)
| OfNetHFM (self : NetHFM.t)
| OfParallelNet (self : ParallelNet.t).

Definition net_output (m : Net) : list Tensor -> Tensor -> result Tensor :=
  match m with
  | OfFCN self => FCN.network_output self
  | OfNetHFM self => NetHFM.network_output self
  | OfParallelNet self => ParallelNet.network_output self
  end.

Definition net_forward (m : Net)
  : list Tensor -> Tensor -> result (PyDict.t Tensor) :=
  match m with
  | OfFCN self => FCN.forward self
  | OfNetHFM self => NetHFM.forward self
  | OfParallelNet self => ParallelNet.forward self
  end.

Definition net_output_names (m : Net) : list string :=
  match m with
  | OfFCN self => FCN.output_names self
  | OfNetHFM self => NetHFM.output_names self
  | OfParallelNet self => ParallelNet.output_names self
  end.

(** Whether [forward] slices the final tensor into columns: always, except
    for an FCN in discrete mode. *)
Definition slices_columns (m : Net) : bool :=
  match m with
  | OfFCN self => negb (FCN.discrete self)
  | _ => true
  end.

(** The module names the construction has used once the hidden layers of
    index below [a] are in place. *)
Definition name_below (a : nat) (k : string) : Prop :=
  k = "input"%string \/ k = "activation_1"%string
  \/ exists j, 1 <= j < a
       /\ (k = ("hidden_" ++ py_str (Z.of_nat j + 1))%string
           \/ k = ("activation_" ++ py_str (Z.of_nat j + 1))%string).

(** What the construction puts into a network for the activation [act]:
    affine layers and [act]. *)
Definition module_of (act : TorchModule) (m : TorchModule) : Prop :=
  is_affine (kind_of m) = true \/ m = act.

(** The state of a construction in progress: every module is an affine
    layer or [act], and [activation_1] is bound to [act]. *)
Definition built (act : TorchModule) (st : Sequential * nat) : Prop :=
  Forall (module_of act) (PyDict.values (fst st))
  /\ PyDict.get "activation_1" (fst st) = Some act.

(** A network whose last module is an affine layer, as the constructions
    build it. *)
Definition ends_affine (net : Sequential) : Prop :=
  exists ms i o w b, PyDict.values net = ms ++ [Linear i o w b].

(** The networks whose final tensor comes out of an affine transform. *)
Definition affine_output (m : Net) : Prop :=
  match m with
  | OfFCN self => ends_affine (FCN.model self)
  | OfNetHFM self =>
      NetHFM.weights self <> [] /\ NetHFM.biases self <> []
      /\ NetHFM.gammas self <> []
  | OfParallelNet self =>
      ends_affine (ParallelNet.model1 self)
      /\ ends_affine (ParallelNet.model2 self)
  end.

(** A tensor of shape [batch x width]. *)
Definition has_shape (t : Tensor) (batch width : nat) : Prop :=
  nrows t = batch /\ ncols t = width /\ wf t.

(** An affine layer whose weight has shape [out x in] and whose bias has
    length [out]. *)
Definition well_shaped (m : TorchModule) : Prop :=
  match m with
  | Linear i o w b => has_shape w o i /\ length b = o
  | _ => True
  end.

(** The names [add_module] receives for [n] widths, in order. *)
Definition hidden_names (j : nat) : list string :=
  [("hidden_" ++ py_str (Z.of_nat j + 1))%string;
   ("activation_" ++ py_str (Z.of_nat j + 1))%string].

Definition module_names (n : nat) : list string :=
  ["input"%string; "activation_1"%string]
  ++ flat_map hidden_names (seq 1 (n - 3)) ++ ["output"%string].

(** The parameters of a NetHFM for the widths [layers]: one weight of
    shape [layers[i] x layers[i+1]], one bias and one gamma of length
    [layers[i+1]] per pair of consecutive widths. *)
Definition hfm_params_ok (layers : list nat) (self : NetHFM.t) : Prop :=
  NetHFM.num_layers self = length layers
  /\ Forall2 (fun i W => has_shape W (nth i layers 0) (nth (S i) layers 0))
       (seq 0 (length layers - 1)) (NetHFM.weights self)
  /\ Forall2 (fun i (b : list R) => length b = nth (S i) layers 0)
       (seq 0 (length layers - 1)) (NetHFM.biases self)
  /\ Forall2 (fun i (g : list R) => length g = nth (S i) layers 0)
       (seq 0 (length layers - 1)) (NetHFM.gammas self).

(** All entries of a tensor lie between [lo] and [hi]. *)
Definition entries_within (lo hi : R) (t : Tensor) : Prop :=
  Forall (Forall (fun v => (lo <= v <= hi)%R)) (rows t).

(** Every row of a tensor lies between the bounds, coordinate by
    coordinate. *)
Definition rows_within (lb ub : list R) (t : Tensor) : Prop :=
  Forall (fun r => Forall2 Rle lb r /\ Forall2 Rle r ub) (rows t).

(** In a construction that has returned, every [nn.Linear] was
    initialised: given the two cases [H] of a fresh layer, the step
    replaces the two calls by the layer they give. *)
Ltac fresh_layer H w bias s1 Hw Hb :=
  let E := fresh "E" in
  let layer := fresh "layer" in
  let s0 := fresh "s0" in
  destruct H as [(_ & w & bias & s1 & E & Hw & Hb)|(_ & E)];
  match type of E with
  | context [nn_Linear ?n ?a ?b ?s] => destruct (nn_Linear n a b s) as [layer s0]
  end;
  cbv beta iota; rewrite E; clear E; cbn [bind];
  [cbv beta iota|discriminate].

(** A generator that always answers 0, and small inputs, for examples. *)
Definition zero_noise : nat -> R := fun _ => 0%R.

Definition half : Tensor := mkTensor 1 [[(1 / 2)%R]].

(** A ParallelNet of the shape [ParallelNet.init] builds from the widths
    [2, 1, 1] and [1, 1, 1], with parameter values as training or
    [load_state_dict] can set them: all zero, except the bias of the
    output layer of the second sub-network, which is [-150]. *)
Definition underflow_net : ParallelNet.t :=
  ParallelNet.mk
    [("input"%string, Linear 2 1 (mkTensor 2 [[0; 0]%R]) [0%R]);
     ("activation_1"%string, Tanh);
     ("output"%string, Linear 1 1 (mkTensor 1 [[0%R]]) [0%R])]
    [("input"%string, Linear 1 1 (mkTensor 1 [[0%R]]) [0%R]);
     ("activation_1"%string, Tanh);
     ("output"%string, Linear 1 1 (mkTensor 1 [[0%R]]) [(-150)%R])]
    [0; 0]%R [1; 1]%R ["j"%string; "rho"%string].


(* ------------------------------------------------------------------ *)
(** ** The two constructions are instances of the shared one *)

Lemma fcn_initalize_net_skeleton noise layers act_function s :
  FCN.initalize_net noise layers act_function s
  = build_net noise (fcn_module act_function) layers s.
Proof.
  unfold FCN.initalize_net, build_net, fcn_module.
  destruct (py_index layers 0) as [l0|]; simpl; [|reflexivity].
  destruct (py_index layers 1) as [l1|]; simpl; [|reflexivity].
  destruct (String.eqb act_function "sin"); reflexivity.
Qed.

Lemma parallel_initialize_net_skeleton noise layers act_function s :
  ParallelNet.initialize_net noise layers act_function s
  = build_net noise (parallel_module act_function) layers s.
Proof.
  unfold ParallelNet.initialize_net, build_net, parallel_module.
  destruct (py_index layers 0) as [l0|]; simpl; [|reflexivity].
  destruct (py_index layers 1) as [l1|]; simpl; [|reflexivity].
  destruct (String.eqb act_function "sin");
    [|destruct (String.eqb act_function "sigmoid")]; reflexivity.
Qed.

(* ------------------------------------------------------------------ *)
(** ** Dictionaries *)

Section DictFacts.
Variable V : Type.
Implicit Types (d : PyDict.t V) (k : string) (v : V).

Lemma set_fresh k v d :
  ~ In k (PyDict.keys d) -> PyDict.set k v d = d ++ [(k, v)].
Proof.
  induction d as [|[k' v'] d IH]; simpl; intros Hk; [reflexivity|].
  destruct (String.eqb_spec k' k) as [->|Hne].
  - exfalso. apply Hk. now left.
  - rewrite IH; [reflexivity|]. intros Hin. apply Hk. now right.
Qed.

Lemma keys_set_in k v d :
  In k (PyDict.keys d) -> PyDict.keys (PyDict.set k v d) = PyDict.keys d.
Proof.
  induction d as [|[k' v'] d IH]; simpl; intros Hk; [contradiction|].
  destruct (String.eqb_spec k' k) as [->|Hne]; simpl; [reflexivity|].
  rewrite IH; [reflexivity|]. destruct Hk; [contradiction|assumption].
Qed.

Lemma keys_set_fresh k v d :
  ~ In k (PyDict.keys d) -> PyDict.keys (PyDict.set k v d) = PyDict.keys d ++ [k].
Proof.
  intros Hk. rewrite set_fresh by assumption.
  unfold PyDict.keys. rewrite map_app. reflexivity.
Qed.

Lemma in_keys_set k k' v d :
  In k' (PyDict.keys (PyDict.set k v d)) <-> k' = k \/ In k' (PyDict.keys d).
Proof.
  destruct (in_dec string_dec k (PyDict.keys d)) as [Hin|Hnin].
  - rewrite keys_set_in by assumption. split; [auto|].
    intros [->|H]; assumption.
  - rewrite keys_set_fresh by assumption. rewrite in_app_iff. simpl.
    split; [intros [H|[H|[]]]|intros [H|H]]; auto.
Qed.

Lemma NoDup_keys_set k v d :
  NoDup (PyDict.keys d) -> NoDup (PyDict.keys (PyDict.set k v d)).
Proof.
  intros Hnd.
  destruct (in_dec string_dec k (PyDict.keys d)) as [Hin|Hnin].
  - rewrite keys_set_in by assumption. assumption.
  - rewrite keys_set_fresh by assumption.
    apply NoDup_app; [assumption|repeat constructor; intros []|].
    intros x Hx [<-|[]]. contradiction.
Qed.

Lemma get_set_same k v d : PyDict.get k (PyDict.set k v d) = Some v.
Proof.
  induction d as [|[k' v'] d IH]; simpl.
  - now rewrite String.eqb_refl.
  - destruct (String.eqb_spec k' k) as [->|Hne]; simpl.
    + now rewrite String.eqb_refl.
    + destruct (String.eqb_spec k' k); [contradiction|assumption].
Qed.

Lemma get_set_other k k' v d :
  k' <> k -> PyDict.get k' (PyDict.set k v d) = PyDict.get k' d.
Proof.
  intros Hne.
  induction d as [|[k0 v0] d IH]; simpl.
  - destruct (String.eqb_spec k k'); [congruence|reflexivity].
  - destruct (String.eqb_spec k0 k) as [->|Hk0]; simpl.
    + destruct (String.eqb_spec k k'); [congruence|reflexivity].
    + destruct (String.eqb_spec k0 k'); [reflexivity|assumption].
Qed.

Lemma get_set_keep k k' v d :
  PyDict.get k' d = Some v -> PyDict.get k' (PyDict.set k v d) = Some v.
Proof.
  intros H. destruct (string_dec k' k) as [->|Hne].
  - apply get_set_same.
  - now rewrite get_set_other.
Qed.

(** The values of a dictionary after a [set] satisfy what the old values
    and the new value satisfy. *)
Lemma Forall_values_set (P : V -> Prop) k v d :
  Forall P (PyDict.values d) -> P v -> Forall P (PyDict.values (PyDict.set k v d)).
Proof.
  intros Hd Hv.
  induction d as [|[k' v'] d IH]; simpl.
  - constructor; [assumption|constructor].
  - unfold PyDict.values in Hd. simpl in Hd. inversion Hd; subst.
    destruct (String.eqb k' k); simpl; constructor; auto.
Qed.

(** *** Comprehensions *)

Lemma in_keys_comprehend f start names d k :
  In k (PyDict.keys (PyDict.comprehend f start names d))
  <-> In k (PyDict.keys d) \/ In k names.
Proof.
  revert start d.
  induction names as [|n names IH]; intros start d; simpl.
  - tauto.
  - rewrite IH, in_keys_set. intuition congruence.
Qed.

Lemma NoDup_keys_comprehend f start names d :
  NoDup (PyDict.keys d) ->
  NoDup (PyDict.keys (PyDict.comprehend f start names d)).
Proof.
  revert start d.
  induction names as [|n names IH]; intros start d Hnd; simpl; [assumption|].
  apply IH, NoDup_keys_set, Hnd.
Qed.

Lemma get_comprehend f start names d k :
  PyDict.get k (PyDict.comprehend f start names d)
  = match last_occurrence k names with
    | Some i => Some (f (start + i) k)
    | None => PyDict.get k d
    end.
Proof.
  revert start d.
  induction names as [|n names IH]; intros start d; simpl; [reflexivity|].
  rewrite IH.
  destruct (last_occurrence k names) as [i|].
  - now rewrite Nat.add_succ_comm.
  - destruct (String.eqb_spec n k) as [->|Hne].
    + now rewrite get_set_same, Nat.add_0_r.
    + apply get_set_other. congruence.
Qed.

(** A comprehension over names with a repetition has fewer entries than
    names. *)
Lemma len_comprehend_dup f names :
  ~ NoDup names ->
  PyDict.len (PyDict.comprehend f 0 names (@PyDict.empty V)) < length names.
Proof.
  intros Hdup.
  destruct (Nat.lt_ge_cases
              (PyDict.len (PyDict.comprehend f 0 names (@PyDict.empty V)))
              (length names)) as [Hlt|Hge]; [assumption|].
  exfalso. apply Hdup.
  apply NoDup_incl_NoDup
    with (l := PyDict.keys (PyDict.comprehend f 0 names (@PyDict.empty V))).
  - apply NoDup_keys_comprehend. constructor.
  - unfold PyDict.keys. rewrite length_map. exact Hge.
  - intros k Hk. apply in_keys_comprehend in Hk. destruct Hk as [[]|Hk]. exact Hk.
Qed.

Lemma keys_comprehend_NoDup f start names d :
  NoDup (PyDict.keys d ++ names) ->
  PyDict.keys (PyDict.comprehend f start names d) = PyDict.keys d ++ names.
Proof.
  revert start d.
  induction names as [|n names IH]; intros start d Hnd; simpl.
  - now rewrite app_nil_r.
  - assert (Hn : ~ In n (PyDict.keys d)).
    { intros Hin. apply NoDup_remove_2 in Hnd. apply Hnd.
      apply in_or_app. now left. }
    rewrite IH; rewrite keys_set_fresh by assumption.
    + now rewrite <- app_assoc.
    + now rewrite <- app_assoc.
Qed.
End DictFacts.

(** *** Occurrences of a name *)

Lemma last_occurrence_nth name names i :
  last_occurrence name names = Some i ->
  nth_error names i = Some name
  /\ forall j, i < j -> nth_error names j <> Some name.
Proof.
  revert i.
  induction names as [|n names IH]; intros i; simpl; [discriminate|].
  destruct (last_occurrence name names) as [i'|] eqn:E.
  - intros [= <-]. destruct (IH i' eq_refl) as [H1 H2].
    split; [exact H1|].
    intros [|j] Hj; [lia|]. simpl. apply H2. lia.
  - destruct (String.eqb_spec n name) as [->|Hne]; [|discriminate].
    intros [= <-]. split; [reflexivity|].
    intros [|j] Hj; [lia|]. simpl. intros Hn.
    assert (Hin : exists i, last_occurrence name names = Some i).
    { clear -Hn. revert j Hn.
      induction names as [|m names IH]; intros j Hn; [destruct j; discriminate|].
      simpl. destruct (last_occurrence name names) as [i|] eqn:E; [eauto|].
      destruct j as [|j]; simpl in Hn.
      - injection Hn as ->. rewrite String.eqb_refl. eauto.
      - destruct (IH j Hn) as [i Hi]. discriminate. }
    destruct Hin as [i Hi]. congruence.
Qed.

Lemma last_occurrence_in name names :
  In name names -> exists i, last_occurrence name names = Some i.
Proof.
  induction names as [|n names IH]; simpl; [contradiction|].
  intros [->|Hin].
  - destruct (last_occurrence name names); [eauto|].
    rewrite String.eqb_refl. eauto.
  - destruct (IH Hin) as [i ->]. eauto.
Qed.

(* ------------------------------------------------------------------ *)
(** ** Python indices, ranges and formatted integers *)

Lemma py_index_nat {A : Type} (l : list A) (i : nat) (d : A) :
  i < length l -> py_index l (Z.of_nat i) = Ok (nth i l d).
Proof.
  intros Hi. unfold py_index.
  destruct (Z.ltb_spec (Z.of_nat i) 0) as [Hneg|_]; [lia|].
  destruct (Z.leb_spec 0 (Z.of_nat i)) as [_|Hneg]; [|lia].
  destruct (Z.ltb_spec (Z.of_nat i) (Z.of_nat (length l))) as [_|Hge]; [|lia].
  simpl. rewrite Nat2Z.id.
  rewrite (nth_error_nth' l d Hi). reflexivity.
Qed.

Lemma py_index_from_end {A : Type} (l : list A) (k : nat) (d : A) :
  1 <= k <= length l ->
  py_index l (- Z.of_nat k) = Ok (nth (length l - k) l d).
Proof.
  intros Hk. unfold py_index.
  destruct (Z.ltb_spec (- Z.of_nat k) 0) as [_|Hpos]; [|lia].
  destruct (Z.leb_spec 0 (- Z.of_nat k + Z.of_nat (length l))) as [_|Hneg]; [|lia].
  destruct (Z.ltb_spec (- Z.of_nat k + Z.of_nat (length l)) (Z.of_nat (length l)))
    as [_|Hge]; [|lia].
  simpl.
  replace (Z.to_nat (- Z.of_nat k + Z.of_nat (length l))) with (length l - k) by lia.
  rewrite (nth_error_nth' l d); [reflexivity|lia].
Qed.

Lemma py_range_nat (a b : nat) :
  py_range (Z.of_nat a) (Z.of_nat b) = map Z.of_nat (seq a (b - a)).
Proof.
  unfold py_range.
  replace (Z.to_nat (Z.of_nat b - Z.of_nat a)) with (b - a) by lia.
  generalize (b - a) as m. intros m.
  assert (G : forall k,
             map (fun j => (Z.of_nat a + Z.of_nat j)%Z) (seq k m)
             = map Z.of_nat (seq (a + k) m)).
  { induction m as [|m IH]; intros k; simpl; [reflexivity|].
    f_equal; [lia|]. rewrite IH. now rewrite Nat.add_succ_r. }
  rewrite G. now rewrite Nat.add_0_r.
Qed.

Lemma py_str_inj (a b : Z) : py_str a = py_str b -> a = b.
Proof.
  unfold py_str. intros H.
  apply (f_equal NilEmpty.int_of_string) in H.
  rewrite !NilEmpty.isi in H.
  injection H as H. now apply DecimalZ.to_int_inj.
Qed.

(* ------------------------------------------------------------------ *)
(** ** The architecture [build_net] produces *)

Lemma architecture_add_fresh (net : Sequential) (name : string) (m : TorchModule) :
  ~ In name (PyDict.keys net) ->
  architecture (add_module net name m) = architecture net ++ [kind_of m].
Proof.
  intros Hn. unfold architecture, add_module, PyDict.values.
  rewrite set_fresh by assumption. now rewrite !map_app.
Qed.

Lemma name_below_mono a b k : a <= b -> name_below a k -> name_below b k.
Proof.
  intros Hab [H|[H|(j & Hj & H)]]; [now left|now right; left|].
  right; right. exists j. split; [lia|assumption].
Qed.

Lemma hidden_name_fresh a j k :
  name_below a k -> a <= j -> 1 <= j ->
  k <> ("hidden_" ++ py_str (Z.of_nat j + 1))%string.
Proof.
  intros [-> | [-> | (i & Hi & [-> | ->])]] Haj Hj; simpl; try discriminate.
  intros [= H]. apply py_str_inj in H. lia.
Qed.

Lemma activation_name_fresh a j k :
  name_below a k -> a <= j -> 1 <= j ->
  k <> ("activation_" ++ py_str (Z.of_nat j + 1))%string.
Proof.
  intros [-> | [-> | (i & Hi & [-> | ->])]] Haj Hj; simpl; try discriminate.
  - intros [= H]. change "1"%string with (py_str 1) in H.
    apply py_str_inj in H. lia.
  - intros [= H]. apply py_str_inj in H. lia.
Qed.

Lemma output_name_fresh a k : name_below a k -> k <> "output"%string.
Proof.
  intros [-> | [-> | (i & Hi & [-> | ->])]]; simpl; discriminate.
Qed.

(** A tensor drawn from the generator has the shape asked for. *)
Lemma draw_shape noise r c s : has_shape (fst (draw noise r c s)) r c.
Proof.
  unfold has_shape, draw, nrows, wf. cbn [fst rows ncols].
  rewrite length_map, length_seq. split; [reflexivity|]. split; [reflexivity|].
  apply Forall_map, Forall_forall. intros i _.
  now rewrite length_map, length_seq.
Qed.

(** A freshly built affine layer [nn.Linear(a, b)] is initialised unless
    both widths are zero; its weight then has shape [b x a] and its bias
    the length [b]. *)
Lemma fresh_linear noise a b s :
  (0 < a + b
   /\ exists w bias s',
        (let '(layer, s1) := nn_Linear noise a b s in initializer noise layer s1)
        = Ok (Linear a b w bias, s')
        /\ has_shape w b a /\ length bias = b)
  \/ (a + b = 0
      /\ (let '(layer, s1) := nn_Linear noise a b s in initializer noise layer s1)
         = Raise ZeroDivisionError).
Proof.
  unfold nn_Linear, initializer.
  destruct (draw_shape noise b a s) as (Hr & Hc & _).
  destruct (draw noise b a s) as [w0 s0] eqn:E0. cbn [fst] in Hr, Hc.
  unfold draw_vec. cbv beta iota zeta. rewrite Hr, Hc.
  destruct (Nat.eqb_spec (a + b) 0) as [Hz|Hnz].
  - right. split; [exact Hz|reflexivity].
  - left. split; [lia|].
    pose proof (draw_shape noise b a (s0 + b)) as Hs.
    destruct (draw noise b a (s0 + b)) as [w1 s1]. cbn [fst] in Hs.
    exists w1, (map (fun j => noise (s0 + j)) (seq 0 b)), s1.
    split; [reflexivity|]. split; [exact Hs|].
    now rewrite length_map, length_seq.
Qed.

Section BuildNet.
Variable noise : nat -> R.
Variable act : TorchModule.

Lemma hidden_step_spec layers a (net : Sequential) s (net' : Sequential) s' :
  1 <= a -> S a < length layers ->
  Forall (name_below a) (PyDict.keys net) ->
  hidden_step noise act layers (Z.of_nat a) (net, s) = Ok (net', s') ->
  architecture net' = architecture net ++ stack_item (kind_of act) layers a
  /\ PyDict.keys net' = PyDict.keys net ++ hidden_names a
  /\ Forall (name_below (S a)) (PyDict.keys net').
Proof.
  intros Ha Hlen Hkeys. unfold hidden_step.
  rewrite (py_index_nat layers 0) by lia. cbn [bind].
  replace (Z.of_nat a + 1)%Z with (Z.of_nat (S a)) by lia.
  rewrite (py_index_nat layers 0) by lia. cbn [bind].
  fresh_layer (fresh_linear noise (nth a layers 0) (nth (S a) layers 0) s)
    w bias s1 Hw Hb.
  replace (Z.of_nat (S a)) with (Z.of_nat a + 1)%Z by lia.
  set (hname := ("hidden_" ++ py_str (Z.of_nat a + 1))%string).
  set (aname := ("activation_" ++ py_str (Z.of_nat a + 1))%string).
  set (layer0 := Linear (nth a layers 0) (nth (S a) layers 0) w bias).
  assert (Hh : ~ In hname (PyDict.keys net)).
  { intros Hin. rewrite Forall_forall in Hkeys.
    apply (hidden_name_fresh (Hkeys _ Hin) (Nat.le_refl a) Ha). reflexivity. }
  assert (K1 : PyDict.keys (add_module net hname layer0)
               = PyDict.keys net ++ [hname]).
  { unfold add_module. now rewrite keys_set_fresh. }
  assert (Ha' : ~ In aname (PyDict.keys (add_module net hname layer0))).
  { rewrite K1, in_app_iff. intros [Hin|[Hin|[]]].
    - rewrite Forall_forall in Hkeys.
      apply (activation_name_fresh (Hkeys _ Hin) (Nat.le_refl a) Ha). reflexivity.
    - unfold hname, aname in Hin. simpl in Hin. discriminate. }
  assert (K2 : PyDict.keys (add_module (add_module net hname layer0) aname act)
               = PyDict.keys net ++ hidden_names a).
  { unfold add_module at 1. rewrite keys_set_fresh by exact Ha'.
    rewrite K1, <- app_assoc. reflexivity. }
  intros [= <- <-]. split; [|split].
  - rewrite architecture_add_fresh by exact Ha'.
    rewrite architecture_add_fresh by exact Hh.
    unfold stack_item. now rewrite <- app_assoc.
  - exact K2.
  - rewrite K2. apply Forall_app. split.
    + eapply Forall_impl; [|exact Hkeys]. intros k. apply name_below_mono. lia.
    + constructor; [|constructor; [|constructor]]; right; right; exists a;
        (split; [lia|]); [now left|now right].
Qed.

Lemma hidden_loop_spec layers m :
  forall a (net : Sequential) s (net' : Sequential) s',
  1 <= a -> a + m < length layers ->
  Forall (name_below a) (PyDict.keys net) ->
  for_each (map Z.of_nat (seq a m)) (net, s) (hidden_step noise act layers)
  = Ok (net', s') ->
  architecture net'
  = architecture net ++ flat_map (stack_item (kind_of act) layers) (seq a m)
  /\ PyDict.keys net' = PyDict.keys net ++ flat_map hidden_names (seq a m)
  /\ Forall (name_below (a + m)) (PyDict.keys net').
Proof.
  induction m as [|m IH]; intros a net s net' s' Ha Hlen Hkeys;
    cbn [seq map for_each flat_map].
  - intros [= <- <-]. rewrite !app_nil_r, Nat.add_0_r. auto.
  - destruct (hidden_step noise act layers (Z.of_nat a) (net, s))
      as [[net1 s1]|] eqn:E1; cbn [bind]; [|discriminate].
    intros E2.
    destruct (@hidden_step_spec layers a net s net1 s1 Ha ltac:(lia) Hkeys E1)
      as (A1 & K1 & B1).
    destruct (IH (S a) net1 s1 net' s' ltac:(lia) ltac:(lia) B1 E2)
      as (A2 & K2 & B2).
    split; [|split].
    + rewrite A2, A1. now rewrite <- app_assoc.
    + rewrite K2, K1. now rewrite <- app_assoc.
    + now rewrite <- Nat.add_succ_comm.
Qed.

(** The modules of a network built from three widths or more are, in
    order: an affine layer and the activation for every pair of
    consecutive widths but the last, then the last affine layer; their
    names are those of [module_names]. *)
Lemma build_net_spec layers s net s' :
  3 <= length layers ->
  build_net noise act layers s = Ok (net, s') ->
  architecture net
  = flat_map (stack_item (kind_of act) layers) (seq 0 (length layers - 2))
    ++ [Affine (nth (length layers - 2) layers 0)
               (nth (length layers - 1) layers 0)]
  /\ PyDict.keys net = module_names (length layers).
Proof.
  intros Hlen. unfold build_net.
  change (py_index layers 0) with (py_index layers (Z.of_nat 0)).
  change (py_index layers 1) with (py_index layers (Z.of_nat 1)).
  change (py_index layers (-2)) with (py_index layers (- Z.of_nat 2)).
  change (py_index layers (-1)) with (py_index layers (- Z.of_nat 1)).
  change (py_range 1) with (py_range (Z.of_nat 1)).
  rewrite (py_index_nat layers 0 (i := 0)) by lia.
  rewrite (py_index_nat layers 0 (i := 1)) by lia. cbn [bind].
  fresh_layer (fresh_linear noise (nth 0 layers 0) (nth 1 layers 0) s)
    w bias s0 Hw Hb.
  replace (Z.of_nat (length layers) - 2)%Z
    with (Z.of_nat (length layers - 2)) by lia.
  rewrite (py_range_nat 1 (length layers - 2)).
  set (net0 := add_module (add_module PyDict.empty "input" _) "activation_1" act).
  destruct (for_each _ (net0, s0) _) as [[net1 s2]|] eqn:E1; cbn [bind];
    [|discriminate].
  destruct (@hidden_loop_spec layers (length layers - 2 - 1) 1 net0 s0 net1 s2)
    as (A1 & K1 & B1); [lia|lia| |exact E1|].
  { subst net0. simpl. constructor; [now left|].
    constructor; [now right; left|constructor]. }
  rewrite (py_index_from_end layers (k := 2) 0) by lia.
  rewrite (py_index_from_end layers (k := 1) 0) by lia. cbn [bind].
  fresh_layer (fresh_linear noise (nth (length layers - 2) layers 0)
                 (nth (length layers - 1) layers 0) s2) w' bias' s3 Hw' Hb'.
  intros [= <- <-].
  assert (Hout : ~ In "output"%string (PyDict.keys net1)).
  { intros Hin. rewrite Forall_forall in B1.
    apply (output_name_fresh (B1 _ Hin)). reflexivity. }
  split.
  - rewrite architecture_add_fresh by exact Hout.
    rewrite A1. subst net0. simpl.
    destruct (length layers - 2) as [|k] eqn:Ek; [lia|].
    simpl. rewrite Nat.sub_0_r. reflexivity.
  - unfold add_module at 1. rewrite keys_set_fresh by exact Hout.
    rewrite K1. subst net0. unfold module_names.
    replace (length layers - 2 - 1) with (length layers - 3) by lia.
    reflexivity.
Qed.

(** With positive widths no initialisation divides by zero: the loop over
    the hidden layers and the whole construction return. *)
Lemma hidden_loop_succeeds layers m : forall a (st : Sequential * nat),
  a + m < length layers ->
  Forall (fun w => 0 < w) layers ->
  exists st',
    for_each (map Z.of_nat (seq a m)) st (hidden_step noise act layers) = Ok st'.
Proof.
  induction m as [|m IH]; intros a [net s] Hlen Hpos;
    cbn [seq map for_each].
  - eauto.
  - unfold hidden_step at 1.
    rewrite (py_index_nat layers 0) by lia. cbn [bind].
    replace (Z.of_nat a + 1)%Z with (Z.of_nat (S a)) by lia.
    rewrite (py_index_nat layers 0) by lia. cbn [bind].
    assert (Ha : 0 < nth a layers 0).
    { rewrite Forall_forall in Hpos. apply Hpos, nth_In. lia. }
    destruct (fresh_linear noise (nth a layers 0) (nth (S a) layers 0) s)
      as [(_ & w & bias & s1 & E & _)|(Hz & _)]; [|lia].
    destruct (nn_Linear noise (nth a layers 0) (nth (S a) layers 0) s)
      as [layer s0].
    cbv beta iota. rewrite E. cbn [bind]. cbv beta iota.
    apply IH; [lia|exact Hpos].
Qed.

Lemma build_net_succeeds layers s :
  2 <= length layers ->
  Forall (fun w => 0 < w) layers ->
  exists net s', build_net noise act layers s = Ok (net, s').
Proof.
  intros Hlen Hpos. unfold build_net.
  change (py_index layers 0) with (py_index layers (Z.of_nat 0)).
  change (py_index layers 1) with (py_index layers (Z.of_nat 1)).
  change (py_index layers (-2)) with (py_index layers (- Z.of_nat 2)).
  change (py_index layers (-1)) with (py_index layers (- Z.of_nat 1)).
  change (py_range 1) with (py_range (Z.of_nat 1)).
  rewrite (py_index_nat layers 0 (i := 0)) by lia.
  rewrite (py_index_nat layers 0 (i := 1)) by lia. cbn [bind].
  assert (Hnth : forall i, i < length layers -> 0 < nth i layers 0).
  { intros i Hi. rewrite Forall_forall in Hpos. now apply Hpos, nth_In. }
  pose proof (Hnth 0 ltac:(lia)) as H0.
  destruct (fresh_linear noise (nth 0 layers 0) (nth 1 layers 0) s)
    as [(_ & w & bias & s0 & E & _)|(Hz & _)]; [|lia].
  destruct (nn_Linear noise (nth 0 layers 0) (nth 1 layers 0) s) as [layer s1].
  cbv beta iota. rewrite E. clear E. cbn [bind]. cbv beta iota.
  replace (Z.of_nat (length layers) - 2)%Z
    with (Z.of_nat (length layers - 2)) by lia.
  rewrite (py_range_nat 1 (length layers - 2)).
  set (net0 := add_module (add_module PyDict.empty "input" _) "activation_1" act).
  destruct (@hidden_loop_succeeds layers (length layers - 2 - 1) 1 (net0, s0))
    as ([net1 s2] & E1); [lia|exact Hpos|].
  rewrite E1. cbn [bind].
  rewrite (py_index_from_end layers (k := 2) 0) by lia.
  rewrite (py_index_from_end layers (k := 1) 0) by lia. cbn [bind].
  pose proof (Hnth (length layers - 2) ltac:(lia)) as H2.
  destruct (fresh_linear noise (nth (length layers - 2) layers 0)
              (nth (length layers - 1) layers 0) s2)
    as [(_ & w' & bias' & s3 & E & _)|(Hz & _)]; [|lia].
  destruct (nn_Linear noise (nth (length layers - 2) layers 0)
              (nth (length layers - 1) layers 0) s2) as [layer' s4].
  cbv beta iota. rewrite E. clear E. cbn [bind]. cbv beta iota.
  eauto.
Qed.
End BuildNet.

(* ------------------------------------------------------------------ *)
(** ** The stack of the specification *)

Lemma flat_map_shift (k : ModuleKind) (a : nat) (tl : list nat) (m : nat) :
  flat_map (stack_item k (a :: tl)) (seq 1 m)
  = flat_map (stack_item k tl) (seq 0 m).
Proof.
  rewrite <- seq_shift. generalize (seq 0 m) as l.
  induction l as [|i l IH]; simpl; [reflexivity|].
  now rewrite IH.
Qed.

Lemma layer_stack_items (k : ModuleKind) (layers : list nat) :
  2 <= length layers ->
  layer_stack k layers
  = flat_map (stack_item k layers) (seq 0 (length layers - 2))
    ++ [Affine (nth (length layers - 2) layers 0)
               (nth (length layers - 1) layers 0)].
Proof.
  induction layers as [|a tl IH]; [simpl; lia|].
  destruct tl as [|b rest]; [simpl; lia|].
  intros _. destruct rest as [|c r]; [reflexivity|].
  change (layer_stack k (a :: b :: c :: r))
    with (Affine a b :: k :: layer_stack k (b :: c :: r)).
  rewrite IH by (simpl; lia).
  replace (length (a :: b :: c :: r) - 2) with (S (length (b :: c :: r) - 2))
    by (simpl; lia).
  replace (length (a :: b :: c :: r) - 1) with (S (length (b :: c :: r) - 1))
    by (simpl; lia).
  cbn [seq flat_map]. rewrite flat_map_shift.
  change (nth (S (length (b :: c :: r) - 2)) (a :: b :: c :: r) 0)
    with (nth (length (b :: c :: r) - 2) (b :: c :: r) 0).
  change (nth (S (length (b :: c :: r) - 1)) (a :: b :: c :: r) 0)
    with (nth (length (b :: c :: r) - 1) (b :: c :: r) 0).
  reflexivity.
Qed.

Lemma layer_stack_affine (k : ModuleKind) (layers : list nat) :
  is_affine k = false ->
  length (filter is_affine (layer_stack k layers)) = length layers - 1.
Proof.
  intros Hk.
  induction layers as [|a tl IH]; [reflexivity|].
  destruct tl as [|b rest]; [reflexivity|].
  destruct rest as [|c r]; [reflexivity|].
  change (layer_stack k (a :: b :: c :: r))
    with (Affine a b :: k :: layer_stack k (b :: c :: r)).
  cbn [filter is_affine]. rewrite Hk. cbn [length]. rewrite IH. simpl. lia.
Qed.

Lemma layer_stack_activations (k : ModuleKind) (layers : list nat) :
  is_affine k = false ->
  filter (fun x => negb (is_affine x)) (layer_stack k layers)
  = repeat k (length layers - 2).
Proof.
  intros Hk.
  induction layers as [|a tl IH]; [reflexivity|].
  destruct tl as [|b rest]; [reflexivity|].
  destruct rest as [|c r]; [reflexivity|].
  change (layer_stack k (a :: b :: c :: r))
    with (Affine a b :: k :: layer_stack k (b :: c :: r)).
  cbn [filter is_affine negb]. rewrite Hk. cbn [negb]. rewrite IH.
  replace (length (a :: b :: c :: r) - 2) with (S (length (b :: c :: r) - 2))
    by (simpl; lia).
  reflexivity.
Qed.

(** The network built for three widths or more is the stack of the
    specification. *)
Lemma build_net_stack noise act layers s net s' :
  3 <= length layers ->
  build_net noise act layers s = Ok (net, s') ->
  architecture net = layer_stack (kind_of act) layers.
Proof.
  intros Hlen E.
  destruct (@build_net_spec noise act layers s net s' Hlen E) as [A _].
  rewrite A. symmetry. apply layer_stack_items. lia.
Qed.

(* ------------------------------------------------------------------ *)
(** ** The modules of a built network *)

Lemma for_each_invariant {A S : Type} (P : S -> Prop) (xs : list A)
  (body : A -> S -> result S) :
  (forall x a a', P a -> body x a = Ok a' -> P a') ->
  forall acc r, P acc -> for_each xs acc body = Ok r -> P r.
Proof.
  intros Hbody.
  induction xs as [|x xs IH]; intros acc r Hacc; simpl.
  - intros [= <-]. exact Hacc.
  - destruct (body x acc) as [a'|e] eqn:E; simpl; [|discriminate].
    apply IH. eapply Hbody; eassumption.
Qed.

Section BuiltModules.
Variable noise : nat -> R.
Variable act : TorchModule.

Lemma hidden_step_built layers i st st' :
  built act st -> hidden_step noise act layers i st = Ok st' -> built act st'.
Proof.
  destruct st as [net s]. intros [Hall Hact]. unfold hidden_step.
  destruct (py_index layers i) as [a|]; cbn [bind]; [|discriminate].
  destruct (py_index layers (i + 1)) as [b|]; cbn [bind]; [|discriminate].
  fresh_layer (fresh_linear noise a b s) w bias s1 Hw Hb.
  intros [= <-]. split; cbn [fst].
  - apply Forall_values_set; [apply Forall_values_set|]; auto.
    + now left.
    + now right.
  - unfold add_module. apply get_set_keep.
    rewrite get_set_other; [exact Hact|]. discriminate.
Qed.

Lemma build_net_modules layers s net s' :
  build_net noise act layers s = Ok (net, s') ->
  Forall (module_of act) (PyDict.values net)
  /\ PyDict.get "activation_1" net = Some act.
Proof.
  unfold build_net.
  destruct (py_index layers 0) as [l0|]; cbn [bind]; [|discriminate].
  destruct (py_index layers 1) as [l1|]; cbn [bind]; [|discriminate].
  fresh_layer (fresh_linear noise l0 l1 s) w bias s1 Hw Hb.
  destruct (for_each _ _ _) as [[net1 s2]|] eqn:Eloop; cbn [bind];
    [|discriminate].
  assert (B1 : built act (net1, s2)).
  { eapply for_each_invariant; [|
      |exact Eloop].
    - intros i st st'. apply hidden_step_built.
    - split; cbn [fst].
      + simpl. constructor; [now left|]. constructor; [now right|constructor].
      + reflexivity. }
  destruct B1 as [Hall Hact]. cbn [fst] in Hall, Hact.
  destruct (py_index layers (-2)) as [a|]; cbn [bind]; [|discriminate].
  destruct (py_index layers (-1)) as [b|]; cbn [bind]; [|discriminate].
  fresh_layer (fresh_linear noise a b s2) w' bias' s3 Hw' Hb'.
  intros [= <- <-]. split.
  - apply Forall_values_set; [assumption|now left].
  - unfold add_module. rewrite get_set_other; [exact Hact|]. discriminate.
Qed.

Lemma get_in_values (d : Sequential) k m :
  PyDict.get k d = Some m -> In m (PyDict.values d).
Proof.
  induction d as [|[k' m'] d IH]; simpl; [discriminate|].
  destruct (String.eqb k' k); [intros [= ->]; now left|].
  intros H. right. now apply IH.
Qed.

(** With an activation module [act], the activations of a built network
    are all [act], and there is at least one. *)
Lemma build_net_activations layers s net s' :
  is_affine (kind_of act) = false ->
  build_net noise act layers s = Ok (net, s') ->
  activations net <> []
  /\ Forall (eq (kind_of act)) (activations net).
Proof.
  intros Hact Hbuild.
  destruct (build_net_modules _ _ Hbuild) as [Hall Hget].
  split.
  - apply get_in_values in Hget.
    assert (Hin : In (kind_of act) (activations net)).
    { unfold activations. apply filter_In. split.
      - unfold architecture. now apply in_map.
      - now rewrite Hact. }
    intros E. rewrite E in Hin. exact Hin.
  - unfold activations, architecture.
    apply Forall_forall. intros k Hk.
    apply filter_In in Hk. destruct Hk as [Hk Hna].
    apply in_map_iff in Hk. destruct Hk as (m & <- & Hm).
    rewrite Forall_forall in Hall.
    destruct (Hall m Hm) as [Haff | ->]; [|reflexivity].
    rewrite Haff in Hna. discriminate.
Qed.
End BuiltModules.

Lemma fcn_module_fallback act_function :
  act_function <> "sin"%string -> fcn_module act_function = Tanh.
Proof.
  intros H. unfold fcn_module.
  destruct (String.eqb_spec act_function "sin"); [contradiction|reflexivity].
Qed.

Lemma parallel_module_fallback act_function :
  act_function <> "sin"%string -> act_function <> "sigmoid"%string ->
  parallel_module act_function = Tanh.
Proof.
  intros H1 H2. unfold parallel_module.
  destruct (String.eqb_spec act_function "sin"); [contradiction|].
  destruct (String.eqb_spec act_function "sigmoid"); [contradiction|reflexivity].
Qed.

Lemma fcn_module_kind act_function :
  kind_of (fcn_module act_function) = fcn_activation act_function
  /\ is_affine (fcn_activation act_function) = false.
Proof.
  unfold fcn_module, fcn_activation.
  destruct (String.eqb act_function "sin"); split; reflexivity.
Qed.

Lemma parallel_module_kind act_function :
  kind_of (parallel_module act_function) = parallel_activation act_function
  /\ is_affine (parallel_activation act_function) = false.
Proof.
  unfold parallel_module, parallel_activation.
  destruct (String.eqb act_function "sin");
    [|destruct (String.eqb act_function "sigmoid")]; split; reflexivity.
Qed.

(* ------------------------------------------------------------------ *)
(** ** Construction: number and order of the layers *)

(** C1, as stated, fails for two widths: [FCN.initalize_net] still builds
    an input layer and an output layer, that is two affine layers and not
    [len(layers) - 1 = 1]. *)
Lemma two_widths_build_two_affine_layers :
  exists net s',
    FCN.initalize_net zero_noise [3; 1] "sin" 0 = Ok (net, s')
    /\ architecture net = [Affine 3 1; SinAct; Affine 3 1]
    /\ length (affine_layers net) <> length [3; 1] - 1.
Proof.
  eexists. eexists. split; [reflexivity|]. split; [reflexivity|].
  simpl. discriminate.
Qed.

(** C1, amended to three widths or more (positive, as the widths of a
    layer spec are): [FCN.initalize_net] and [ParallelNet.initialize_net]
    succeed and build the stack of the specification, which has
    [len(layers) - 1] affine layers, the selected activation after each of
    them except the last, and nothing else. *)
Theorem initialize_net_layer_stack noise layers act_function s :
  3 <= length layers ->
  Forall (fun w => 0 < w) layers ->
  (exists net s',
      FCN.initalize_net noise layers act_function s = Ok (net, s')
      /\ architecture net = layer_stack (fcn_activation act_function) layers
      /\ length (affine_layers net) = length layers - 1
      /\ activations net
         = repeat (fcn_activation act_function) (length layers - 2))
  /\ (exists net s',
         ParallelNet.initialize_net noise layers act_function s = Ok (net, s')
         /\ architecture net
            = layer_stack (parallel_activation act_function) layers
         /\ length (affine_layers net) = length layers - 1
         /\ activations net
            = repeat (parallel_activation act_function) (length layers - 2)).
Proof.
  intros Hlen Hpos. split.
  - rewrite fcn_initalize_net_skeleton.
    destruct (@build_net_succeeds noise (fcn_module act_function) layers s)
      as (net & s' & E); [lia|exact Hpos|].
    pose proof (build_net_stack _ _ _ _ Hlen E) as A.
    destruct (fcn_module_kind act_function) as [K Hk]. rewrite K in A.
    exists net, s'. split; [exact E|]. split; [exact A|].
    unfold affine_layers, activations. rewrite A.
    split; [now apply layer_stack_affine|now apply layer_stack_activations].
  - rewrite parallel_initialize_net_skeleton.
    destruct (@build_net_succeeds noise (parallel_module act_function) layers s)
      as (net & s' & E); [lia|exact Hpos|].
    pose proof (build_net_stack _ _ _ _ Hlen E) as A.
    destruct (parallel_module_kind act_function) as [K Hk]. rewrite K in A.
    exists net, s'. split; [exact E|]. split; [exact A|].
    unfold affine_layers, activations. rewrite A.
    split; [now apply layer_stack_affine|now apply layer_stack_activations].
Qed.

Lemma initialize_net_layer_stack_witness :
  3 <= length [2; 4; 4; 1]
  /\ Forall (fun w => 0 < w) [2; 4; 4; 1]
  /\ exists net s',
       FCN.initalize_net zero_noise [2; 4; 4; 1] "sin" 0 = Ok (net, s')
       /\ architecture net
          = [Affine 2 4; SinAct; Affine 4 4; SinAct; Affine 4 1].
Proof.
  assert (Hpos : Forall (fun w => 0 < w) [2; 4; 4; 1])
    by (repeat constructor; lia).
  split; [simpl; lia|]. split; [exact Hpos|].
  destruct (@initialize_net_layer_stack zero_noise [2; 4; 4; 1] "sin" 0)
    as [(net & s' & E & A & _) _]; [simpl; lia|exact Hpos|].
  exists net, s'. split; [exact E|exact A].
Defined.

(* ------------------------------------------------------------------ *)
(** ** Construction: the activation an identifier selects *)

(** C2, as stated, fails: [FCN.initalize_net] compares the identifier with
    ["sin"] only, so ["sigmoid"] selects the hyperbolic tangent. *)
Lemma fcn_sigmoid_builds_tanh :
  exists net s',
    FCN.initalize_net zero_noise [2; 4; 1] "sigmoid" 0 = Ok (net, s')
    /\ activations net = [TanhAct]
    /\ ~ Forall (eq SigmoidAct) (activations net).
Proof.
  eexists. eexists. split; [reflexivity|]. split; [reflexivity|].
  intros H. inversion H as [|k l Hk Hl]. discriminate Hk.
Qed.

(** C2, amended: an FCN built with ["sigmoid"] is the FCN built with
    ["tanh"], and its activations are hyperbolic tangents; it is
    [ParallelNet.initialize_net] that selects the sigmoid for ["sigmoid"]. *)
Theorem sigmoid_selection noise layers s :
  FCN.initalize_net noise layers "sigmoid" s
  = FCN.initalize_net noise layers "tanh" s
  /\ (forall net s',
         FCN.initalize_net noise layers "sigmoid" s = Ok (net, s') ->
         activations net <> [] /\ Forall (eq TanhAct) (activations net))
  /\ (forall net s',
         ParallelNet.initialize_net noise layers "sigmoid" s = Ok (net, s') ->
         activations net <> [] /\ Forall (eq SigmoidAct) (activations net)).
Proof.
  split; [|split].
  - now rewrite !fcn_initalize_net_skeleton.
  - intros net s'. rewrite fcn_initalize_net_skeleton.
    apply (@build_net_activations noise Tanh). reflexivity.
  - intros net s'. rewrite parallel_initialize_net_skeleton.
    apply (@build_net_activations noise Sigmoid). reflexivity.
Qed.

Lemma sigmoid_selection_witness :
  exists net s',
    ParallelNet.initialize_net zero_noise [2; 4; 1] "sigmoid" 0 = Ok (net, s')
    /\ Forall (eq SigmoidAct) (activations net)
    /\ exists net' s'',
         FCN.initalize_net zero_noise [2; 4; 1] "sigmoid" 0 = Ok (net', s'')
         /\ Forall (eq TanhAct) (activations net').
Proof.
  destruct (@sigmoid_selection zero_noise [2; 4; 1] 0) as (_ & F & P).
  eexists. eexists. split; [reflexivity|]. split.
  - eapply P. reflexivity.
  - eexists. eexists. split; [reflexivity|]. eapply F. reflexivity.
Defined.

(** C6: an identifier outside ["sin"], ["sigmoid"], ["tanh"] builds the
    network that ["tanh"] builds, for FCN and for both sub-networks of
    ParallelNet, so the forward passes agree as well; the activations are
    hyperbolic tangents and no exception is raised for the identifier. *)
Theorem unknown_activation_is_tanh noise act_function :
  act_function <> "sin"%string ->
  act_function <> "sigmoid"%string ->
  act_function <> "tanh"%string ->
  (forall layers lb ub names discrete s,
      FCN.init noise layers lb ub names act_function discrete s
      = FCN.init noise layers lb ub names "tanh" discrete s)
  /\ (forall layers lb ub names discrete s spatial time,
         ('(self, _) <- FCN.init noise layers lb ub names act_function discrete s ;;
          FCN.forward self spatial time)
         = ('(self, _) <- FCN.init noise layers lb ub names "tanh" discrete s ;;
            FCN.forward self spatial time))
  /\ (forall layers s,
         ParallelNet.initialize_net noise layers act_function s
         = ParallelNet.initialize_net noise layers "tanh" s)
  /\ (forall layers1 layers2 lb ub names other s,
         ParallelNet.init noise layers1 layers2 lb ub names act_function other s
         = ParallelNet.init noise layers1 layers2 lb ub names "tanh" other s
         /\ ParallelNet.init noise layers1 layers2 lb ub names other act_function s
            = ParallelNet.init noise layers1 layers2 lb ub names other "tanh" s)
  /\ (forall layers s net s',
         FCN.initalize_net noise layers act_function s = Ok (net, s') ->
         Forall (eq TanhAct) (activations net))
  /\ (forall layers s net s',
         ParallelNet.initialize_net noise layers act_function s = Ok (net, s') ->
         Forall (eq TanhAct) (activations net)).
Proof.
  intros Hsin Hsig Htanh.
  assert (F : forall layers s,
             FCN.initalize_net noise layers act_function s
             = FCN.initalize_net noise layers "tanh" s).
  { intros. rewrite !fcn_initalize_net_skeleton.
    now rewrite fcn_module_fallback. }
  assert (P : forall layers s,
             ParallelNet.initialize_net noise layers act_function s
             = ParallelNet.initialize_net noise layers "tanh" s).
  { intros. rewrite !parallel_initialize_net_skeleton.
    now rewrite parallel_module_fallback. }
  assert (FI : forall layers lb ub names discrete s,
             FCN.init noise layers lb ub names act_function discrete s
             = FCN.init noise layers lb ub names "tanh" discrete s).
  { intros. unfold FCN.init. now rewrite F. }
  repeat split.
  - exact FI.
  - intros. now rewrite FI.
  - exact P.
  - unfold ParallelNet.init. now rewrite P.
  - unfold ParallelNet.init.
    destruct (ParallelNet.initialize_net noise layers1 other s) as [[m1 s1]|];
      cbn [bind]; [|reflexivity].
    now rewrite P.
  - intros layers s net s'. rewrite F, fcn_initalize_net_skeleton.
    intros H. now apply (@build_net_activations noise Tanh) in H.
  - intros layers s net s'. rewrite P, parallel_initialize_net_skeleton.
    intros H. now apply (@build_net_activations noise Tanh) in H.
Qed.

Lemma unknown_activation_is_tanh_witness :
  FCN.init zero_noise [2; 4; 1] [0; 0]%R [1; 1]%R ["u"%string] "bogus" false 0
  = FCN.init zero_noise [2; 4; 1] [0; 0]%R [1; 1]%R ["u"%string] "tanh" false 0.
Proof.
  apply (@unknown_activation_is_tanh zero_noise "bogus"); discriminate.
Defined.

(* ------------------------------------------------------------------ *)
(** ** Shapes: the final tensor has rows of the stored width *)

Lemma length_zip_with {A B C : Type} (f : A -> B -> C) (l : list A) (l' : list B) :
  length (zip_with f l l') = Nat.min (length l) (length l').
Proof.
  revert l'. induction l as [|a l IH]; intros [|b l']; simpl; auto.
Qed.

Lemma broadcast_wf (f : R -> R -> R) (z : Tensor) (v : list R) (z' : Tensor) :
  wf z -> broadcast f z v = Ok z' -> wf z'.
Proof.
  unfold wf, broadcast. intros Hz.
  destruct (Nat.eqb_spec (ncols z) (length v)) as [E|_].
  - intros [= <-]. cbn [rows ncols]. apply Forall_map.
    eapply Forall_impl; [|exact Hz]. intros r Hr. cbv beta in Hr |- *.
    rewrite length_zip_with. lia.
  - destruct (length v =? 1).
    + intros [= <-]. cbn [rows ncols]. apply Forall_map.
      eapply Forall_impl; [|exact Hz]. intros r Hr. cbv beta in Hr |- *.
      now rewrite length_map.
    + destruct (ncols z =? 1); [|discriminate].
      intros [= <-]. cbn [rows ncols]. apply Forall_map.
      apply Forall_forall. intros r _. apply length_map.
Qed.

Lemma tmap_wf (f : R -> R) (z : Tensor) : wf z -> wf (tmap f z).
Proof.
  unfold wf, tmap. cbn [rows ncols]. intros Hz. apply Forall_map.
  eapply Forall_impl; [|exact Hz]. intros r Hr. cbv beta in Hr |- *.
  now rewrite length_map.
Qed.

Lemma F_linear_wf (x w : Tensor) (b : list R) (z : Tensor) :
  F_linear x w b = Ok z -> wf z.
Proof.
  unfold F_linear. destruct (ncols x =? ncols w); [|discriminate].
  apply broadcast_wf. unfold wf. cbn [rows ncols].
  apply Forall_map, Forall_forall. intros r _. apply length_map.
Qed.

Lemma matmul_wf (h v z : Tensor) : matmul h v = Ok z -> wf z.
Proof.
  unfold matmul. destruct (ncols h =? nrows v); [|discriminate].
  intros [= <-]. unfold wf. cbn [rows ncols].
  apply Forall_map, Forall_forall. intros r _.
  now rewrite length_map, length_seq.
Qed.

Lemma cat2_wf (a b z : Tensor) : wf a -> wf b -> cat2 a b = Ok z -> wf z.
Proof.
  unfold wf, cat2. intros Ha Hb.
  destruct (nrows a =? nrows b); [|discriminate].
  intros [= <-]. cbn [rows ncols].
  revert Ha Hb. generalize (rows b). generalize (ncols b). generalize (ncols a).
  induction (rows a) as [|r ra IH]; intros ca cb rb Ha Hb; [constructor|].
  destruct rb as [|r' rb]; [constructor|].
  inversion Ha; inversion Hb; subst. cbn [zip_with]. constructor.
  - rewrite length_app. lia.
  - now apply IH.
Qed.

Lemma for_each_app {A S : Type} (xs ys : list A) (acc : S)
  (body : A -> S -> result S) :
  for_each (xs ++ ys) acc body
  = (acc' <- for_each xs acc body ;; for_each ys acc' body).
Proof.
  revert acc. induction xs as [|x xs IH]; intros acc; cbn [app for_each bind];
    [reflexivity|].
  destruct (body x acc) as [a|]; cbn [bind]; [apply IH|reflexivity].
Qed.

Lemma ends_affine_forward_wf (net : Sequential) (x z : Tensor) :
  ends_affine net -> Sequential_forward net x = Ok z -> wf z.
Proof.
  intros (ms & i & o & w & b & E). unfold Sequential_forward.
  rewrite E, for_each_app.
  destruct (for_each ms x module_forward) as [y|]; cbn [bind for_each];
    [|discriminate].
  cbn [module_forward].
  destruct (F_linear y w b) as [y'|] eqn:F; cbn [bind]; [|discriminate].
  intros [= <-]. eapply F_linear_wf, F.
Qed.

Lemma layer_step_affine self i W b g H :
  NetHFM.layer_step self i W b g H
  = (H' <- hfm_affine W b g H ;;
     if (Z.of_nat i <? Z.of_nat (NetHFM.num_layers self) - 2)%Z
     then Ok (tmap NetHFM.swish H')
     else Ok H').
Proof.
  unfold NetHFM.layer_step, hfm_affine.
  destruct (broadcast Rdiv W (norm_dim0 W)) as [V|]; cbn [bind]; [|reflexivity].
  destruct (matmul H V) as [HV|]; cbn [bind]; [|reflexivity].
  destruct (broadcast _ HV g) as [gH|]; cbn [bind]; reflexivity.
Qed.

Lemma layer_step_wf self i W b g H H' :
  NetHFM.layer_step self i W b g H = Ok H' -> wf H'.
Proof.
  rewrite layer_step_affine. unfold hfm_affine.
  destruct (broadcast Rdiv W (norm_dim0 W)) as [V|]; cbn [bind]; [|discriminate].
  destruct (matmul H V) as [HV|] eqn:M; cbn [bind]; [|discriminate].
  destruct (broadcast _ HV g) as [gH|] eqn:B1; cbn [bind]; [|discriminate].
  destruct (broadcast Rplus gH b) as [H1|] eqn:B2; cbn [bind]; [|discriminate].
  assert (W1 : wf H1).
  { eapply broadcast_wf; [|exact B2]. eapply broadcast_wf; [|exact B1].
    eapply matmul_wf, M. }
  destruct (_ <? _)%Z; intros [= <-]; [now apply tmap_wf|exact W1].
Qed.

Lemma layer_loop_wf self Ws : forall i bs gs H H',
  wf H -> NetHFM.layer_loop self i Ws bs gs H = Ok H' -> wf H'.
Proof.
  induction Ws as [|W Ws IH]; intros i bs gs H H' HH; cbn [NetHFM.layer_loop].
  - intros [= <-]. exact HH.
  - destruct bs as [|b bs]; [intros [= <-]; exact HH|].
    destruct gs as [|g gs]; [intros [= <-]; exact HH|].
    destruct (NetHFM.layer_step self i W b g H) as [H1|] eqn:E; cbn [bind];
      [|discriminate].
    apply IH. eapply layer_step_wf, E.
Qed.

(** The final tensor of a network with an affine output has rows of the
    stored width, whatever the inputs are. *)
Lemma affine_output_wf m spatial time z :
  affine_output m -> net_output m spatial time = Ok z -> wf z.
Proof.
  destruct m as [self|self|self]; cbn [affine_output net_output].
  - intros Hend. unfold FCN.network_output.
    destruct (FCN.network_input self spatial time) as [x|]; cbn [bind];
      [|discriminate].
    now apply ends_affine_forward_wf.
  - intros (Hw & Hb & Hg). unfold NetHFM.network_output.
    destruct (NetHFM.network_input self spatial time) as [H|]; cbn [bind];
      [|discriminate].
    destruct (NetHFM.weights self) as [|W Ws]; [contradiction|].
    destruct (NetHFM.biases self) as [|b bs]; [contradiction|].
    destruct (NetHFM.gammas self) as [|g gs]; [contradiction|].
    cbn [NetHFM.layer_loop].
    destruct (NetHFM.layer_step self 0 W b g H) as [H1|] eqn:E; cbn [bind];
      [|discriminate].
    apply layer_loop_wf. eapply layer_step_wf, E.
  - intros [H1 H2]. unfold ParallelNet.network_output, ParallelNet.branch_outputs.
    destruct (ParallelNet.branch_inputs self spatial time) as [[i1 i2]|];
      cbn [bind]; [|discriminate].
    destruct (Sequential_forward (ParallelNet.model1 self) i1) as [o1|] eqn:E1;
      cbn [bind]; [|discriminate].
    destruct (Sequential_forward (ParallelNet.model2 self) i2) as [o2|] eqn:E2;
      cbn [bind]; [|discriminate].
    unfold torch_cat, cat_onto.
    destruct (cat2 o1 (tmap torch_exp o2)) as [c|] eqn:C; cbn [bind];
      [|discriminate].
    intros [= <-]. eapply cat2_wf; [| |exact C].
    + exact (@ends_affine_forward_wf _ _ _ H1 E1).
    + apply tmap_wf. exact (@ends_affine_forward_wf _ _ _ H2 E2).
Qed.

(** The networks built from three widths or more end with an affine
    layer. *)
Lemma build_net_ends_affine noise act layers s net s' :
  3 <= length layers ->
  build_net noise act layers s = Ok (net, s') -> ends_affine net.
Proof.
  intros Hlen Hb.
  destruct (@build_net_spec noise act layers s net s' Hlen Hb) as [A _].
  unfold architecture in A. apply map_eq_app in A.
  destruct A as (ms & l2 & Hv & _ & Hl2).
  destruct l2 as [|m [|m' l2]]; try discriminate.
  injection Hl2 as Hm.
  destruct m as [i o w b| | |]; try discriminate.
  exists ms, i, o, w, b. exact Hv.
Qed.

Lemma fcn_init_affine_output noise layers lb ub names act_function discrete
  s self s' :
  3 <= length layers ->
  FCN.init noise layers lb ub names act_function discrete s = Ok (self, s') ->
  affine_output (OfFCN self).
Proof.
  intros Hlen. unfold FCN.init. rewrite fcn_initalize_net_skeleton.
  destruct (build_net _ _ _ _) as [[net s1]|] eqn:E; cbn [bind]; [|discriminate].
  intros [= <- _]. cbn [affine_output FCN.model].
  exact (@build_net_ends_affine _ _ _ _ _ _ Hlen E).
Qed.

Lemma parallel_init_affine_output noise layers1 layers2 lb ub names act1 act2
  s self s' :
  3 <= length layers1 -> 3 <= length layers2 ->
  ParallelNet.init noise layers1 layers2 lb ub names act1 act2 s = Ok (self, s') ->
  affine_output (OfParallelNet self).
Proof.
  intros Hlen1 Hlen2. unfold ParallelNet.init.
  rewrite parallel_initialize_net_skeleton.
  destruct (build_net _ _ layers1 _) as [[net1 s1]|] eqn:E1; cbn [bind];
    [|discriminate].
  rewrite parallel_initialize_net_skeleton.
  destruct (build_net _ _ layers2 _) as [[net2 s2]|] eqn:E2; cbn [bind];
    [|discriminate].
  intros [= <- _]. cbn [affine_output ParallelNet.model1 ParallelNet.model2].
  split.
  - exact (@build_net_ends_affine _ _ _ _ _ _ Hlen1 E1).
  - exact (@build_net_ends_affine _ _ _ _ _ _ Hlen2 E2).
Qed.

Lemma in_zip_with_app (r : list R) (l1 l2 : list (list R)) :
  In r (zip_with (@app R) l1 l2) ->
  exists r1 r2, In r1 l1 /\ In r2 l2 /\ r = r1 ++ r2.
Proof.
  revert l2. induction l1 as [|a l1 IH]; intros [|b l2]; cbn [zip_with In];
    try contradiction.
  intros [<-|Hin].
  - exists a, b. auto.
  - destruct (IH _ Hin) as (r1 & r2 & H1 & H2 & E). exists r1, r2. auto.
Qed.

(* ------------------------------------------------------------------ *)
(** ** Rescaling with the bounds *)



(** The rescaling of a tensor whose width is the length of the bounds. *)
Lemma rescale_same_width (z : Tensor) (lb ub : list R) :
  ncols z = length lb -> length ub = length lb ->
  rescale z lb ub
  = Ok (mkTensor (ncols z)
          (map (fun r =>
                  map (fun a => (a - 1)%R)
                    (zip_with Rdiv (map (fun a => (2 * a)%R) (zip_with Rminus r lb))
                       (zip_with Rminus ub lb)))
               (rows z))).
Proof.
  intros Hz Hub. unfold rescale, broadcast, vbroadcast.
  rewrite Hz, Hub, Nat.eqb_refl. cbn [bind tmap ncols rows].
  rewrite length_zip_with, Hub, Nat.min_id, Nat.eqb_refl. cbn [bind tmap ncols rows].
  unfold tmap. cbn [ncols rows]. rewrite !map_map. reflexivity.
Qed.

(** In continuous mode the input of an FCN is the concatenation of the
    spatial tensors and the time, rescaled with the whole bounds. *)
Lemma fcn_continuous_input self spatial time :
  FCN.discrete self = false ->
  1 <= length spatial <= 3 ->
  FCN.network_input self spatial time
  = (c <- torch_cat (spatial ++ [time]) ;;
     rescale c (FCN.lb self) (FCN.ub self)).
Proof.
  intros Hd Hlen. unfold FCN.network_input. rewrite Hd.
  destruct spatial as [|x [|y [|z [|w rest]]]]; simpl in Hlen; try lia;
    reflexivity.
Qed.







(* ------------------------------------------------------------------ *)
(** ** ParallelNet: the exponentiated branch *)

Lemma torch_cat_pair (a b z : Tensor) :
  torch_cat [a; b] = Ok z ->
  nrows a = nrows b
  /\ ncols z = ncols a + ncols b
  /\ rows z = zip_with (@app R) (rows a) (rows b).
Proof.
  unfold torch_cat, cat_onto, cat2.
  destruct (Nat.eqb_spec (nrows a) (nrows b)) as [E|_]; cbn [bind];
    [|discriminate].
  intros [= <-]. auto.
Qed.

Lemma exp_ge_pow2 (n : nat) : (2 ^ n <= exp (INR n))%R.
Proof.
  induction n as [|n IH].
  - simpl. rewrite exp_0. lra.
  - rewrite S_INR, exp_plus. cbn [pow].
    pose proof (exp_ineq1_le 1) as H1.
    pose proof (exp_pos (INR n)) as Hp.
    apply Rle_trans with (exp (INR n) * 2)%R; [lra|].
    apply Rmult_le_compat_l; lra.
Qed.

(** The float32 exponential of an argument of at most [-150] is [0.0]:
    [e^-150 <= 2^-150]. *)
Lemma torch_exp_underflow (x : R) : (x <= -150)%R -> torch_exp x = 0%R.
Proof.
  intros Hx. unfold torch_exp.
  destruct (Rle_dec (exp x) float32_underflow) as [_|Hn]; [reflexivity|].
  exfalso. apply Hn. unfold float32_underflow.
  apply Rle_trans with (exp (-150)).
  - destruct Hx as [Hlt| ->];
      [left; now apply exp_increasing|right; reflexivity].
  - replace (-150)%R with (- INR 150)%R
      by (rewrite INR_IZR_INZ, <- opp_IZR; reflexivity).
    rewrite exp_Ropp. apply Rinv_le_contravar; [apply pow_lt; lra|].
    apply exp_ge_pow2.
Qed.

Lemma torch_exp_nonneg (x : R) : (0 <= torch_exp x)%R.
Proof.
  unfold torch_exp.
  destruct (Rle_dec (exp x) float32_underflow); [lra|].
  left. apply exp_pos.
Qed.

(** What every forward pass of ParallelNet does guarantee: the rows of the
    final tensor are the rows of branch 1 followed by the rows of
    [exp(model2(z2))], and no entry of the latter is negative; for
    sub-networks that end with an affine layer these are the entries of
    the columns from index [ncols z1] on. *)
Lemma branch2_nonnegative self spatial time z :
  ParallelNet.network_output self spatial time = Ok z ->
  exists z1 z2,
    ParallelNet.branch_outputs self spatial time = Ok (z1, z2)
    /\ nrows z1 = nrows z2
    /\ ncols z = ncols z1 + ncols z2
    /\ rows z = zip_with (@app R) (rows z1) (rows z2)
    /\ Forall (Forall (fun v => (0 <= v)%R)) (rows z2)
    /\ (affine_output (OfParallelNet self) ->
        forall r j, In r (rows z) -> ncols z1 <= j < ncols z ->
                    (0 <= nth j r 0)%R).
Proof.
  intros Hz.
  unfold ParallelNet.network_output in Hz.
  destruct (ParallelNet.branch_outputs self spatial time) as [[z1 z2]|] eqn:Eb;
    cbn [bind] in Hz; [|discriminate].
  exists z1, z2. split; [reflexivity|].
  destruct (torch_cat_pair _ _ Hz) as (Hr & Hc & Hrows).
  repeat (split; [assumption|]).
  unfold ParallelNet.branch_outputs in Eb.
  destruct (ParallelNet.branch_inputs self spatial time) as [[i1 i2]|];
    cbn [bind] in Eb; [|discriminate].
  destruct (Sequential_forward (ParallelNet.model1 self) i1) as [o1|] eqn:E1;
    cbn [bind] in Eb; [|discriminate].
  destruct (Sequential_forward (ParallelNet.model2 self) i2) as [m2|] eqn:E2;
    cbn [bind] in Eb; [|discriminate].
  injection Eb as <- <-.
  assert (Hpos : Forall (Forall (fun v => (0 <= v)%R))
                   (rows (tmap torch_exp m2))).
  { unfold tmap. cbn [rows].
    apply Forall_map, Forall_forall. intros r _.
    apply Forall_map, Forall_forall. intros v _. apply torch_exp_nonneg. }
  split; [exact Hpos|].
  intros [H1 H2] r j Hin Hj.
  assert (W1 : wf o1) by exact (@ends_affine_forward_wf _ _ _ H1 E1).
  assert (W2 : wf (tmap torch_exp m2))
    by (apply tmap_wf; exact (@ends_affine_forward_wf _ _ _ H2 E2)).
  rewrite Hrows in Hin. apply in_zip_with_app in Hin.
  destruct Hin as (r1 & r2 & In1 & In2 & ->).
  unfold wf in W1, W2. rewrite Forall_forall in W1, W2, Hpos.
  pose proof (W1 _ In1) as L1. pose proof (W2 _ In2) as L2.
  pose proof (Hpos _ In2) as P2. rewrite Forall_forall in P2.
  rewrite app_nth2 by lia. apply P2, nth_In. lia.
Qed.

(** C9 does not hold of the code, although line 285 is commented
    [# enforcing positivity]: on the finite input [x = t = 0.5] the
    second sub-network of [underflow_net] returns [-150], whose float32
    exponential is [0.0], so the column [rho] of the mapping holds a
    zero, which is not strictly positive. *)
Theorem branch2_exp_underflow :
  exists z1 z2 d rho,
    ParallelNet.branch_outputs underflow_net [half] half = Ok (z1, z2)
    /\ z2 = mkTensor 1 [[0%R]]
    /\ ParallelNet.forward underflow_net [half] half = Ok d
    /\ PyDict.keys d = ["j"%string; "rho"%string]
    /\ PyDict.get "rho" d = Some rho
    /\ rho = mkTensor 1 [[0%R]]
    /\ ~ Forall (Forall (fun v => (0 < v)%R)) (rows rho).
Proof.
  eexists. eexists. eexists. eexists.
  match goal with
  | |- ?B /\ _ => assert (HB : B)
  end.
  { unfold ParallelNet.branch_outputs. cbn. unfold tmap. cbn [rows ncols map].
    rewrite torch_exp_underflow by lra. reflexivity. }
  split; [exact HB|]. split; [reflexivity|]. split.
  { unfold ParallelNet.forward, ParallelNet.network_output.
    rewrite HB. reflexivity. }
  split; [reflexivity|]. split; [reflexivity|]. split; [reflexivity|].
  cbn [rows]. intros H.
  inversion H as [|r l Hr _]. inversion Hr as [|v l' Hv _]. lra.
Qed.

(* ------------------------------------------------------------------ *)
(** ** ParallelNet: the inputs of the two branches *)

Lemma tmap_tmap (f g : R -> R) (z : Tensor) :
  tmap f (tmap g z) = tmap (fun a => f (g a)) z.
Proof.
  unfold tmap. cbn [ncols rows]. f_equal.
  rewrite map_map. apply map_ext. intros r. apply map_map.
Qed.

(** The second rescaling applies one scalar formula to every entry. *)
Lemma rescale0_entrywise (z : Tensor) (lb ub : list R) :
  rescale0 z lb ub
  = (l0 <- index0 lb ;;
     u0 <- index0 ub ;;
     Ok (tmap (fun a => (2 * (a - l0) / (u0 - l0) - 1)%R) z)).
Proof.
  unfold rescale0.
  destruct (index0 lb) as [l0|]; cbn [bind]; [|reflexivity].
  destruct (index0 ub) as [u0|]; cbn [bind]; [|reflexivity].
  now rewrite !tmap_tmap.
Qed.

(** C5: for one, two or three spatial tensors, branch 1 receives the
    concatenation of the spatial tensors and the time, rescaled with the
    whole bounds; branch 2 receives the concatenation of the spatial
    tensors alone, every entry of which is rescaled with the scalars
    [lb[0]] and [ub[0]]. *)
Theorem branch_inputs_by_arity self spatial time :
  1 <= length spatial <= 3 ->
  ParallelNet.branch_inputs self spatial time
  = (c1 <- torch_cat (spatial ++ [time]) ;;
     c2 <- torch_cat spatial ;;
     z1 <- rescale c1 (ParallelNet.lb self) (ParallelNet.ub self) ;;
     l0 <- index0 (ParallelNet.lb self) ;;
     u0 <- index0 (ParallelNet.ub self) ;;
     Ok (z1, tmap (fun a => (2 * (a - l0) / (u0 - l0) - 1)%R) c2)).
Proof.
  intros Hlen. unfold ParallelNet.branch_inputs.
  destruct spatial as [|x [|y [|z [|w rest]]]]; simpl in Hlen; try lia.
  - cbn [length Nat.eqb py_index unpack2 unpack3 bind app].
    change (py_index [x] 0) with (Ok x). cbn [bind].
    change (torch_cat [x]) with (Ok x).
    destruct (torch_cat [x; time]) as [c1|]; cbn [bind]; [|reflexivity].
    destruct (rescale c1 _ _) as [z1|]; cbn [bind]; [|reflexivity].
    rewrite rescale0_entrywise.
    destruct (index0 (ParallelNet.lb self)); cbn [bind]; [|reflexivity].
    destruct (index0 (ParallelNet.ub self)); reflexivity.
  - cbn [length Nat.eqb unpack2 bind app].
    destruct (torch_cat [x; y; time]) as [c1|]; cbn [bind]; [|reflexivity].
    destruct (torch_cat [x; y]) as [c2|]; cbn [bind]; [|reflexivity].
    destruct (rescale c1 _ _) as [z1|]; cbn [bind]; [|reflexivity].
    rewrite rescale0_entrywise.
    destruct (index0 (ParallelNet.lb self)); cbn [bind]; [|reflexivity].
    destruct (index0 (ParallelNet.ub self)); reflexivity.
  - cbn [length Nat.eqb unpack3 bind app].
    destruct (torch_cat [x; y; z; time]) as [c1|]; cbn [bind]; [|reflexivity].
    destruct (torch_cat [x; y; z]) as [c2|]; cbn [bind]; [|reflexivity].
    destruct (rescale c1 _ _) as [z1|]; cbn [bind]; [|reflexivity].
    rewrite rescale0_entrywise.
    destruct (index0 (ParallelNet.lb self)); cbn [bind]; [|reflexivity].
    destruct (index0 (ParallelNet.ub self)); reflexivity.
Qed.

Lemma branch_inputs_by_arity_witness :
  exists self s,
    ParallelNet.init zero_noise [3; 2; 1] [2; 2; 1] [0; 0; 0]%R [1; 2; 1]%R
      ["j"%string; "rho"%string] "sin" "sin" 0 = Ok (self, s)
    /\ 1 <= length [half; half] <= 3
    /\ exists z1 z2,
         ParallelNet.branch_inputs self [half; half] half = Ok (z1, z2)
         /\ ncols z1 = 3
         /\ rows z2
            = [[(2 * (1 / 2 - 0) / (1 - 0) - 1)%R;
                (2 * (1 / 2 - 0) / (1 - 0) - 1)%R]].
Proof.
  eexists. eexists. split; [reflexivity|]. split; [simpl; lia|].
  rewrite branch_inputs_by_arity by (simpl; lia).
  eexists. eexists. split; [reflexivity|]. split; reflexivity.
Defined.

(* ------------------------------------------------------------------ *)
(** ** FCN: discrete mode *)

Lemma get_shared_dict (z : Tensor) (names : list string) (name : string) :
  PyDict.get name (shared_dict z names)
  = if in_dec string_dec name names then Some z else None.
Proof.
  unfold shared_dict. rewrite get_comprehend.
  destruct (in_dec string_dec name names) as [Hin|Hnin].
  - destruct (last_occurrence_in _ _ Hin) as [i ->]. reflexivity.
  - destruct (last_occurrence name names) as [i|] eqn:E; [|reflexivity].
    exfalso. apply Hnin.
    destruct (last_occurrence_nth _ _ E) as [Hn _].
    eapply nth_error_In, Hn.
Qed.

(** C4: in discrete mode the network input is the concatenation of the
    spatial tensors alone (the first one when there are not two or three),
    rescaled with [lb[:-1]] and [ub[:-1]]; the time tensor and the last
    entry of each bound have no effect on the result; and every output
    name is bound to the whole final tensor. *)
Theorem discrete_forward self spatial time :
  FCN.discrete self = true ->
  FCN.network_input self spatial time
  = (z <- (if (length spatial =? 2) || (length spatial =? 3)
           then torch_cat spatial
           else py_index spatial 0) ;;
     rescale z (drop_last (FCN.lb self)) (drop_last (FCN.ub self)))
  /\ (forall time', FCN.forward self spatial time' = FCN.forward self spatial time)
  /\ (forall l u,
         FCN.forward
           (FCN.mk (FCN.model self) (drop_last (FCN.lb self) ++ [l])
              (drop_last (FCN.ub self) ++ [u]) (FCN.output_names self) true)
           spatial time
         = FCN.forward self spatial time)
  /\ (forall z,
         FCN.network_output self spatial time = Ok z ->
         exists d,
           FCN.forward self spatial time = Ok d
           /\ (forall name, In name (FCN.output_names self) ->
                            PyDict.get name d = Some z)
           /\ (forall name v, PyDict.get name d = Some v -> v = z)).
Proof.
  intros Hd.
  assert (Hin : forall t, FCN.network_input self spatial t
      = (z <- (if (length spatial =? 2) || (length spatial =? 3)
               then torch_cat spatial
               else py_index spatial 0) ;;
         rescale z (drop_last (FCN.lb self)) (drop_last (FCN.ub self)))).
  { intros t. unfold FCN.network_input. rewrite Hd.
    destruct spatial as [|x [|y [|z [|w rest]]]]; reflexivity. }
  split; [apply Hin|]. split; [|split].
  - intros time'. unfold FCN.forward, FCN.network_output.
    now rewrite !Hin.
  - intros l u. unfold FCN.forward, FCN.network_output.
    rewrite Hin. unfold FCN.network_input.
    cbn [FCN.discrete FCN.lb FCN.ub FCN.model FCN.output_names].
    unfold drop_last. rewrite !removelast_last. rewrite Hd.
    destruct spatial as [|x [|y [|z [|w rest]]]]; reflexivity.
  - intros z Hz. unfold FCN.forward. rewrite Hz, Hd. cbn [bind].
    eexists. split; [reflexivity|]. split.
    + intros name Hname. rewrite get_shared_dict.
      destruct (in_dec string_dec name (FCN.output_names self)); tauto.
    + intros name v. rewrite get_shared_dict.
      destruct (in_dec string_dec name (FCN.output_names self));
        congruence.
Qed.

Lemma discrete_forward_witness :
  exists self s,
    FCN.init zero_noise [2; 2; 3] [0; 0; 7]%R [1; 1; 9]%R
      ["u"%string; "v"%string] "sin" true 0 = Ok (self, s)
    /\ exists z d,
         FCN.network_output self [half; half] half = Ok z
         /\ FCN.forward self [half; half] half = Ok d
         /\ PyDict.get "u" d = Some z
         /\ PyDict.get "v" d = Some z
         /\ ncols z = 3.
Proof.
  eexists. eexists. split; [reflexivity|].
  eexists.
  match goal with
  | |- exists d, ?O /\ _ => assert (HO : O) by reflexivity
  end.
  match type of HO with
  | FCN.network_output ?self _ _ = _ =>
      destruct (@discrete_forward self [half; half] half eq_refl)
        as (_ & _ & _ & D)
  end.
  destruct (D _ HO) as (d & F & G & _).
  exists d. split; [exact HO|]. split; [exact F|].
  split; [apply G; simpl; auto|]. split; [apply G; simpl; auto|].
  reflexivity.
Defined.

(* ------------------------------------------------------------------ *)
(** ** NetHFM: the loop over the layers *)

(** When the last layer has index [num_layers - 2], the loop is the stack
    of the specification. *)
Lemma layer_loop_stack self Ws : forall i bs gs H,
  length bs = length Ws -> length gs = length Ws ->
  Ws = [] \/ Z.of_nat (i + length Ws) = (Z.of_nat (NetHFM.num_layers self) - 1)%Z ->
  NetHFM.layer_loop self i Ws bs gs H = hfm_stack Ws bs gs H.
Proof.
  induction Ws as [|W Ws IH]; intros i bs gs H Hb Hg Hlast; [reflexivity|].
  destruct bs as [|b bs]; [discriminate|].
  destruct gs as [|g gs]; [discriminate|].
  destruct Hlast as [Hnil|Hlast]; [discriminate|].
  cbn [NetHFM.layer_loop hfm_stack]. rewrite layer_step_affine.
  destruct (hfm_affine W b g H) as [H'|]; cbn [bind]; [|reflexivity].
  simpl in Hb, Hg, Hlast.
  destruct Ws as [|W' Ws'].
  - destruct (Z.ltb_spec (Z.of_nat i) (Z.of_nat (NetHFM.num_layers self) - 2))
      as [Hlt|_]; [simpl in Hlast; lia|].
    cbn [bind]. reflexivity.
  - destruct (Z.ltb_spec (Z.of_nat i) (Z.of_nat (NetHFM.num_layers self) - 2))
      as [_|Hge]; [|simpl in Hlast; lia].
    cbn [bind]. apply IH; [lia|lia|].
    right. simpl in Hlast |- *. lia.
Qed.

Lemma hfm_param_loop noise layers m : forall a ws bs gs s,
  m = 0 \/ a + m < length layers ->
  exists ws' bs' gs' s',
    for_each (map Z.of_nat (seq a m)) (ws, bs, gs, s)
      (hfm_param_step noise layers)
    = Ok (ws ++ ws', bs ++ bs', gs ++ gs', s')
    /\ length ws' = m /\ length bs' = m /\ length gs' = m.
Proof.
  induction m as [|m IH]; intros a ws bs gs s Hm; cbn [seq map for_each].
  - exists [], [], [], s. rewrite !app_nil_r. auto.
  - destruct Hm as [Hm|Hm]; [discriminate|].
    unfold hfm_param_step at 1.
    rewrite (py_index_nat layers 0) by lia. cbn [bind].
    replace (Z.of_nat a + 1)%Z with (Z.of_nat (S a)) by lia.
    rewrite (py_index_nat layers 0) by lia. cbn [bind].
    unfold draw. cbv beta iota zeta. cbn [bind].
    edestruct (IH (S a)) as (ws' & bs' & gs' & s' & E & Hw & Hb & Hg);
      [right; lia|].
    rewrite E. clear E.
    eexists (_ :: ws'), (_ :: bs'), (_ :: gs'), s'.
    rewrite <- !app_assoc. cbn [app length].
    split; [reflexivity|]. auto.
Qed.

(** [NetHFM.init] never raises, and fixes the lengths of the parameter
    lists. *)
Lemma hfm_init_shape noise mean std layers names s :
  exists self s',
    NetHFM.init noise mean std layers names s = Ok (self, s')
    /\ hfm_shape self.
Proof.
  unfold NetHFM.init, NetHFM.initalize_net.
  change (for_each (py_range 0 (Z.of_nat (length layers) - 1)) ([], [], [], s) _)
    with (for_each (py_range 0 (Z.of_nat (length layers) - 1))
            (@nil Tensor, @nil (list R), @nil (list R), s)
            (hfm_param_step noise layers)).
  assert (R : py_range 0 (Z.of_nat (length layers) - 1)
              = map Z.of_nat (seq 0 (length layers - 1))).
  { destruct layers as [|l layers]; [reflexivity|].
    change 0%Z with (Z.of_nat 0).
    replace (Z.of_nat (length (l :: layers)) - 1)%Z
      with (Z.of_nat (length (l :: layers) - 1)) by (cbn [length]; lia).
    rewrite py_range_nat. now rewrite Nat.sub_0_r. }
  rewrite R.
  destruct (@hfm_param_loop noise layers (length layers - 1) 0 [] [] [] s)
    as (ws & bs & gs & s' & E & Hw & Hb & Hg).
  { destruct layers as [|l [|l' layers]]; simpl; [left|left|right]; lia. }
  rewrite E. cbn [bind app].
  eexists. eexists. split; [reflexivity|].
  unfold hfm_shape. cbn [NetHFM.weights NetHFM.biases NetHFM.gammas NetHFM.num_layers].
  lia.
Qed.

(** C8: the input is standardised as [(H - X_mean) / X_std]; then, for a
    network whose parameter lists have the lengths [NetHFM.init] gives
    them, the loop applies [H = g * (H @ (W / ||W||)) + b] layer by layer,
    followed by [H * sigmoid(H)] for every layer but the last: exactly the
    layers of index [i < num_layers - 2], the last transform staying
    linear. *)
Theorem hfm_forward_layers self spatial time :
  hfm_shape self ->
  NetHFM.network_output self spatial time
  = (H <- NetHFM.network_input self spatial time ;;
     hfm_stack (NetHFM.weights self) (NetHFM.biases self) (NetHFM.gammas self) H)
  /\ (1 <= length spatial <= 3 ->
      NetHFM.network_input self spatial time
      = (H <- torch_cat (spatial ++ [time]) ;;
         d <- broadcast Rminus H (NetHFM.X_mean self) ;;
         broadcast Rdiv d (NetHFM.X_std self)))
  /\ (forall i W b g H,
         NetHFM.layer_step self i W b g H
         = (H' <- hfm_affine W b g H ;;
            if (Z.of_nat i <? Z.of_nat (NetHFM.num_layers self) - 2)%Z
            then Ok (tmap (fun h => (h * sigmoid h)%R) H')
            else Ok H'))
  /\ (forall i W b g H,
         Z.of_nat i = (Z.of_nat (length (NetHFM.weights self)) - 1)%Z ->
         NetHFM.layer_step self i W b g H = hfm_affine W b g H).
Proof.
  intros (Hw & Hb & Hg). split; [|split; [|split]].
  - unfold NetHFM.network_output.
    destruct (NetHFM.network_input self spatial time) as [H|]; cbn [bind];
      [|reflexivity].
    apply layer_loop_stack; [assumption|assumption|].
    destruct (NetHFM.weights self) as [|W Ws]; [now left|right].
    simpl in Hw |- *. lia.
  - intros Hlen. unfold NetHFM.network_input.
    destruct spatial as [|x [|y [|z [|w rest]]]]; simpl in Hlen; try lia;
      reflexivity.
  - intros. apply layer_step_affine.
  - intros i W b g H Hi. rewrite layer_step_affine.
    destruct (hfm_affine W b g H) as [H'|]; cbn [bind]; [|reflexivity].
    destruct (Z.ltb_spec (Z.of_nat i) (Z.of_nat (NetHFM.num_layers self) - 2))
      as [Hlt|_]; [lia|reflexivity].
Qed.

Lemma hfm_forward_layers_witness :
  exists self s,
    NetHFM.init zero_noise [0; 0]%R [1; 1]%R [2; 3; 1] ["u"%string] 0
    = Ok (self, s)
    /\ hfm_shape self
    /\ NetHFM.network_output self [half] half
       = (H <- NetHFM.network_input self [half] half ;;
          hfm_stack (NetHFM.weights self) (NetHFM.biases self)
            (NetHFM.gammas self) H).
Proof.
  destruct (hfm_init_shape zero_noise [0; 0]%R [1; 1]%R [2; 3; 1] ["u"%string] 0)
    as (self & s & E & HS).
  exists self, s. split; [exact E|]. split; [exact HS|].
  exact (proj1 (@hfm_forward_layers _ [half] half HS)).
Defined.

(* ------------------------------------------------------------------ *)
(** ** The mapping from output names to columns *)

Lemma net_forward_columns m spatial time z :
  slices_columns m = true ->
  net_output m spatial time = Ok z ->
  net_forward m spatial time = Ok (column_dict z (net_output_names m)).
Proof.
  destruct m as [self|self|self]; cbn [slices_columns net_output net_forward
                                        net_output_names]; intros Hs Hz.
  - unfold FCN.forward. rewrite Hz. cbn [bind].
    destruct (FCN.discrete self); [discriminate|reflexivity].
  - unfold NetHFM.forward. now rewrite Hz.
  - unfold ParallelNet.forward. now rewrite Hz.
Qed.

Lemma get_column_dict (z : Tensor) (names : list string) (name : string) :
  PyDict.get name (column_dict z names)
  = match last_occurrence name names with
    | Some i => Some (slice_cols z i (i + 1))
    | None => None
    end.
Proof.
  unfold column_dict. rewrite get_comprehend. reflexivity.
Qed.

Lemma last_occurrence_bound name names i :
  last_occurrence name names = Some i -> i < length names.
Proof.
  intros H. apply last_occurrence_nth in H. destruct H as [H _].
  apply nth_error_Some. congruence.
Qed.

Lemma firstn_1_skipn {A : Type} (d : A) (r : list A) : forall i,
  i < length r -> firstn 1 (skipn i r) = [nth i r d].
Proof.
  induction r as [|a r IH]; intros i Hi; [simpl in Hi; lia|].
  destruct i as [|i]; [reflexivity|]. simpl. apply IH. simpl in Hi. lia.
Qed.

(** A slice of one column inside the tensor, and one outside of it. *)
Lemma slice_cols_inside (z : Tensor) (i : nat) :
  wf z -> i < ncols z ->
  slice_cols z i (i + 1) = mkTensor 1 (map (fun r => [nth i r 0%R]) (rows z)).
Proof.
  intros Hwf Hi. unfold slice_cols.
  replace (i + 1 - i) with 1 by lia.
  replace (Nat.min (i + 1) (ncols z) - Nat.min i (ncols z)) with 1 by lia.
  f_equal. apply map_ext_in. intros r Hr.
  apply firstn_1_skipn.
  unfold wf in Hwf. rewrite Forall_forall in Hwf. rewrite (Hwf r Hr). exact Hi.
Qed.

Lemma slice_cols_outside (z : Tensor) (i : nat) :
  wf z -> ncols z <= i ->
  slice_cols z i (i + 1) = mkTensor 0 (map (fun _ => []) (rows z)).
Proof.
  intros Hwf Hi. unfold slice_cols.
  replace (Nat.min (i + 1) (ncols z) - Nat.min i (ncols z)) with 0 by lia.
  f_equal. apply map_ext_in. intros r Hr.
  unfold wf in Hwf. rewrite Forall_forall in Hwf.
  rewrite skipn_all2 by (rewrite (Hwf r Hr); exact Hi).
  apply firstn_nil.
Qed.

(** C3, as stated, fails: with a final layer of width 1 and three output
    names, the continuous-mode forward pass of an FCN returns a mapping;
    the names without a column are bound to empty [1 x 0] slices. *)
Lemma more_names_than_columns_returns :
  exists self s z d,
    FCN.init zero_noise [2; 2; 1] [0; 0]%R [1; 1]%R
      ["u"%string; "v"%string; "w"%string] "tanh" false 0 = Ok (self, s)
    /\ FCN.network_output self [half] half = Ok z
    /\ ncols z = 1
    /\ ncols z <> length (FCN.output_names self)
    /\ FCN.forward self [half] half = Ok d
    /\ PyDict.keys d = ["u"%string; "v"%string; "w"%string]
    /\ PyDict.get "v" d = Some (mkTensor 0 [[]])
    /\ PyDict.get "w" d = Some (mkTensor 0 [[]]).
Proof.
  eexists. eexists. eexists. eexists.
  split; [reflexivity|]. split; [reflexivity|]. split; [reflexivity|].
  split; [discriminate|]. split; [reflexivity|].
  split; [reflexivity|]. split; reflexivity.
Qed.

(** C3, amended: when the forward pass slices columns (an FCN in
    continuous mode, NetHFM, ParallelNet) and the network has produced its
    final tensor, [forward] returns a mapping whatever the width of that
    tensor and the number of names are: a name of index [i] is bound to
    column [i] when [i] is below the width and to an empty [batch x 0]
    slice otherwise, and the columns of index [len(output_names)] and above
    are not returned. *)
Theorem width_mismatch_returns_slices m spatial time z :
  slices_columns m = true ->
  net_output m spatial time = Ok z ->
  wf z ->
  exists d,
    net_forward m spatial time = Ok d
    /\ (forall name i,
           last_occurrence name (net_output_names m) = Some i ->
           PyDict.get name d = Some (slice_cols z i (i + 1))
           /\ (i < ncols z ->
               slice_cols z i (i + 1)
               = mkTensor 1 (map (fun r => [nth i r 0%R]) (rows z)))
           /\ (ncols z <= i ->
               slice_cols z i (i + 1) = mkTensor 0 (map (fun _ => []) (rows z))))
    /\ (forall name v,
           PyDict.get name d = Some v ->
           exists i, i < length (net_output_names m)
                     /\ v = slice_cols z i (i + 1))
    /\ (NoDup (net_output_names m) -> PyDict.keys d = net_output_names m).
Proof.
  intros Hs Hz Hwf.
  exists (column_dict z (net_output_names m)).
  split; [now apply net_forward_columns|].
  split; [|split; [|intros Hnd; apply (keys_comprehend_NoDup _ _ _ PyDict.empty Hnd)]].
  - intros name i Hi. rewrite get_column_dict, Hi.
    split; [reflexivity|]. split.
    + now apply slice_cols_inside.
    + now apply slice_cols_outside.
  - intros name v. rewrite get_column_dict.
    destruct (last_occurrence name (net_output_names m)) as [i|] eqn:E;
      [|discriminate].
    intros [= <-]. exists i. split; [|reflexivity].
    eapply last_occurrence_bound, E.
Qed.

Lemma width_mismatch_returns_slices_witness :
  exists self s z,
    FCN.init zero_noise [2; 2; 1] [0; 0]%R [1; 1]%R
      ["u"%string; "v"%string] "tanh" false 0 = Ok (self, s)
    /\ FCN.network_output self [half] half = Ok z
    /\ exists d,
         FCN.forward self [half] half = Ok d
         /\ PyDict.get "v" d = Some (mkTensor 0 [[]]).
Proof.
  eexists. eexists. eexists.
  match goal with
  | |- ?I /\ _ => assert (HI : I) by reflexivity
  end.
  split; [exact HI|].
  match goal with
  | |- ?O /\ _ => assert (HO : O) by reflexivity
  end.
  split; [exact HO|].
  match type of HO with
  | FCN.network_output ?self _ _ = Ok ?z =>
      assert (Ha : affine_output (OfFCN self))
        by (eapply fcn_init_affine_output; [|exact HI]; simpl; lia);
      assert (Hwf : wf z)
        by exact (@affine_output_wf (OfFCN self) [half] half z Ha HO);
      destruct (@width_mismatch_returns_slices (OfFCN self) [half] half z
                  eq_refl HO Hwf) as (d & F & G & _)
  end.
  exists d. split; [exact F|].
  destruct (G "v"%string 1 eq_refl) as (Hget & _ & Hout).
  rewrite Hget, Hout by (cbn; lia). reflexivity.
Defined.

Lemma net_forward_shared m spatial time z :
  slices_columns m = false ->
  net_output m spatial time = Ok z ->
  net_forward m spatial time = Ok (shared_dict z (net_output_names m)).
Proof.
  destruct m as [self|self|self]; cbn [slices_columns net_output net_forward
                                        net_output_names]; intros Hs Hz;
    try discriminate.
  unfold FCN.forward. rewrite Hz. cbn [bind].
  destruct (FCN.discrete self); [reflexivity|discriminate].
Qed.

(** C10, as stated, fails for an FCN in discrete mode: with the name [u]
    given twice, [u] is bound to the whole final tensor of width 2 and not
    to the slice of index 1. *)
Lemma discrete_repeated_name_whole_tensor :
  exists self s z d,
    FCN.init zero_noise [1; 2; 2] [0; 0]%R [1; 1]%R
      ["u"%string; "u"%string] "sin" true 0 = Ok (self, s)
    /\ FCN.network_output self [half] half = Ok z
    /\ FCN.forward self [half] half = Ok d
    /\ last_occurrence "u" (FCN.output_names self) = Some 1
    /\ PyDict.get "u" d = Some z
    /\ ncols z = 2
    /\ PyDict.get "u" d <> Some (slice_cols z 1 (1 + 1)).
Proof.
  eexists. eexists. eexists. eexists.
  split; [reflexivity|]. split; [reflexivity|]. split; [reflexivity|].
  split; [reflexivity|]. split; [reflexivity|]. split; [reflexivity|].
  intros H. apply (f_equal (option_map ncols)) in H. discriminate H.
Qed.

(** C10, amended: when two positions [i < j] of [output_names] hold the
    same name and the network has produced its final tensor, [forward]
    returns a mapping with fewer entries than there are names, and nothing
    is raised on account of the repetition.  Where [forward] slices columns
    (an FCN in continuous mode, NetHFM, ParallelNet) the name is bound to
    the slice at the index [k >= j] of its last occurrence, and every entry
    is the slice at the last occurrence of its name, so that no entry is
    the slice of index [i].  An FCN in discrete mode binds every name to
    the whole final tensor. *)
Theorem repeated_name_keeps_last m spatial time z name i j :
  i < j ->
  nth_error (net_output_names m) i = Some name ->
  nth_error (net_output_names m) j = Some name ->
  net_output m spatial time = Ok z ->
  exists d k,
    net_forward m spatial time = Ok d
    /\ PyDict.len d < length (net_output_names m)
    /\ last_occurrence name (net_output_names m) = Some k
    /\ j <= k
    /\ (slices_columns m = true ->
        PyDict.get name d = Some (slice_cols z k (k + 1))
        /\ (forall name' v,
               PyDict.get name' d = Some v ->
               exists k', last_occurrence name' (net_output_names m) = Some k'
                          /\ k' <> i
                          /\ v = slice_cols z k' (k' + 1)))
    /\ (slices_columns m = false ->
        forall name', In name' (net_output_names m) ->
                      PyDict.get name' d = Some z).
Proof.
  intros Hij Hi Hj Hz.
  set (names := net_output_names m) in *.
  assert (Hin : In name names) by (eapply nth_error_In; eauto).
  destruct (last_occurrence_in _ _ Hin) as [k Hk].
  destruct (last_occurrence_nth _ _ Hk) as [Hnk Hlast].
  assert (Hjk : j <= k).
  { destruct (Nat.le_gt_cases j k) as [H|H]; [exact H|].
    exfalso. exact (Hlast j H Hj). }
  assert (Hdup : ~ NoDup names).
  { intros Hnd. rewrite NoDup_nth_error in Hnd.
    assert (Hlt : i < length names) by (apply nth_error_Some; congruence).
    specialize (Hnd i j Hlt). rewrite Hi, Hj in Hnd.
    specialize (Hnd eq_refl). lia. }
  destruct (slices_columns m) eqn:Hs.
  - exists (column_dict z names), k.
    split; [now apply net_forward_columns|].
    split; [now apply len_comprehend_dup|].
    split; [exact Hk|]. split; [exact Hjk|]. split; [|discriminate].
    intros _. split.
    + rewrite get_column_dict, Hk. reflexivity.
    + intros name' v. rewrite get_column_dict.
      destruct (last_occurrence name' names) as [k'|] eqn:E; [|discriminate].
      intros [= <-]. exists k'. split; [reflexivity|]. split; [|reflexivity].
      intros ->. destruct (last_occurrence_nth _ _ E) as [Hn' Hl'].
      rewrite Hi in Hn'. injection Hn' as <-.
      exact (Hl' j Hij Hj).
  - exists (shared_dict z names), k.
    split; [now apply net_forward_shared|].
    split; [now apply len_comprehend_dup|].
    split; [exact Hk|]. split; [exact Hjk|]. split; [discriminate|].
    intros _ name' Hn'. rewrite get_shared_dict.
    destruct (in_dec string_dec name' names); [reflexivity|contradiction].
Qed.

Lemma repeated_name_keeps_last_witness :
  exists self s z,
    ParallelNet.init zero_noise [2; 2; 1] [1; 2; 1] [0; 0]%R [1; 1]%R
      ["rho"%string; "rho"%string] "sin" "sin" 0 = Ok (self, s)
    /\ ParallelNet.network_output self [half] half = Ok z
    /\ exists d,
         ParallelNet.forward self [half] half = Ok d
         /\ PyDict.len d < 2
         /\ PyDict.get "rho" d = Some (slice_cols z 1 2).
Proof.
  eexists. eexists. eexists. split; [reflexivity|].
  match goal with
  | |- ?O /\ _ => assert (HO : O) by reflexivity
  end.
  split; [exact HO|].
  match type of HO with
  | ParallelNet.network_output ?self _ _ = Ok ?z =>
      destruct (@repeated_name_keeps_last (OfParallelNet self) [half] half z
                  "rho"%string 0 1 ltac:(lia) eq_refl eq_refl HO)
        as (d & k & F & L & K & _ & G & _)
  end.
  exists d. split; [exact F|]. split; [exact L|].
  cbn in K. injection K as <-. exact (proj1 (G eq_refl)).
Defined.

(* ------------------------------------------------------------------ *)
(** ** Shapes of the parameters and of the tensors in a forward pass *)

Lemma hidden_step_shaped noise act layers i st st' :
  well_shaped act ->
  Forall well_shaped (PyDict.values (fst st)) ->
  hidden_step noise act layers i st = Ok st' ->
  Forall well_shaped (PyDict.values (fst st')).
Proof.
  destruct st as [net s]. intros Hact Hall. unfold hidden_step.
  destruct (py_index layers i) as [a|]; cbn [bind]; [|discriminate].
  destruct (py_index layers (i + 1)) as [b|]; cbn [bind]; [|discriminate].
  fresh_layer (fresh_linear noise a b s) w bias s1 Hw Hb.
  intros [= <-]. cbn [fst] in *.
  apply Forall_values_set; [apply Forall_values_set|]; auto.
  split; assumption.
Qed.

Lemma hidden_loop_shaped noise act layers xs : forall st st',
  well_shaped act ->
  Forall well_shaped (PyDict.values (fst st)) ->
  for_each xs st (hidden_step noise act layers) = Ok st' ->
  Forall well_shaped (PyDict.values (fst st')).
Proof.
  induction xs as [|i xs IH]; intros st st' Hact Hall; cbn [for_each].
  - intros [= <-]. exact Hall.
  - destruct (hidden_step noise act layers i st) as [st1|] eqn:E; cbn [bind];
      [|discriminate].
    apply IH; [exact Hact|]. eapply hidden_step_shaped; eassumption.
Qed.

(** Every module of a built network is well shaped. *)
Lemma build_net_shaped noise act layers s net s' :
  well_shaped act ->
  build_net noise act layers s = Ok (net, s') ->
  Forall well_shaped (PyDict.values net).
Proof.
  intros Hact. unfold build_net.
  destruct (py_index layers 0) as [l0|]; cbn [bind]; [|discriminate].
  destruct (py_index layers 1) as [l1|]; cbn [bind]; [|discriminate].
  fresh_layer (fresh_linear noise l0 l1 s) w bias s1 Hw Hb.
  destruct (for_each _ _ _) as [[net1 s2]|] eqn:Eloop; cbn [bind];
    [|discriminate].
  assert (B1 : Forall well_shaped (PyDict.values (fst (net1, s2)))).
  { eapply hidden_loop_shaped; [exact Hact| |exact Eloop].
    cbn. constructor; [split; assumption|].
    constructor; [assumption|constructor]. }
  cbn [fst] in B1.
  destruct (py_index layers (-2)) as [a|]; cbn [bind]; [|discriminate].
  destruct (py_index layers (-1)) as [b|]; cbn [bind]; [|discriminate].
  fresh_layer (fresh_linear noise a b s2) w' bias' s3 Hw' Hb'.
  intros [= <- <-].
  apply Forall_values_set; [assumption|split; assumption].
Qed.

Lemma F_linear_shape (x w : Tensor) (b : list R) (i o : nat) :
  has_shape w o i -> length b = o -> ncols x = i ->
  exists z, F_linear x w b = Ok z /\ has_shape z (nrows x) o.
Proof.
  intros (Hr & Hc & _) Hb Hx. unfold F_linear.
  rewrite Hx, Hc, Nat.eqb_refl.
  unfold broadcast. cbn [ncols rows]. rewrite Hr, Hb, Nat.eqb_refl.
  eexists. split; [reflexivity|].
  unfold has_shape, nrows, wf. cbn [rows ncols].
  rewrite !length_map. split; [reflexivity|]. split; [reflexivity|].
  apply Forall_map, Forall_map, Forall_forall. intros r _.
  rewrite length_zip_with, length_map. fold (nrows w). rewrite Hr, Hb. lia.
Qed.

Lemma tmap_shape (f : R -> R) (z : Tensor) (n c : nat) :
  has_shape z n c -> has_shape (tmap f z) n c.
Proof.
  intros (Hr & Hc & Hw). unfold has_shape. split; [|split].
  - unfold nrows, tmap. cbn [rows]. now rewrite length_map.
  - exact Hc.
  - now apply tmap_wf.
Qed.

(** A stack of well-shaped modules of the specified kinds maps a batch of
    width [layers[0]] to a batch of width [layers[-1]]. *)
Lemma layer_stack_forward (k : ModuleKind) (layers : list nat) :
  is_affine k = false ->
  forall ms x,
    2 <= length layers ->
    Forall well_shaped ms ->
    map kind_of ms = layer_stack k layers ->
    ncols x = hd 0 layers ->
    exists z,
      for_each ms x module_forward = Ok z
      /\ has_shape z (nrows x) (last layers 0).
Proof.
  intros Hk.
  induction layers as [|a tl IH]; intros ms x Hlen Hms Hkinds Hx;
    [simpl in Hlen; lia|].
  destruct tl as [|b rest]; [simpl in Hlen; lia|].
  destruct rest as [|c r].
  - destruct ms as [|m [|m' ms]]; try discriminate.
    cbn [map layer_stack] in Hkinds. injection Hkinds as Hm.
    destruct m as [i o w bias| | |]; try discriminate.
    cbn [kind_of] in Hm. injection Hm as Hi Ho. subst i o.
    inversion Hms as [|m0 l0 Hws _]. subst m0 l0.
    cbn [well_shaped] in Hws. destruct Hws as [Hw Hb].
    destruct (@F_linear_shape x w bias a b Hw Hb Hx) as (z & Ez & Hz).
    exists z. cbn [for_each module_forward]. rewrite Ez. cbn [bind].
    split; [reflexivity|exact Hz].
  - change (layer_stack k (a :: b :: c :: r))
      with (Affine a b :: k :: layer_stack k (b :: c :: r)) in Hkinds.
    destruct ms as [|m [|m' ms]]; try discriminate.
    cbn [map] in Hkinds. injection Hkinds as Hm Hm' Hrest.
    destruct m as [i o w bias| | |]; try discriminate.
    cbn [kind_of] in Hm. injection Hm as Hi Ho. subst i o.
    inversion Hms as [|m0 l0 Hws Hms']. subst m0 l0.
    cbn [well_shaped] in Hws. destruct Hws as [Hw Hb].
    inversion Hms' as [|m1 l1 _ Hms'']. subst m1 l1.
    destruct (@F_linear_shape x w bias a b Hw Hb Hx) as (z & Ez & Hz).
    cbn [for_each module_forward]. rewrite Ez. cbn [bind].
    assert (Hact : exists f, module_forward m' z = Ok (tmap f z)).
    { destruct m'; cbn [kind_of] in Hm'; cbn [module_forward]; eauto.
      rewrite <- Hm' in Hk. discriminate. }
    destruct Hact as [f ->]. cbn [bind].
    destruct (IH ms (tmap f z)) as (z' & Ez' & Hz').
    + simpl. lia.
    + assumption.
    + assumption.
    + apply (tmap_shape f) in Hz. destruct Hz as (_ & Hc & _). exact Hc.
    + exists z'. split; [exact Ez'|].
      destruct Hz' as (Hr' & Hc' & Hw').
      split; [|split; [exact Hc'|exact Hw']].
      rewrite Hr'. apply (tmap_shape f) in Hz. now destruct Hz.
Qed.

Lemma cat2_shape (a b : Tensor) (n c1 c2 : nat) :
  has_shape a n c1 -> has_shape b n c2 ->
  exists z, cat2 a b = Ok z /\ has_shape z n (c1 + c2).
Proof.
  intros (Ha & Hca & Hwa) (Hb & Hcb & Hwb).
  destruct (cat2 a b) as [z|] eqn:E.
  - exists z. split; [reflexivity|].
    pose proof (cat2_wf Hwa Hwb E) as Hw.
    unfold cat2 in E. rewrite Ha, Hb, Nat.eqb_refl in E. injection E as <-.
    unfold has_shape, nrows. cbn [rows ncols].
    rewrite length_zip_with. fold (nrows a) (nrows b).
    split; [lia|]. split; [lia|exact Hw].
  - unfold cat2 in E. rewrite Ha, Hb, Nat.eqb_refl in E. discriminate.
Qed.

Lemma cat_onto_columns (batch : nat) (ts : list Tensor) : forall acc c,
  has_shape acc batch c ->
  Forall (fun t => has_shape t batch 1) ts ->
  exists z, cat_onto acc ts = Ok z /\ has_shape z batch (c + length ts).
Proof.
  induction ts as [|t ts IH]; intros acc c Hacc Hts; cbn [cat_onto length].
  - exists acc. rewrite Nat.add_0_r. auto.
  - inversion Hts as [|t0 l0 Ht Hts']. subst t0 l0.
    destruct (cat2_shape Hacc Ht) as (z1 & E1 & H1).
    rewrite E1. cbn [bind].
    destruct (IH z1 (c + 1) H1 Hts') as (z & E & H).
    exists z. split; [exact E|].
    replace (c + S (length ts)) with (c + 1 + length ts) by lia. exact H.
Qed.

(** The concatenation of [n >= 1] column tensors of the same batch size
    has shape [batch x n]. *)
Lemma torch_cat_columns (batch : nat) (ts : list Tensor) :
  ts <> [] ->
  Forall (fun t => has_shape t batch 1) ts ->
  exists z, torch_cat ts = Ok z /\ has_shape z batch (length ts).
Proof.
  destruct ts as [|t ts]; [congruence|]. intros _ Hts.
  inversion Hts as [|t0 l0 Ht Hts']. subst t0 l0.
  destruct (cat_onto_columns Ht Hts') as (z & E & H).
  exists z. split; [exact E|exact H].
Qed.

Lemma rescale_shape (z : Tensor) (lb ub : list R) (n c : nat) :
  has_shape z n c -> length lb = c -> length ub = c ->
  exists z', rescale z lb ub = Ok z' /\ has_shape z' n c.
Proof.
  intros (Hr & Hc & Hw) Hlb Hub.
  rewrite rescale_same_width by congruence.
  eexists. split; [reflexivity|].
  unfold has_shape, nrows, wf. cbn [rows ncols].
  rewrite length_map. fold (nrows z).
  split; [exact Hr|]. split; [exact Hc|].
  apply Forall_map. unfold wf in Hw.
  eapply Forall_impl; [|exact Hw]. intros r Hrow. cbv beta in Hrow |- *.
  rewrite length_map, length_zip_with, length_map, !length_zip_with. lia.
Qed.

Lemma fcn_discrete_input self spatial time :
  FCN.discrete self = true ->
  FCN.network_input self spatial time
  = (z <- (if (length spatial =? 2) || (length spatial =? 3)
           then torch_cat spatial
           else py_index spatial 0) ;;
     rescale z (drop_last (FCN.lb self)) (drop_last (FCN.ub self))).
Proof.
  intros Hd. unfold FCN.network_input. rewrite Hd.
  destruct spatial as [|x [|y [|z [|w rest]]]]; reflexivity.
Qed.

Lemma length_drop_last (v : list R) : length (drop_last v) = length v - 1.
Proof.
  unfold drop_last. rewrite removelast_firstn_len, length_firstn. lia.
Qed.

(** A network built by [FCN.init] from three widths or more maps a batch
    of width [layers[0]] to a batch of width [layers[-1]]. *)
Lemma fcn_model_forward noise layers lb ub names act_function discrete s
  self s' x :
  3 <= length layers ->
  FCN.init noise layers lb ub names act_function discrete s = Ok (self, s') ->
  ncols x = hd 0 layers ->
  exists z,
    Sequential_forward (FCN.model self) x = Ok z
    /\ has_shape z (nrows x) (last layers 0).
Proof.
  intros Hlen Hinit Hx. unfold FCN.init in Hinit.
  rewrite fcn_initalize_net_skeleton in Hinit.
  destruct (build_net _ _ _ _) as [[net s1]|] eqn:E; cbn [bind] in Hinit;
    [|discriminate].
  injection Hinit as <- _. cbn [FCN.model].
  pose proof (build_net_stack _ _ _ _ Hlen E) as A.
  destruct (fcn_module_kind act_function) as [K Hk]. rewrite K in A.
  unfold Sequential_forward.
  apply (@layer_stack_forward (fcn_activation act_function) layers Hk);
    [lia| |exact A|exact Hx].
  eapply build_net_shaped; [|exact E].
  unfold fcn_module. destruct (String.eqb act_function "sin"); exact I.
Qed.

(** The mapping built from a final tensor of shape [batch x n] and [n]
    distinct names: the names in order, each bound to a [batch x 1]
    column. *)
Lemma column_dict_shapes (z : Tensor) (names : list string) (batch : nat) :
  has_shape z batch (length names) ->
  NoDup names ->
  PyDict.keys (column_dict z names) = names
  /\ PyDict.len (column_dict z names) = length names
  /\ forall i name,
       nth_error names i = Some name ->
       PyDict.get name (column_dict z names)
       = Some (mkTensor 1 (map (fun r => [nth i r 0%R]) (rows z)))
       /\ has_shape (mkTensor 1 (map (fun r => [nth i r 0%R]) (rows z))) batch 1.
Proof.
  intros (Hr & Hc & Hw) Hnd.
  assert (Hkeys : PyDict.keys (column_dict z names) = names).
  { unfold column_dict. apply (keys_comprehend_NoDup _ _ _ PyDict.empty Hnd). }
  split; [exact Hkeys|]. split.
  - unfold PyDict.len. rewrite <- (length_map fst).
    fold (PyDict.keys (column_dict z names)). now rewrite Hkeys.
  - intros i name Hi.
    assert (Hlt : i < length names) by (apply nth_error_Some; congruence).
    assert (Hlast : last_occurrence name names = Some i).
    { destruct (last_occurrence_in name names) as [k Hk];
        [eapply nth_error_In; eauto|].
      destruct (last_occurrence_nth _ _ Hk) as [Hnk _].
      rewrite NoDup_nth_error in Hnd.
      rewrite (Hnd i k Hlt) by congruence. exact Hk. }
    split.
    + rewrite get_column_dict, Hlast.
      rewrite slice_cols_inside by (auto; lia). reflexivity.
    + unfold has_shape, nrows, wf. cbn [rows ncols]. rewrite length_map.
      split; [exact Hr|]. split; [reflexivity|].
      apply Forall_map, Forall_forall. intros r _. reflexivity.
Qed.

(* ------------------------------------------------------------------ *)
(** ** FCN: the forward pass on inputs of the expected shapes *)

(** X1: an FCN built from three widths or more, in continuous mode, with
    bounds of length [layers[0]] and one to three spatial column tensors
    such that [layers[0]] is their number plus one, returns a mapping for
    every batch: the final tensor has shape [batch x layers[-1]], and with
    [layers[-1]] distinct output names the mapping has these names as
    keys, in order, each bound to one [batch x 1] column. *)
Theorem fcn_continuous_forward_shapes noise layers lb ub names act_function
  s self s' spatial time batch :
  3 <= length layers ->
  FCN.init noise layers lb ub names act_function false s = Ok (self, s') ->
  1 <= length spatial <= 3 ->
  hd 0 layers = S (length spatial) ->
  length lb = hd 0 layers ->
  length ub = hd 0 layers ->
  Forall (fun t => has_shape t batch 1) (spatial ++ [time]) ->
  exists z d,
    FCN.network_output self spatial time = Ok z
    /\ has_shape z batch (last layers 0)
    /\ FCN.forward self spatial time = Ok d
    /\ (NoDup names -> length names = last layers 0 ->
        PyDict.keys d = names
        /\ forall i name,
             nth_error names i = Some name ->
             PyDict.get name d
             = Some (mkTensor 1 (map (fun r => [nth i r 0%R]) (rows z)))).
Proof.
  intros Hlen Hinit Hs Hw Hlb Hub Hin.
  assert (Hself : FCN.discrete self = false /\ FCN.lb self = lb
                  /\ FCN.ub self = ub /\ FCN.output_names self = names).
  { unfold FCN.init in Hinit.
    destruct (FCN.initalize_net _ _ _ _) as [[net s1]|]; cbn [bind] in Hinit;
      [|discriminate].
    injection Hinit as <- _. cbn. auto. }
  destruct Hself as (Hd & Hl & Hu & Hn).
  destruct (@torch_cat_columns batch (spatial ++ [time])) as (c & Ec & Hc);
    [destruct spatial; discriminate|exact Hin|].
  rewrite length_app, Nat.add_1_r, <- Hw in Hc.
  destruct (@rescale_shape c lb ub batch (hd 0 layers) Hc Hlb Hub)
    as (x & Ex & Hx).
  destruct (@fcn_model_forward noise layers lb ub names act_function false s
              self s' x Hlen Hinit) as (z & Ez & Hz).
  { now destruct Hx as (_ & Hcx & _). }
  replace (nrows x) with batch in Hz by (now destruct Hx as (Hrx & _)).
  assert (Hout : FCN.network_output self spatial time = Ok z).
  { unfold FCN.network_output. rewrite fcn_continuous_input by assumption.
    rewrite Ec. cbn [bind]. rewrite Hl, Hu, Ex. cbn [bind]. exact Ez. }
  exists z, (column_dict z names).
  split; [exact Hout|]. split; [exact Hz|]. split.
  - unfold FCN.forward. rewrite Hout, Hd, Hn. reflexivity.
  - intros Hnd Hnames. rewrite <- Hnames in Hz.
    destruct (column_dict_shapes Hz Hnd) as (Hk & _ & Hg).
    split; [exact Hk|]. intros i name Hi. apply (Hg i name Hi).
Qed.

Lemma fcn_continuous_forward_shapes_witness :
  exists self s z d,
    FCN.init zero_noise [2; 4; 4; 1] [0; 0]%R [1; 1]%R ["u"%string] "sin"
      false 0 = Ok (self, s)
    /\ FCN.network_output self [half] half = Ok z
    /\ has_shape z 1 1
    /\ FCN.forward self [half] half = Ok d
    /\ PyDict.keys d = ["u"%string].
Proof.
  eexists. eexists.
  match goal with
  | |- exists z d, ?I /\ _ => assert (HI : I) by reflexivity
  end.
  assert (Hhalf : has_shape half 1 1) by (repeat split; repeat constructor).
  destruct (@fcn_continuous_forward_shapes zero_noise [2; 4; 4; 1] [0; 0]%R
              [1; 1]%R ["u"%string] "sin" 0 _ _ [half] half 1
              ltac:(simpl; lia) HI ltac:(simpl; lia) eq_refl eq_refl eq_refl
              ltac:(repeat constructor; exact Hhalf))
    as (z & d & O & S & F & K).
  exists z, d. split; [exact HI|]. split; [exact O|]. split; [exact S|].
  split; [exact F|]. apply K; [repeat constructor; intros []|reflexivity].
Defined.

(** X2: in discrete mode the same holds with the bounds one entry longer
    than the input is wide (the trailing entry is dropped), for one to
    three spatial column tensors with [layers[0]] their number: every
    output name is bound to the final tensor of shape
    [batch x layers[-1]]. *)
Theorem fcn_discrete_forward_shapes noise layers lb ub names act_function
  s self s' spatial time batch :
  3 <= length layers ->
  FCN.init noise layers lb ub names act_function true s = Ok (self, s') ->
  1 <= length spatial <= 3 ->
  hd 0 layers = length spatial ->
  length lb = S (hd 0 layers) ->
  length ub = S (hd 0 layers) ->
  Forall (fun t => has_shape t batch 1) spatial ->
  exists z d,
    FCN.network_output self spatial time = Ok z
    /\ has_shape z batch (last layers 0)
    /\ FCN.forward self spatial time = Ok d
    /\ forall name, In name names -> PyDict.get name d = Some z.
Proof.
  intros Hlen Hinit Hs Hw Hlb Hub Hin.
  assert (Hself : FCN.discrete self = true /\ FCN.lb self = lb
                  /\ FCN.ub self = ub /\ FCN.output_names self = names).
  { unfold FCN.init in Hinit.
    destruct (FCN.initalize_net _ _ _ _) as [[net s1]|]; cbn [bind] in Hinit;
      [|discriminate].
    injection Hinit as <- _. cbn. auto. }
  destruct Hself as (Hd & Hl & Hu & Hn).
  assert (Hcat : exists c,
             (if (length spatial =? 2) || (length spatial =? 3)
              then torch_cat spatial else py_index spatial 0) = Ok c
             /\ has_shape c batch (hd 0 layers)).
  { rewrite Hw.
    destruct spatial as [|x [|y [|z [|w rest]]]]; simpl in Hs; try lia.
    - exists x. split; [reflexivity|]. now inversion Hin.
    - apply (@torch_cat_columns batch [x; y]); [discriminate|exact Hin].
    - apply (@torch_cat_columns batch [x; y; z]); [discriminate|exact Hin]. }
  destruct Hcat as (c & Ec & Hc).
  destruct (@rescale_shape c (drop_last lb) (drop_last ub) batch (hd 0 layers) Hc)
    as (x & Ex & Hx); [rewrite length_drop_last; lia
                      |rewrite length_drop_last; lia|].
  destruct (@fcn_model_forward noise layers lb ub names act_function true s
              self s' x Hlen Hinit) as (z & Ez & Hz).
  { now destruct Hx as (_ & Hcx & _). }
  replace (nrows x) with batch in Hz by (now destruct Hx as (Hrx & _)).
  assert (Hout : FCN.network_output self spatial time = Ok z).
  { unfold FCN.network_output. rewrite fcn_discrete_input by assumption.
    rewrite Ec. cbn [bind]. rewrite Hl, Hu, Ex. cbn [bind]. exact Ez. }
  exists z, (shared_dict z names).
  split; [exact Hout|]. split; [exact Hz|]. split.
  - unfold FCN.forward. rewrite Hout, Hd, Hn. reflexivity.
  - intros name Hname. rewrite get_shared_dict.
    destruct (in_dec string_dec name names); [reflexivity|contradiction].
Qed.

Lemma fcn_discrete_forward_shapes_witness :
  exists self s z d,
    FCN.init zero_noise [2; 4; 3] [0; 0; 0]%R [1; 1; 1]%R ["u"%string] "tanh"
      true 0 = Ok (self, s)
    /\ FCN.network_output self [half; half] half = Ok z
    /\ has_shape z 1 3
    /\ FCN.forward self [half; half] half = Ok d
    /\ PyDict.get "u" d = Some z.
Proof.
  eexists. eexists.
  match goal with
  | |- exists z d, ?I /\ _ => assert (HI : I) by reflexivity
  end.
  assert (Hhalf : has_shape half 1 1) by (repeat split; repeat constructor).
  destruct (@fcn_discrete_forward_shapes zero_noise [2; 4; 3] [0; 0; 0]%R
              [1; 1; 1]%R ["u"%string] "tanh" 0 _ _ [half; half] half 1
              ltac:(simpl; lia) HI ltac:(simpl; lia) eq_refl eq_refl eq_refl
              ltac:(repeat constructor; exact Hhalf))
    as (z & d & O & S & F & G).
  exists z, d. split; [exact HI|]. split; [exact O|]. split; [exact S|].
  split; [exact F|]. apply G. now left.
Defined.

(* ------------------------------------------------------------------ *)
(** ** Construction: short layer specs and module names *)

Lemma build_net_short noise act layers s :
  length layers < 2 -> build_net noise act layers s = Raise IndexError.
Proof.
  destruct layers as [|a [|b r]]; simpl; intros H; try lia; reflexivity.
Qed.

(** X3: with fewer than two widths the constructions raise [IndexError]
    (at [layers[0]] or [layers[1]]), and so do the constructors of FCN and
    of ParallelNet: when the short spec is the first one, and when it is
    the second one and the first sub-network was built, as it is from two
    or more positive widths.  When the first construction raises, that
    exception is the one the constructor raises. *)
Theorem initialize_net_short_layers noise layers act_function s :
  length layers < 2 ->
  FCN.initalize_net noise layers act_function s = Raise IndexError
  /\ ParallelNet.initialize_net noise layers act_function s = Raise IndexError
  /\ (forall lb ub names discrete,
         FCN.init noise layers lb ub names act_function discrete s
         = Raise IndexError)
  /\ (forall other lb ub names act2,
         ParallelNet.init noise layers other lb ub names act_function act2 s
         = Raise IndexError
         /\ (forall net1 s1,
                ParallelNet.initialize_net noise other act2 s = Ok (net1, s1) ->
                ParallelNet.init noise other layers lb ub names act2 act_function s
                = Raise IndexError)
         /\ (2 <= length other -> Forall (fun w => 0 < w) other ->
             ParallelNet.init noise other layers lb ub names act2 act_function s
             = Raise IndexError)
         /\ (forall e,
                ParallelNet.initialize_net noise other act2 s = Raise e ->
                ParallelNet.init noise other layers lb ub names act2 act_function s
                = Raise e)).
Proof.
  intros Hlen.
  assert (F : forall s0, FCN.initalize_net noise layers act_function s0
                         = Raise IndexError).
  { intros. rewrite fcn_initalize_net_skeleton. now apply build_net_short. }
  assert (P : forall s0, ParallelNet.initialize_net noise layers act_function s0
                         = Raise IndexError).
  { intros. rewrite parallel_initialize_net_skeleton. now apply build_net_short. }
  split; [apply F|]. split; [apply P|]. split.
  - intros. unfold FCN.init. now rewrite F.
  - intros other lb ub names act2.
    assert (B : forall net1 s1,
               ParallelNet.initialize_net noise other act2 s = Ok (net1, s1) ->
               ParallelNet.init noise other layers lb ub names act2 act_function s
               = Raise IndexError).
    { intros net1 s1 E. unfold ParallelNet.init. rewrite E. cbn [bind].
      now rewrite P. }
    split; [|split; [exact B|split]].
    + unfold ParallelNet.init. now rewrite P.
    + intros Hother Hpos.
      destruct (@build_net_succeeds noise (parallel_module act2) other s
                  Hother Hpos) as (net1 & s1 & E).
      apply (B net1 s1). now rewrite parallel_initialize_net_skeleton.
    + intros e E. unfold ParallelNet.init. now rewrite E.
Qed.

Lemma initialize_net_short_layers_witness :
  FCN.initalize_net zero_noise [5] "sin" 0 = Raise IndexError
  /\ ParallelNet.initialize_net zero_noise [] "tanh" 0 = Raise IndexError
  /\ ParallelNet.init zero_noise [2; 3] [5] [0; 0]%R [1; 1]%R ["u"%string]
       "tanh" "sin" 0 = Raise IndexError.
Proof.
  split; [|split].
  - apply (@initialize_net_short_layers zero_noise [5] "sin" 0). simpl. lia.
  - apply (@initialize_net_short_layers zero_noise [] "tanh" 0). simpl. lia.
  - destruct (@initialize_net_short_layers zero_noise [5] "sin" 0
                ltac:(simpl; lia)) as (_ & _ & _ & H).
    destruct (H [2; 3] [0; 0]%R [1; 1]%R ["u"%string] "tanh"%string)
      as (_ & _ & H2 & _).
    apply H2; [simpl; lia|repeat constructor; lia].
Defined.

Lemma build_net_two_widths noise act a b s :
  0 < a + b ->
  exists w1 b1 w2 b2 s',
    build_net noise act [a; b] s
    = Ok ([("input"%string, Linear a b w1 b1);
           ("activation_1"%string, act);
           ("output"%string, Linear a b w2 b2)], s')
    /\ has_shape w1 b a /\ length b1 = b
    /\ has_shape w2 b a /\ length b2 = b.
Proof.
  intros Hab. unfold build_net.
  change (py_index [a; b] 0) with (Ok a).
  change (py_index [a; b] 1) with (Ok b).
  change (py_index [a; b] (-2)) with (Ok a).
  change (py_index [a; b] (-1)) with (Ok b).
  change (py_range 1 (Z.of_nat (length [a; b]) - 2)) with (@nil Z).
  cbn [bind for_each].
  destruct (fresh_linear noise a b s)
    as [(_ & w1 & b1 & s1 & E1 & Hw1 & Hb1)|(Hz & _)]; [|lia].
  destruct (nn_Linear noise a b s) as [layer s0].
  cbv beta iota. rewrite E1. clear E1. cbn [bind]. cbv beta iota.
  destruct (fresh_linear noise a b s1)
    as [(_ & w2 & b2 & s2 & E2 & Hw2 & Hb2)|(Hz & _)]; [|lia].
  destruct (nn_Linear noise a b s1) as [layer' s0'].
  cbv beta iota. rewrite E2. clear E2. cbn [bind]. cbv beta iota.
  exists w1, b1, w2, b2, s2. split; [reflexivity|]. auto.
Qed.

(** The initialisation of the input layer divides by zero when the first
    two widths are zero. *)
Lemma build_net_zero_widths noise act rest s :
  build_net noise act (0 :: 0 :: rest) s = Raise ZeroDivisionError.
Proof.
  unfold build_net.
  change (py_index (0 :: 0 :: rest) 0)
    with (py_index (0 :: 0 :: rest) (Z.of_nat 0)).
  change (py_index (0 :: 0 :: rest) 1)
    with (py_index (0 :: 0 :: rest) (Z.of_nat 1)).
  rewrite (py_index_nat (0 :: 0 :: rest) 0 (i := 0)) by (simpl; lia).
  rewrite (py_index_nat (0 :: 0 :: rest) 0 (i := 1)) by (simpl; lia).
  cbn [bind nth].
  destruct (fresh_linear noise 0 0 s) as [(Hp & _)|(_ & E)]; [lia|].
  destruct (nn_Linear noise 0 0 s) as [layer s0].
  cbv beta iota. rewrite E. reflexivity.
Qed.

Lemma activation_forward act_function :
  (exists f, forall z,
      module_forward (fcn_module act_function) z = Ok (tmap f z))
  /\ (exists f, forall z,
         module_forward (parallel_module act_function) z = Ok (tmap f z)).
Proof.
  unfold fcn_module, parallel_module.
  destruct (String.eqb act_function "sin");
    [|destruct (String.eqb act_function "sigmoid")];
    split; eexists; intros z; reflexivity.
Qed.

Lemma build_net_two_widths_forward noise act a b s :
  0 < a + b ->
  (exists f, forall z, module_forward act z = Ok (tmap f z)) ->
  exists net s',
    build_net noise act [a; b] s = Ok (net, s')
    /\ architecture net = [Affine a b; kind_of act; Affine a b]
    /\ forall x, ncols x = a -> a <> b ->
                 Sequential_forward net x = Raise RuntimeError.
Proof.
  intros Hab [f Hf].
  destruct (build_net_two_widths noise act a b s Hab)
    as (w1 & b1 & w2 & b2 & s' & E & Hw1 & Hb1 & Hw2 & Hb2).
  rewrite E. eexists. eexists. split; [reflexivity|]. split; [reflexivity|].
  intros x Hx Hne. unfold Sequential_forward.
  cbn [PyDict.values map snd for_each module_forward].
  destruct (@F_linear_shape x w1 b1 a b Hw1 Hb1 Hx) as (z & Ez & Hz).
  rewrite Ez. cbn [bind]. rewrite Hf. cbn [bind].
  unfold F_linear. cbn [tmap ncols].
  destruct Hz as (_ & Hcz & _). destruct Hw2 as (_ & Hcw & _).
  rewrite Hcz, Hcw.
  destruct (Nat.eqb_spec b a) as [Heq|_]; [congruence|reflexivity].
Qed.

(** X4: a spec of two widths [a, b], not both zero, is accepted by both
    constructions, but the network they build is input layer, activation
    and an output layer that again expects [a] columns: on a batch of
    width [a] its forward pass raises a dimension mismatch whenever
    [a <> b].  The spec [0, 0] is refused: the initialisation of the
    [0 x 0] weight raises [ZeroDivisionError]. *)
Theorem two_widths_network_mismatch noise a b act_function s :
  (0 < a + b ->
   (exists net s',
       FCN.initalize_net noise [a; b] act_function s = Ok (net, s')
       /\ architecture net
          = [Affine a b; fcn_activation act_function; Affine a b]
       /\ forall x, ncols x = a -> a <> b ->
                    Sequential_forward net x = Raise RuntimeError)
   /\ (exists net s',
          ParallelNet.initialize_net noise [a; b] act_function s = Ok (net, s')
          /\ architecture net
             = [Affine a b; parallel_activation act_function; Affine a b]
          /\ forall x, ncols x = a -> a <> b ->
                       Sequential_forward net x = Raise RuntimeError))
  /\ FCN.initalize_net noise [0; 0] act_function s = Raise ZeroDivisionError
  /\ ParallelNet.initialize_net noise [0; 0] act_function s
     = Raise ZeroDivisionError.
Proof.
  destruct (activation_forward act_function) as [Hf Hp].
  split; [intros Hab; split|split].
  - rewrite fcn_initalize_net_skeleton.
    destruct (@build_net_two_widths_forward noise _ a b s Hab Hf)
      as (net & s' & E & A & R).
    exists net, s'. split; [exact E|]. split; [|exact R].
    now destruct (fcn_module_kind act_function) as [<- _].
  - rewrite parallel_initialize_net_skeleton.
    destruct (@build_net_two_widths_forward noise _ a b s Hab Hp)
      as (net & s' & E & A & R).
    exists net, s'. split; [exact E|]. split; [|exact R].
    now destruct (parallel_module_kind act_function) as [<- _].
  - rewrite fcn_initalize_net_skeleton. apply build_net_zero_widths.
  - rewrite parallel_initialize_net_skeleton. apply build_net_zero_widths.
Qed.

Lemma two_widths_network_mismatch_witness :
  0 < 1 + 3
  /\ exists net s',
       FCN.initalize_net zero_noise [1; 3] "sin" 0 = Ok (net, s')
       /\ Sequential_forward net half = Raise RuntimeError.
Proof.
  split; [lia|].
  destruct (two_widths_network_mismatch zero_noise 1 3 "sin" 0)
    as [H _].
  destruct (H ltac:(lia)) as [(net & s' & E & _ & R) _].
  exists net, s'. split; [exact E|]. apply R; [reflexivity|lia].
Defined.

(** X19: a weight between two widths that are both zero cannot be
    initialised.  A spec that starts with two zero widths makes both
    constructions and the constructors of FCN and ParallelNet raise
    [ZeroDivisionError], and so does the spec [2, 0, 0, 1], at its hidden
    layer. *)
Theorem zero_widths_division_error noise rest act_function s :
  FCN.initalize_net noise (0 :: 0 :: rest) act_function s
  = Raise ZeroDivisionError
  /\ ParallelNet.initialize_net noise (0 :: 0 :: rest) act_function s
     = Raise ZeroDivisionError
  /\ (forall lb ub names discrete,
         FCN.init noise (0 :: 0 :: rest) lb ub names act_function discrete s
         = Raise ZeroDivisionError)
  /\ (forall layers2 lb ub names act2,
         ParallelNet.init noise (0 :: 0 :: rest) layers2 lb ub names
           act_function act2 s
         = Raise ZeroDivisionError)
  /\ FCN.initalize_net noise [2; 0; 0; 1] act_function s
     = Raise ZeroDivisionError
  /\ ParallelNet.initialize_net noise [2; 0; 0; 1] act_function s
     = Raise ZeroDivisionError.
Proof.
  assert (F : FCN.initalize_net noise (0 :: 0 :: rest) act_function s
              = Raise ZeroDivisionError).
  { rewrite fcn_initalize_net_skeleton. apply build_net_zero_widths. }
  assert (P : ParallelNet.initialize_net noise (0 :: 0 :: rest) act_function s
              = Raise ZeroDivisionError).
  { rewrite parallel_initialize_net_skeleton. apply build_net_zero_widths. }
  split; [exact F|]. split; [exact P|]. split; [|split; [|split]].
  - intros. unfold FCN.init. now rewrite F.
  - intros. unfold ParallelNet.init. now rewrite P.
  - rewrite fcn_initalize_net_skeleton. reflexivity.
  - rewrite parallel_initialize_net_skeleton. reflexivity.
Qed.

Lemma hidden_loop_NoDup noise act layers xs : forall (st st' : Sequential * nat),
  NoDup (PyDict.keys (fst st)) ->
  for_each xs st (hidden_step noise act layers) = Ok st' ->
  NoDup (PyDict.keys (fst st')).
Proof.
  induction xs as [|i xs IH]; intros st st' Hnd; cbn [for_each].
  - intros [= <-]. exact Hnd.
  - destruct (hidden_step noise act layers i st) as [st1|] eqn:E; cbn [bind];
      [|discriminate].
    apply IH. revert E. destruct st as [net s]. unfold hidden_step.
    destruct (py_index layers i) as [a|]; cbn [bind]; [|discriminate].
    destruct (py_index layers (i + 1)) as [b|]; cbn [bind]; [|discriminate].
    fresh_layer (fresh_linear noise a b s) w bias s1 Hw Hb.
    intros [= <-]. cbn [fst] in *. unfold add_module.
    now apply NoDup_keys_set, NoDup_keys_set.
Qed.

Lemma build_net_NoDup noise act layers s net s' :
  build_net noise act layers s = Ok (net, s') -> NoDup (PyDict.keys net).
Proof.
  unfold build_net.
  destruct (py_index layers 0) as [l0|]; cbn [bind]; [|discriminate].
  destruct (py_index layers 1) as [l1|]; cbn [bind]; [|discriminate].
  fresh_layer (fresh_linear noise l0 l1 s) w bias s1 Hw Hb.
  destruct (for_each _ _ _) as [[net1 s2]|] eqn:Eloop; cbn [bind];
    [|discriminate].
  assert (N1 : NoDup (PyDict.keys (fst (net1, s2)))).
  { eapply hidden_loop_NoDup; [|exact Eloop]. cbn [fst]. unfold add_module.
    apply NoDup_keys_set, NoDup_keys_set. constructor. }
  cbn [fst] in N1.
  destruct (py_index layers (-2)) as [a|]; cbn [bind]; [|discriminate].
  destruct (py_index layers (-1)) as [b|]; cbn [bind]; [|discriminate].
  fresh_layer (fresh_linear noise a b s2) w' bias' s3 Hw' Hb'.
  intros [= <- _]. unfold add_module. now apply NoDup_keys_set.
Qed.

Lemma length_module_names (n : nat) :
  3 <= n -> length (module_names n) = 2 * n - 3.
Proof.
  intros Hn. unfold module_names. rewrite !length_app. cbn [length].
  assert (H : forall l, length (flat_map hidden_names l) = 2 * length l).
  { induction l as [|j l IH]; [reflexivity|].
    cbn [flat_map]. rewrite length_app, IH. cbn [hidden_names length]. lia. }
  rewrite H, length_seq. lia.
Qed.

Lemma combine_fst_map {A B C : Type} (g : B -> C) (l : list (A * B)) :
  combine (map fst l) (map (fun p => g (snd p)) l)
  = map (fun p => (fst p, g (snd p))) l.
Proof.
  induction l as [|[a b] l IH]; [reflexivity|]. cbn. now rewrite IH.
Qed.

(** The module table of a network built from three positive widths or
    more. *)
Lemma build_net_table noise act layers s :
  3 <= length layers ->
  Forall (fun w => 0 < w) layers ->
  exists net s',
    build_net noise act layers s = Ok (net, s')
    /\ PyDict.keys net = module_names (length layers)
    /\ NoDup (PyDict.keys net)
    /\ PyDict.len net = 2 * length layers - 3
    /\ map (fun p => (fst p, kind_of (snd p))) net
       = combine (module_names (length layers))
           (layer_stack (kind_of act) layers).
Proof.
  intros Hlen Hpos.
  destruct (@build_net_succeeds noise act layers s) as (net & s' & E);
    [lia|exact Hpos|].
  pose proof (build_net_stack _ _ _ _ Hlen E) as A.
  destruct (@build_net_spec noise act layers s net s' Hlen E) as [_ K].
  exists net, s'. split; [exact E|]. split; [exact K|].
  split; [exact (build_net_NoDup _ _ _ _ E)|]. split.
  - unfold PyDict.len. rewrite <- (length_map fst).
    fold (PyDict.keys net). rewrite K. now apply length_module_names.
  - rewrite <- K, <- A. unfold PyDict.keys, architecture, PyDict.values.
    rewrite map_map. symmetry. apply combine_fst_map.
Qed.

(** X5: for three widths or more (positive, as the widths of a layer spec
    are), the module table both constructions build has
    [2 * len(layers) - 3] entries with distinct names, in the order
    [input], [activation_1], [hidden_2], [activation_2], ...,
    [hidden_{n-2}], [activation_{n-2}], [output] (hidden layers are
    numbered from 2), and pairs these names with the layers of the
    specified stack. *)
Theorem module_table_names noise layers act_function s :
  3 <= length layers ->
  Forall (fun w => 0 < w) layers ->
  (exists net s',
      FCN.initalize_net noise layers act_function s = Ok (net, s')
      /\ PyDict.keys net = module_names (length layers)
      /\ NoDup (PyDict.keys net)
      /\ PyDict.len net = 2 * length layers - 3
      /\ map (fun p => (fst p, kind_of (snd p))) net
         = combine (module_names (length layers))
             (layer_stack (fcn_activation act_function) layers))
  /\ (exists net s',
         ParallelNet.initialize_net noise layers act_function s = Ok (net, s')
         /\ PyDict.keys net = module_names (length layers)
         /\ NoDup (PyDict.keys net)
         /\ PyDict.len net = 2 * length layers - 3
         /\ map (fun p => (fst p, kind_of (snd p))) net
            = combine (module_names (length layers))
                (layer_stack (parallel_activation act_function) layers)).
Proof.
  intros Hlen Hpos. split.
  - rewrite fcn_initalize_net_skeleton.
    destruct (fcn_module_kind act_function) as [<- _].
    now apply build_net_table.
  - rewrite parallel_initialize_net_skeleton.
    destruct (parallel_module_kind act_function) as [<- _].
    now apply build_net_table.
Qed.

Lemma module_table_names_witness :
  3 <= length [2; 4; 4; 1]
  /\ Forall (fun w => 0 < w) [2; 4; 4; 1]
  /\ exists net s',
       FCN.initalize_net zero_noise [2; 4; 4; 1] "sin" 0 = Ok (net, s')
       /\ PyDict.keys net
          = ["input"; "activation_1"; "hidden_2"; "activation_2"; "output"]%string.
Proof.
  assert (Hpos : Forall (fun w => 0 < w) [2; 4; 4; 1])
    by (repeat constructor; lia).
  split; [simpl; lia|]. split; [exact Hpos|].
  destruct (@module_table_names zero_noise [2; 4; 4; 1] "sin" 0)
    as [(net & s' & E & K & _) _]; [simpl; lia|exact Hpos|].
  exists net, s'. split; [exact E|]. rewrite K. reflexivity.
Defined.

(* ------------------------------------------------------------------ *)
(** ** NetHFM: parameters and forward pass *)

Lemma Forall2_map_self {A B : Type} (P : A -> B -> Prop) (f : A -> B)
  (l : list A) :
  (forall x, P x (f x)) -> Forall2 P l (map f l).
Proof.
  intros H. induction l as [|x l IH]; cbn [map]; constructor; auto.
Qed.

Lemma hfm_param_loop_shaped noise layers m : forall a ws bs gs s,
  m = 0 \/ a + m < length layers ->
  exists ws' s',
    for_each (map Z.of_nat (seq a m)) (ws, bs, gs, s)
      (hfm_param_step noise layers)
    = Ok (ws ++ ws',
          bs ++ map (fun i => repeat 0%R (nth (S i) layers 0)) (seq a m),
          gs ++ map (fun i => repeat 1%R (nth (S i) layers 0)) (seq a m),
          s')
    /\ Forall2 (fun i W => has_shape W (nth i layers 0) (nth (S i) layers 0))
         (seq a m) ws'.
Proof.
  induction m as [|m IH]; intros a ws bs gs s Hm; cbn [seq map for_each].
  - exists [], s. rewrite !app_nil_r. split; [reflexivity|constructor].
  - destruct Hm as [Hm|Hm]; [discriminate|].
    unfold hfm_param_step at 1.
    rewrite (py_index_nat layers 0) by lia. cbn [bind].
    replace (Z.of_nat a + 1)%Z with (Z.of_nat (S a)) by lia.
    rewrite (py_index_nat layers 0) by lia. cbn [bind].
    pose proof (draw_shape noise (nth a layers 0) (nth (S a) layers 0) s) as HW.
    destruct (draw noise (nth a layers 0) (nth (S a) layers 0) s) as [W s1].
    cbn [fst] in HW. cbv beta iota zeta. cbn [bind].
    edestruct (IH (S a)) as (ws' & s' & E & Hws); [right; lia|].
    rewrite E. clear E.
    exists (W :: ws'), s'. rewrite <- !app_assoc. cbn [app].
    split; [reflexivity|]. constructor; assumption.
Qed.

(** X6: [NetHFM.init] never raises, whatever the widths are (none, one or
    more): it creates one weight of shape [layers[i] x layers[i+1]] per
    pair of consecutive widths, with a bias of zeros and a gamma of ones of
    length [layers[i+1]], and records [num_layers = len(layers)]. *)
Theorem hfm_init_parameters noise mean std layers names s :
  exists self s',
    NetHFM.init noise mean std layers names s = Ok (self, s')
    /\ hfm_params_ok layers self
    /\ NetHFM.biases self
       = map (fun i => repeat 0%R (nth (S i) layers 0))
           (seq 0 (length layers - 1))
    /\ NetHFM.gammas self
       = map (fun i => repeat 1%R (nth (S i) layers 0))
           (seq 0 (length layers - 1))
    /\ length (NetHFM.weights self) = length layers - 1
    /\ NetHFM.X_mean self = mean /\ NetHFM.X_std self = std
    /\ NetHFM.output_names self = names.
Proof.
  unfold NetHFM.init, NetHFM.initalize_net.
  change (for_each (py_range 0 (Z.of_nat (length layers) - 1)) ([], [], [], s) _)
    with (for_each (py_range 0 (Z.of_nat (length layers) - 1))
            (@nil Tensor, @nil (list R), @nil (list R), s)
            (hfm_param_step noise layers)).
  assert (R : py_range 0 (Z.of_nat (length layers) - 1)
              = map Z.of_nat (seq 0 (length layers - 1))).
  { destruct layers as [|l layers]; [reflexivity|].
    change 0%Z with (Z.of_nat 0).
    replace (Z.of_nat (length (l :: layers)) - 1)%Z
      with (Z.of_nat (length (l :: layers) - 1)) by (cbn [length]; lia).
    rewrite py_range_nat. now rewrite Nat.sub_0_r. }
  rewrite R.
  destruct (@hfm_param_loop_shaped noise layers (length layers - 1) 0 [] [] [] s)
    as (ws & s' & E & Hws).
  { destruct layers as [|l [|l' layers]]; simpl; [left|left|right]; lia. }
  rewrite E. cbn [bind app].
  eexists. eexists. split; [reflexivity|].
  cbn [NetHFM.weights NetHFM.biases NetHFM.gammas NetHFM.num_layers
       NetHFM.X_mean NetHFM.X_std NetHFM.output_names].
  split; [|split; [reflexivity|split; [reflexivity|split;
           [|split; [reflexivity|split; reflexivity]]]]].
  - unfold hfm_params_ok.
    cbn [NetHFM.weights NetHFM.biases NetHFM.gammas NetHFM.num_layers].
    split; [reflexivity|]. split; [exact Hws|].
    split; apply Forall2_map_self; intros i; apply repeat_length.
  - apply Forall2_length in Hws. rewrite length_seq in Hws. auto.
Qed.

Lemma broadcast_shape (f : R -> R -> R) (z : Tensor) (v : list R) (n c : nat) :
  has_shape z n c -> length v = c ->
  exists z', broadcast f z v = Ok z' /\ has_shape z' n c.
Proof.
  intros (Hr & Hc & Hw) Hv.
  destruct (broadcast f z v) as [z'|] eqn:E.
  - exists z'. split; [reflexivity|].
    pose proof (broadcast_wf _ _ Hw E) as Hw'.
    unfold broadcast in E. rewrite Hc, Hv, Nat.eqb_refl in E.
    injection E as <-. unfold has_shape, nrows. cbn [rows ncols].
    rewrite length_map. auto.
  - unfold broadcast in E. rewrite Hc, Hv, Nat.eqb_refl in E. discriminate.
Qed.

Lemma matmul_shape (h v : Tensor) (n c : nat) :
  has_shape h n c -> nrows v = c ->
  exists z, matmul h v = Ok z /\ has_shape z n (ncols v).
Proof.
  intros (Hr & Hc & _) Hv.
  destruct (matmul h v) as [z|] eqn:E.
  - exists z. split; [reflexivity|].
    pose proof (matmul_wf _ _ E) as Hw.
    unfold matmul in E. rewrite Hc, Hv, Nat.eqb_refl in E.
    injection E as <-. unfold has_shape, nrows. cbn [rows ncols].
    rewrite length_map. auto.
  - unfold matmul in E. rewrite Hc, Hv, Nat.eqb_refl in E. discriminate.
Qed.

Lemma length_norm_dim0 (w : Tensor) : length (norm_dim0 w) = ncols w.
Proof. unfold norm_dim0. now rewrite length_map, length_seq. Qed.

Lemma hfm_affine_shape (W : Tensor) (b g : list R) (H : Tensor) (n i o : nat) :
  has_shape W i o -> length b = o -> length g = o -> has_shape H n i ->
  exists H', hfm_affine W b g H = Ok H' /\ has_shape H' n o.
Proof.
  intros HW Hb Hg HH. unfold hfm_affine.
  destruct (@broadcast_shape Rdiv W (norm_dim0 W) i o HW) as (V & EV & HV).
  { rewrite length_norm_dim0. now destruct HW as (_ & Hc & _). }
  rewrite EV. cbn [bind].
  destruct (@matmul_shape H V n i HH) as (HVt & EM & HM).
  { now destruct HV as (Hr & _). }
  rewrite EM. cbn [bind].
  replace (ncols V) with o in HM by (now destruct HV as (_ & Hc & _)).
  destruct (@broadcast_shape (fun h gj => (gj * h)%R) HVt g n o HM Hg)
    as (gH & EG & HG).
  rewrite EG. cbn [bind].
  apply (@broadcast_shape Rplus gH b n o HG Hb).
Qed.

Lemma layer_loop_shape self layers Ws : forall i bs gs H n,
  Forall2 (fun j W => has_shape W (nth j layers 0) (nth (S j) layers 0))
    (seq i (length Ws)) Ws ->
  Forall2 (fun j (b : list R) => length b = nth (S j) layers 0)
    (seq i (length Ws)) bs ->
  Forall2 (fun j (g : list R) => length g = nth (S j) layers 0)
    (seq i (length Ws)) gs ->
  has_shape H n (nth i layers 0) ->
  exists H',
    NetHFM.layer_loop self i Ws bs gs H = Ok H'
    /\ has_shape H' n (nth (i + length Ws) layers 0).
Proof.
  induction Ws as [|W Ws IH]; intros i bs gs H n HWs Hbs Hgs HH;
    cbn [length seq] in *.
  - exists H. rewrite Nat.add_0_r. split; [reflexivity|exact HH].
  - inversion HWs as [|j0 W0 l0 Ws0 HW HWs']. subst.
    inversion Hbs as [|j1 b l1 bs' Hb Hbs']. subst.
    inversion Hgs as [|j2 g l2 gs' Hg Hgs']. subst.
    cbn [NetHFM.layer_loop]. rewrite layer_step_affine.
    destruct (@hfm_affine_shape W b g H n _ _ HW Hb Hg HH) as (H1 & E1 & HH1).
    rewrite E1. cbn [bind].
    assert (Hstep : exists H2,
               (if (Z.of_nat i <? Z.of_nat (NetHFM.num_layers self) - 2)%Z
                then Ok (tmap NetHFM.swish H1) else Ok H1) = Ok H2
               /\ has_shape H2 n (nth (S i) layers 0)).
    { destruct (_ <? _)%Z; eexists; (split; [reflexivity|]);
        [now apply tmap_shape|exact HH1]. }
    destruct Hstep as (H2 & -> & HH2). cbn [bind].
    destruct (IH (S i) bs' gs' H2 n HWs' Hbs' Hgs' HH2) as (H' & E' & HH').
    exists H'. split; [exact E'|].
    now rewrite <- Nat.add_succ_comm.
Qed.

Lemma last_as_nth (l : list nat) : last l 0 = nth (length l - 1) l 0.
Proof.
  induction l as [|a l IH]; [reflexivity|].
  destruct l as [|b l]; [reflexivity|].
  change (last (a :: b :: l) 0) with (last (b :: l) 0). rewrite IH.
  replace (length (a :: b :: l) - 1) with (S (length (b :: l) - 1))
    by (cbn [length]; lia).
  reflexivity.
Qed.

Lemma hd_as_nth (l : list nat) : hd 0 l = nth 0 l 0.
Proof. destruct l; reflexivity. Qed.

Lemma hfm_input_cat self spatial time :
  1 <= length spatial <= 3 ->
  NetHFM.network_input self spatial time
  = (H <- torch_cat (spatial ++ [time]) ;;
     d <- broadcast Rminus H (NetHFM.X_mean self) ;;
     broadcast Rdiv d (NetHFM.X_std self)).
Proof.
  intros Hlen. unfold NetHFM.network_input.
  destruct spatial as [|x [|y [|z [|w rest]]]]; simpl in Hlen; try lia;
    reflexivity.
Qed.

(** X7: a NetHFM whose parameters have the shapes given by the widths,
    with float32 statistics of length [layers[0]] and one to three
    float32 spatial column tensors such that [layers[0]] is their number
    plus one, returns a mapping for every batch: the final tensor has
    shape [batch x layers[-1]], and with [layers[-1]] distinct output
    names the mapping has these names as keys, in order, each bound to
    one column.  (All tensors of the embedding are float32; statistics
    kept in float64, the default of numpy, are outside it: with them
    [torch.matmul] meets a float64 input and float32 weights.) *)
Theorem hfm_forward_shapes layers self spatial time batch :
  hfm_params_ok layers self ->
  1 <= length spatial <= 3 ->
  hd 0 layers = S (length spatial) ->
  length (NetHFM.X_mean self) = hd 0 layers ->
  length (NetHFM.X_std self) = hd 0 layers ->
  Forall (fun t => has_shape t batch 1) (spatial ++ [time]) ->
  exists z d,
    NetHFM.network_output self spatial time = Ok z
    /\ has_shape z batch (last layers 0)
    /\ NetHFM.forward self spatial time = Ok d
    /\ (NoDup (NetHFM.output_names self) ->
        length (NetHFM.output_names self) = last layers 0 ->
        PyDict.keys d = NetHFM.output_names self
        /\ forall i name,
             nth_error (NetHFM.output_names self) i = Some name ->
             PyDict.get name d
             = Some (mkTensor 1 (map (fun r => [nth i r 0%R]) (rows z)))).
Proof.
  intros (Hnum & HWs & Hbs & Hgs) Hs Hw Hmean Hstd Hin.
  destruct (@torch_cat_columns batch (spatial ++ [time])) as (c & Ec & Hc);
    [destruct spatial; discriminate|exact Hin|].
  rewrite length_app, Nat.add_1_r, <- Hw in Hc.
  destruct (@broadcast_shape Rminus c _ batch _ Hc Hmean) as (d0 & Ed & Hd).
  destruct (@broadcast_shape Rdiv d0 _ batch _ Hd Hstd) as (x & Ex & Hx).
  assert (Hlen : length (NetHFM.weights self) = length layers - 1).
  { apply Forall2_length in HWs. now rewrite length_seq in HWs. }
  rewrite <- Hlen in HWs, Hbs, Hgs. rewrite hd_as_nth in Hx.
  destruct (@layer_loop_shape self layers _ 0 _ _ x batch HWs Hbs Hgs Hx)
    as (z & Ez & Hz).
  cbn [Nat.add] in Hz. rewrite Hlen, <- last_as_nth in Hz.
  assert (Hout : NetHFM.network_output self spatial time = Ok z).
  { unfold NetHFM.network_output. rewrite hfm_input_cat by assumption.
    rewrite Ec. cbn [bind]. rewrite Ed. cbn [bind]. rewrite Ex. cbn [bind].
    exact Ez. }
  exists z, (column_dict z (NetHFM.output_names self)).
  split; [exact Hout|]. split; [exact Hz|]. split.
  - unfold NetHFM.forward. now rewrite Hout.
  - intros Hnd Hnames. rewrite <- Hnames in Hz.
    destruct (column_dict_shapes Hz Hnd) as (Hk & _ & Hg).
    split; [exact Hk|]. intros i name Hi. apply (Hg i name Hi).
Qed.

Lemma hfm_forward_shapes_witness :
  exists self s z d,
    NetHFM.init zero_noise [0; 0]%R [1; 1]%R [2; 3; 2]
      ["u"%string; "v"%string] 0 = Ok (self, s)
    /\ NetHFM.network_output self [half] half = Ok z
    /\ has_shape z 1 2
    /\ NetHFM.forward self [half] half = Ok d
    /\ PyDict.keys d = ["u"%string; "v"%string].
Proof.
  eexists. eexists.
  match goal with
  | |- exists z d, ?I /\ _ => assert (HI : I) by reflexivity
  end.
  assert (Hhalf : has_shape half 1 1) by (repeat split; repeat constructor).
  match type of HI with
  | _ = Ok (?self, _) =>
      assert (Hok : hfm_params_ok [2; 3; 2] self)
        by (repeat split; repeat constructor);
      destruct (@hfm_forward_shapes [2; 3; 2] self [half] half 1 Hok
                  ltac:(simpl; lia) eq_refl eq_refl eq_refl
                  ltac:(repeat constructor; exact Hhalf))
        as (z & d & O & S & F & K)
  end.
  exists z, d. split; [exact HI|]. split; [exact O|]. split; [exact S|].
  split; [exact F|].
  apply K; [|reflexivity].
  repeat constructor; simpl; intuition discriminate.
Defined.

(* ------------------------------------------------------------------ *)
(** ** NetHFM: weight normalisation *)

Lemma nth_zip_with {A B C : Type} (f : A -> B -> C) (da : A) (db : B) (dc : C) :
  forall (l : list A) (l' : list B) j,
    j < length l -> j < length l' ->
    nth j (zip_with f l l') dc = f (nth j l da) (nth j l' db).
Proof.
  induction l as [|a l IH]; intros [|b l'] j Hl Hl'; simpl in *; try lia.
  destruct j as [|j]; [reflexivity|]. apply IH; lia.
Qed.

Lemma nth_norm_dim0 (w : Tensor) (j : nat) :
  j < ncols w ->
  nth j (norm_dim0 w) 0%R
  = sqrt (fold_right Rplus 0%R (map (fun x => (x * x)%R) (column j w))).
Proof.
  intros Hj. unfold norm_dim0.
  rewrite (nth_indep _ 0%R
             (sqrt (fold_right Rplus 0%R
                      (map (fun x => (x * x)%R) (column 0 w)))))
    by (now rewrite length_map, length_seq).
  rewrite (map_nth (fun j => sqrt (fold_right Rplus 0%R
                                     (map (fun x => (x * x)%R) (column j w))))).
  now rewrite seq_nth.
Qed.

Lemma sum_squares_nonneg (l : list R) :
  (0 <= fold_right Rplus 0%R (map (fun x => (x * x)%R) l))%R.
Proof.
  induction l as [|x l IH]; simpl; [lra|].
  pose proof (Rle_0_sqr x) as Hx. unfold Rsqr in Hx. lra.
Qed.

Lemma sum_squares_scaled (l : list R) (n : R) :
  n <> 0%R ->
  fold_right Rplus 0%R
    (map (fun x => (x * x)%R) (map (fun x => (x / n)%R) l))
  = (fold_right Rplus 0%R (map (fun x => (x * x)%R) l) / (n * n))%R.
Proof.
  intros Hn. induction l as [|x l IH]; simpl; [field; exact Hn|].
  rewrite IH. field. exact Hn.
Qed.

(** X8: the weight normalisation [V = W / torch.norm(W, dim=0)] keeps the
    shape of [W], and every column of [V] whose norm in [W] is not zero
    has L2 norm exactly 1. *)
Theorem weight_normalisation_unit_columns (W : Tensor) (j : nat) :
  wf W ->
  j < ncols W ->
  nth j (norm_dim0 W) 0%R <> 0%R ->
  exists V,
    broadcast Rdiv W (norm_dim0 W) = Ok V
    /\ nrows V = nrows W /\ ncols V = ncols W /\ wf V
    /\ column j V
       = map (fun x => (x / nth j (norm_dim0 W) 0)%R) (column j W)
    /\ nth j (norm_dim0 V) 0%R = 1%R.
Proof.
  intros Hwf Hj Hn.
  destruct (@broadcast_shape Rdiv W (norm_dim0 W) (nrows W) (ncols W))
    as (V & EV & HrV & HcV & HwV);
    [repeat split; auto|apply length_norm_dim0|].
  exists V. split; [exact EV|]. split; [exact HrV|]. split; [exact HcV|].
  split; [exact HwV|].
  assert (Hcol : column j V
                 = map (fun x => (x / nth j (norm_dim0 W) 0)%R) (column j W)).
  { unfold broadcast in EV.
    rewrite length_norm_dim0, Nat.eqb_refl in EV. injection EV as <-.
    unfold column. cbn [rows]. rewrite !map_map.
    apply map_ext_in. intros r Hr.
    unfold wf in Hwf. rewrite Forall_forall in Hwf.
    apply (nth_zip_with Rdiv 0%R 0%R 0%R).
    - now rewrite (Hwf r Hr).
    - now rewrite length_norm_dim0. }
  split; [exact Hcol|].
  rewrite nth_norm_dim0 by (now rewrite HcV).
  rewrite Hcol, sum_squares_scaled by exact Hn.
  rewrite nth_norm_dim0 in Hn |- * by exact Hj.
  set (S2 := fold_right Rplus 0%R (map (fun x => (x * x)%R) (column j W))) in *.
  rewrite sqrt_sqrt by apply sum_squares_nonneg.
  assert (HS : S2 <> 0%R).
  { intros H0. apply Hn. rewrite H0. apply sqrt_0. }
  replace (S2 / S2)%R with 1%R by (field; exact HS).
  apply sqrt_1.
Qed.

Lemma weight_normalisation_unit_columns_witness :
  exists V,
    broadcast Rdiv (mkTensor 1 [[3]; [4]]%R) (norm_dim0 (mkTensor 1 [[3]; [4]]%R))
    = Ok V
    /\ nth 0 (norm_dim0 V) 0%R = 1%R.
Proof.
  assert (Hwf : wf (mkTensor 1 [[3]; [4]]%R)) by (repeat constructor).
  assert (Hn : nth 0 (norm_dim0 (mkTensor 1 [[3]; [4]]%R)) 0%R <> 0%R).
  { cbn. replace (3 * 3 + (4 * 4 + 0))%R with (5 * 5)%R by lra.
    rewrite sqrt_square by lra. lra. }
  destruct (@weight_normalisation_unit_columns (mkTensor 1 [[3]; [4]]%R) 0
              Hwf ltac:(cbn; lia) Hn) as (V & E & _ & _ & _ & _ & N).
  exists V. split; [exact E|exact N].
Defined.

(* ------------------------------------------------------------------ *)
(** ** ParallelNet: the forward pass on inputs of the expected shapes *)

Lemma build_net_forward noise act layers s net s' x :
  3 <= length layers ->
  well_shaped act -> is_affine (kind_of act) = false ->
  build_net noise act layers s = Ok (net, s') ->
  ncols x = hd 0 layers ->
  exists z,
    Sequential_forward net x = Ok z
    /\ has_shape z (nrows x) (last layers 0).
Proof.
  intros Hlen Hact Hk E Hx.
  pose proof (build_net_stack _ _ _ _ Hlen E) as A.
  unfold Sequential_forward.
  apply (@layer_stack_forward (kind_of act) layers Hk); [lia| |exact A|exact Hx].
  eapply build_net_shaped; [exact Hact|exact E].
Qed.

Lemma parallel_module_shaped act_function :
  well_shaped (parallel_module act_function)
  /\ is_affine (kind_of (parallel_module act_function)) = false.
Proof.
  unfold parallel_module.
  destruct (String.eqb act_function "sin");
    [|destruct (String.eqb act_function "sigmoid")]; split; reflexivity || exact I.
Qed.

Lemma rescale0_shape (z : Tensor) (lb ub : list R) (n c : nat) :
  has_shape z n c -> lb <> [] -> ub <> [] ->
  exists z', rescale0 z lb ub = Ok z' /\ has_shape z' n c.
Proof.
  intros Hz Hlb Hub. rewrite rescale0_entrywise.
  destruct lb as [|l0 lb]; [congruence|].
  destruct ub as [|u0 ub]; [congruence|].
  change (index0 (l0 :: lb)) with (Ok l0).
  change (index0 (u0 :: ub)) with (Ok u0). cbn [bind].
  eexists. split; [reflexivity|]. now apply tmap_shape.
Qed.

Lemma parallel_inputs_shapes self spatial time batch :
  1 <= length spatial <= 3 ->
  length (ParallelNet.lb self) = S (length spatial) ->
  length (ParallelNet.ub self) = S (length spatial) ->
  Forall (fun t => has_shape t batch 1) (spatial ++ [time]) ->
  exists z1 z2,
    ParallelNet.branch_inputs self spatial time = Ok (z1, z2)
    /\ has_shape z1 batch (S (length spatial))
    /\ has_shape z2 batch (length spatial).
Proof.
  intros Hs Hlb Hub Hin.
  assert (Hsp : Forall (fun t => has_shape t batch 1) spatial)
    by (apply Forall_app in Hin; tauto).
  destruct (@torch_cat_columns batch (spatial ++ [time])) as (c1 & E1 & H1);
    [destruct spatial; discriminate|exact Hin|].
  rewrite length_app, Nat.add_1_r in H1.
  destruct (@torch_cat_columns batch spatial) as (c2 & E2 & H2);
    [destruct spatial; [simpl in Hs; lia|discriminate]|exact Hsp|].
  destruct (@rescale_shape c1 _ _ batch _ H1 Hlb Hub) as (z1 & Ez1 & Hz1).
  destruct (@rescale0_shape c2 (ParallelNet.lb self) (ParallelNet.ub self)
              batch _ H2) as (z2 & Ez2 & Hz2).
  { intros E. rewrite E in Hlb. discriminate. }
  { intros E. rewrite E in Hub. discriminate. }
  exists z1, z2. split; [|split; assumption].
  unfold ParallelNet.branch_inputs.
  destruct spatial as [|x [|y [|z [|w rest]]]]; simpl in Hs; try lia;
    cbn [length Nat.eqb unpack2 unpack3 bind app] in *.
  - change (py_index [x] 0) with (Ok x). cbn [bind].
    rewrite E1. cbn [bind]. injection E2 as <-.
    rewrite Ez1. cbn [bind]. rewrite Ez2. reflexivity.
  - rewrite E1. cbn [bind]. rewrite E2. cbn [bind].
    rewrite Ez1. cbn [bind]. rewrite Ez2. reflexivity.
  - rewrite E1. cbn [bind]. rewrite E2. cbn [bind].
    rewrite Ez1. cbn [bind]. rewrite Ez2. reflexivity.
Qed.

(** X9: a ParallelNet built from two specs of three widths or more, with
    bounds of length [layers1[0]], and one to three spatial column tensors
    such that [layers1[0]] is their number plus one and [layers2[0]] their
    number, returns a mapping for every batch: the final tensor has shape
    [batch x (layers1[-1] + layers2[-1])], and with that many distinct
    output names the mapping has these names as keys, in order, each bound
    to one column. *)
Theorem parallel_forward_shapes noise layers1 layers2 lb ub names act1 act2
  s self s' spatial time batch :
  3 <= length layers1 -> 3 <= length layers2 ->
  ParallelNet.init noise layers1 layers2 lb ub names act1 act2 s = Ok (self, s') ->
  1 <= length spatial <= 3 ->
  hd 0 layers1 = S (length spatial) ->
  hd 0 layers2 = length spatial ->
  length lb = hd 0 layers1 ->
  length ub = hd 0 layers1 ->
  Forall (fun t => has_shape t batch 1) (spatial ++ [time]) ->
  exists z d,
    ParallelNet.network_output self spatial time = Ok z
    /\ has_shape z batch (last layers1 0 + last layers2 0)
    /\ ParallelNet.forward self spatial time = Ok d
    /\ (NoDup names -> length names = last layers1 0 + last layers2 0 ->
        PyDict.keys d = names
        /\ forall i name,
             nth_error names i = Some name ->
             PyDict.get name d
             = Some (mkTensor 1 (map (fun r => [nth i r 0%R]) (rows z)))).
Proof.
  intros Hlen1 Hlen2 Hinit Hs Hw1 Hw2 Hlb Hub Hin.
  unfold ParallelNet.init in Hinit.
  rewrite parallel_initialize_net_skeleton in Hinit.
  destruct (build_net noise (parallel_module act1) layers1 s)
    as [[m1 s1]|] eqn:B1; cbn [bind] in Hinit; [|discriminate].
  rewrite parallel_initialize_net_skeleton in Hinit.
  destruct (build_net noise (parallel_module act2) layers2 s1)
    as [[m2 s2]|] eqn:B2; cbn [bind] in Hinit; [|discriminate].
  injection Hinit as <- _.
  set (self := ParallelNet.mk m1 m2 lb ub names).
  destruct (@parallel_inputs_shapes self spatial time batch Hs)
    as (i1 & i2 & Ei & Hi1 & Hi2); [cbn; congruence|cbn; congruence|exact Hin|].
  destruct (parallel_module_shaped act1) as [Ws1 Ka1].
  destruct (parallel_module_shaped act2) as [Ws2 Ka2].
  destruct (@build_net_forward noise _ layers1 s m1 s1 i1 Hlen1 Ws1 Ka1 B1)
    as (o1 & Eo1 & Ho1).
  { destruct Hi1 as (_ & Hc & _). congruence. }
  destruct (@build_net_forward noise _ layers2 s1 m2 s2 i2 Hlen2 Ws2 Ka2 B2)
    as (o2 & Eo2 & Ho2).
  { destruct Hi2 as (_ & Hc & _). congruence. }
  replace (nrows i1) with batch in Ho1 by (now destruct Hi1 as (Hr & _)).
  replace (nrows i2) with batch in Ho2 by (now destruct Hi2 as (Hr & _)).
  destruct (@cat2_shape o1 (tmap torch_exp o2) batch _ _ Ho1
              (tmap_shape torch_exp Ho2))
    as (z & Ez & Hz).
  assert (Hout : ParallelNet.network_output self spatial time = Ok z).
  { unfold ParallelNet.network_output, ParallelNet.branch_outputs.
    rewrite Ei. cbn [bind ParallelNet.model1 ParallelNet.model2 self].
    rewrite Eo1. cbn [bind]. rewrite Eo2. cbn [bind torch_cat cat_onto].
    rewrite Ez. reflexivity. }
  exists z, (column_dict z names).
  split; [exact Hout|]. split; [exact Hz|]. split.
  - unfold ParallelNet.forward. now rewrite Hout.
  - intros Hnd Hnames. rewrite <- Hnames in Hz.
    destruct (column_dict_shapes Hz Hnd) as (Hk & _ & Hg).
    split; [exact Hk|]. intros i name Hi. apply (Hg i name Hi).
Qed.

Lemma parallel_forward_shapes_witness :
  exists self s z d,
    ParallelNet.init zero_noise [2; 2; 2; 2] [1; 3; 5; 1] [-1; -1]%R [1; 1]%R
      ["rho"%string; "j"%string; "eps"%string] "sin" "sin" 0 = Ok (self, s)
    /\ ParallelNet.network_output self [half] half = Ok z
    /\ has_shape z 1 3
    /\ ParallelNet.forward self [half] half = Ok d
    /\ PyDict.keys d = ["rho"%string; "j"%string; "eps"%string].
Proof.
  eexists. eexists.
  match goal with
  | |- exists z d, ?I /\ _ => assert (HI : I) by reflexivity
  end.
  assert (Hhalf : has_shape half 1 1) by (repeat split; repeat constructor).
  destruct (@parallel_forward_shapes zero_noise [2; 2; 2; 2] [1; 3; 5; 1]
              [-1; -1]%R [1; 1]%R ["rho"%string; "j"%string; "eps"%string]
              "sin" "sin" 0 _ _ [half] half 1
              ltac:(simpl; lia) ltac:(simpl; lia) HI ltac:(simpl; lia)
              eq_refl eq_refl eq_refl eq_refl
              ltac:(repeat constructor; exact Hhalf))
    as (z & d & O & S & F & K).
  exists z, d. split; [exact HI|]. split; [exact O|]. split; [exact S|].
  split; [exact F|].
  apply K; [|reflexivity].
  repeat constructor; simpl; intuition discriminate.
Defined.

(* ------------------------------------------------------------------ *)
(** ** Rescaling: range and broadcasting *)

Lemma rescale_entry_range (l u a : R) :
  (l < u)%R -> (l <= a <= u)%R ->
  (-1 <= 2 * (a - l) / (u - l) - 1 <= 1)%R.
Proof.
  intros Hlu [Hla Hau].
  assert (Hd : (0 < / (u - l))%R) by (apply Rinv_0_lt_compat; lra).
  assert (H0 : (0 <= (a - l) * / (u - l))%R)
    by (apply Rmult_le_pos; lra).
  assert (H1 : ((a - l) * / (u - l) <= 1)%R).
  { replace 1%R with ((u - l) * / (u - l))%R by (field; lra).
    apply Rmult_le_compat_r; lra. }
  unfold Rdiv. rewrite Rmult_assoc. lra.
Qed.

Lemma rescale_row_range (lb ub : list R) :
  Forall2 Rlt lb ub ->
  forall r, Forall2 Rle lb r -> Forall2 Rle r ub ->
  Forall (fun v => (-1 <= v <= 1)%R)
    (map (fun a => (a - 1)%R)
       (zip_with Rdiv (map (fun a => (2 * a)%R) (zip_with Rminus r lb))
          (zip_with Rminus ub lb))).
Proof.
  induction 1 as [|l u lb ub Hlu _ IH]; intros r Hl Hu.
  - inversion Hl. subst. constructor.
  - inversion Hl as [|l0 a lb0 r0 Hla Hl']. subst.
    inversion Hu as [|a0 u0 r1 ub0 Hau Hu']. subst.
    cbn [zip_with map]. constructor; [|now apply IH].
    now apply rescale_entry_range.
Qed.

(** X10: when every row of the input lies between the bounds, coordinate
    by coordinate, and [lb[i] < ub[i]], the rescaling of continuous-mode
    FCN and of branch 1 of ParallelNet succeeds, keeps the shape, and all
    its entries lie in [-1, 1]. *)
Theorem rescale_into_unit_range (z : Tensor) (lb ub : list R) :
  Forall2 Rlt lb ub ->
  ncols z = length lb ->
  rows_within lb ub z ->
  exists z',
    rescale z lb ub = Ok z'
    /\ nrows z' = nrows z /\ ncols z' = ncols z
    /\ entries_within (-1) 1 z'.
Proof.
  intros Hlt Hc Hin.
  assert (Hlen : length ub = length lb)
    by (symmetry; eapply Forall2_length; eauto).
  rewrite rescale_same_width by assumption.
  eexists. split; [reflexivity|].
  unfold nrows, entries_within. cbn [rows ncols]. rewrite length_map.
  split; [reflexivity|]. split; [reflexivity|].
  apply Forall_map. unfold rows_within in Hin.
  eapply Forall_impl; [|exact Hin]. intros r [Hl Hu]. cbv beta.
  now apply rescale_row_range.
Qed.

Lemma rescale_into_unit_range_witness :
  exists z',
    rescale (mkTensor 2 [[1 / 2; 0]]%R) [0; -1]%R [1; 1]%R = Ok z'
    /\ entries_within (-1) 1 z'.
Proof.
  destruct (@rescale_into_unit_range (mkTensor 2 [[1 / 2; 0]]%R)
              [0; -1]%R [1; 1]%R) as (z' & E & _ & _ & H).
  - repeat constructor; lra.
  - reflexivity.
  - repeat constructor; lra.
  - exists z'. split; [exact E|exact H].
Defined.

(** X11: branch 2 of ParallelNet rescales every entry with the first
    bounds only.  In exact arithmetic, when [lb[0] < ub[0]], an entry
    equal to [lb[0]] becomes [-1], an entry equal to [ub[0]] becomes [+1],
    and entries between them land in [-1, 1], whatever the other bounds
    are.  With an empty [lb], an empty [ub], or both, the rescaling raises
    [IndexError]. *)
Theorem rescale0_first_bound_only (z : Tensor) (l0 u0 : R) (lb ub : list R) :
  (l0 < u0)%R ->
  exists z',
    rescale0 z (l0 :: lb) (u0 :: ub) = Ok z'
    /\ z' = tmap (fun a => (2 * (a - l0) / (u0 - l0) - 1)%R) z
    /\ (2 * (l0 - l0) / (u0 - l0) - 1 = -1)%R
    /\ (2 * (u0 - l0) / (u0 - l0) - 1 = 1)%R
    /\ (entries_within l0 u0 z -> entries_within (-1) 1 z')
    /\ (forall v, rescale0 z [] v = Raise IndexError)
    /\ rescale0 z (l0 :: lb) [] = Raise IndexError.
Proof.
  intros Hlu. rewrite rescale0_entrywise.
  change (index0 (l0 :: lb)) with (Ok l0).
  change (index0 (u0 :: ub)) with (Ok u0). cbn [bind].
  eexists. split; [reflexivity|]. split; [reflexivity|].
  split; [field; lra|]. split; [field; lra|]. split; [|split; reflexivity].
  unfold entries_within, tmap. cbn [rows]. intros Hin.
  apply Forall_map. eapply Forall_impl; [|exact Hin]. intros r Hr. cbv beta.
  apply Forall_map. eapply Forall_impl; [|exact Hr]. intros a Ha. cbv beta.
  now apply rescale_entry_range.
Qed.

Lemma rescale0_first_bound_only_witness :
  exists z',
    rescale0 (mkTensor 2 [[0; 1]]%R) [0; 5]%R [1; 9]%R = Ok z'
    /\ entries_within (-1) 1 z'.
Proof.
  destruct (@rescale0_first_bound_only (mkTensor 2 [[0; 1]]%R) 0 1 [5]%R [9]%R)
    as (z' & E & _ & _ & _ & H & _); [lra|].
  exists z'. split; [exact E|]. apply H. repeat constructor; lra.
Defined.

(** X12: the rescaling raises a dimension mismatch when the width of the
    input differs from the length of the lower bounds and neither is 1,
    and when the two bounds have different lengths and neither is 1.  So
    the forward pass of an FCN in continuous mode raises it on column
    inputs whenever the lower bounds are neither one nor as many as the
    spatial tensors plus one. *)
Theorem rescale_dimension_mismatch (z : Tensor) (lb ub : list R) :
  (ncols z <> length lb -> ncols z <> 1 -> length lb <> 1 ->
   rescale z lb ub = Raise RuntimeError)
  /\ (ncols z = length lb -> length ub <> length lb ->
      length ub <> 1 -> length lb <> 1 ->
      rescale z lb ub = Raise RuntimeError)
  /\ (forall self spatial time batch,
         FCN.discrete self = false ->
         1 <= length spatial <= 3 ->
         Forall (fun t => has_shape t batch 1) (spatial ++ [time]) ->
         length (FCN.lb self) <> S (length spatial) ->
         length (FCN.lb self) <> 1 ->
         FCN.forward self spatial time = Raise RuntimeError).
Proof.
  assert (M : forall (z : Tensor) (lb ub : list R),
             ncols z <> length lb -> ncols z <> 1 -> length lb <> 1 ->
             rescale z lb ub = Raise RuntimeError).
  { intros z0 lb0 ub0 H1 H2 H3. unfold rescale, broadcast.
    destruct (Nat.eqb_spec (ncols z0) (length lb0)); [contradiction|].
    destruct (Nat.eqb_spec (length lb0) 1); [contradiction|].
    destruct (Nat.eqb_spec (ncols z0) 1); [contradiction|reflexivity]. }
  split; [apply M|]. split.
  - intros H1 H2 H3 H4. unfold rescale, broadcast, vbroadcast.
    rewrite H1, Nat.eqb_refl. cbn [bind].
    destruct (Nat.eqb_spec (length ub) (length lb)); [contradiction|].
    destruct (Nat.eqb_spec (length lb) 1); [contradiction|].
    destruct (Nat.eqb_spec (length ub) 1); [contradiction|reflexivity].
  - intros self spatial time batch Hd Hs Hin Hlb Hlb1.
    destruct (@torch_cat_columns batch (spatial ++ [time])) as (c & Ec & Hc);
      [destruct spatial; discriminate|exact Hin|].
    rewrite length_app, Nat.add_1_r in Hc. destruct Hc as (_ & Hc & _).
    unfold FCN.forward, FCN.network_output.
    rewrite fcn_continuous_input by assumption.
    rewrite Ec. cbn [bind]. rewrite M; [reflexivity| | |]; lia.
Qed.

Lemma rescale_dimension_mismatch_witness :
  rescale (mkTensor 2 [[0; 0]]%R) [0; 0; 0]%R [1; 1; 1]%R = Raise RuntimeError.
Proof.
  apply (proj1 (@rescale_dimension_mismatch (mkTensor 2 [[0; 0]]%R)
                  [0; 0; 0]%R [1; 1; 1]%R)); cbn; lia.
Defined.

Lemma rescale_single_bound (z : Tensor) (l u : R) :
  wf z ->
  rescale z [l] [u] = Ok (tmap (fun a => (2 * (a - l) / (u - l) - 1)%R) z).
Proof.
  intros Hwf. unfold rescale, broadcast, vbroadcast.
  cbn [length Nat.eqb bind hd zip_with].
  destruct (Nat.eqb_spec (ncols z) 1) as [H1|H1]; cbn [bind tmap ncols rows].
  - rewrite H1. cbn [Nat.eqb bind tmap ncols rows]. unfold tmap.
    cbn [ncols rows]. apply f_equal. apply f_equal2; [now rewrite H1|].
    rewrite !map_map. apply map_ext_in. intros r Hr.
    unfold wf in Hwf. rewrite Forall_forall in Hwf.
    pose proof (Hwf r Hr) as Hl. rewrite H1 in Hl.
    destruct r as [|a [|b r]]; try discriminate. reflexivity.
  - destruct (Nat.eqb_spec (ncols z) 1) as [H1'|_]; [contradiction|].
    cbn [bind]. unfold tmap. cbn [ncols rows]. apply f_equal.
    apply f_equal2; [reflexivity|].
    rewrite !map_map. apply map_ext. intros r. rewrite !map_map.
    reflexivity.
Qed.

Lemma rescale_single_column (z : Tensor) (lb ub : list R) :
  ncols z = 1 -> length ub = length lb -> length lb <> 1 ->
  exists z',
    rescale z lb ub = Ok z'
    /\ nrows z' = nrows z /\ ncols z' = length lb
    /\ rows z'
       = map (fun r =>
                map (fun a => (a - 1)%R)
                  (zip_with Rdiv
                     (map (fun a => (2 * a)%R)
                        (map (fun b => (hd 0 r - b)%R) lb))
                     (zip_with Rminus ub lb)))
           (rows z).
Proof.
  intros Hc Hlen Hn1. unfold rescale, broadcast, vbroadcast.
  rewrite Hc.
  destruct (Nat.eqb_spec 1 (length lb)) as [E|_]; [congruence|].
  destruct (Nat.eqb_spec (length lb) 1) as [E|_]; [congruence|].
  cbn [Nat.eqb bind tmap ncols rows].
  rewrite Hlen, Nat.eqb_refl. cbn [bind].
  rewrite length_zip_with, Hlen, Nat.min_id, Nat.eqb_refl. cbn [bind].
  eexists. split; [reflexivity|].
  unfold nrows. cbn [tmap rows ncols]. rewrite !length_map.
  split; [reflexivity|]. split; [reflexivity|].
  rewrite !map_map. reflexivity.
Qed.

(** X13: no failure is raised for two other mismatches, which broadcast
    instead: bounds of length 1 are applied to every column of an input of
    any width, and an input of width 1 is expanded to the length of longer
    bounds, one output column per bound.  So an FCN in discrete mode, given
    one spatial column and bounds of three entries or more, feeds its
    network an input one column narrower than the bounds are long. *)
Theorem rescale_silent_broadcast (z : Tensor) :
  wf z ->
  (forall l u,
      rescale z [l] [u]
      = Ok (tmap (fun a => (2 * (a - l) / (u - l) - 1)%R) z))
  /\ (forall lb ub,
         ncols z = 1 -> length ub = length lb -> length lb <> 1 ->
         exists z',
           rescale z lb ub = Ok z'
           /\ nrows z' = nrows z /\ ncols z' = length lb)
  /\ (forall self time,
         FCN.discrete self = true ->
         ncols z = 1 ->
         length (FCN.ub self) = length (FCN.lb self) ->
         3 <= length (FCN.lb self) ->
         exists z',
           FCN.network_input self [z] time = Ok z'
           /\ nrows z' = nrows z
           /\ ncols z' = length (FCN.lb self) - 1).
Proof.
  intros Hwf. split; [|split].
  - intros l u. now apply rescale_single_bound.
  - intros lb ub Hc Hlen Hn1.
    destruct (rescale_single_column z lb ub Hc Hlen Hn1)
      as (z' & E & Hr & Hc' & _).
    exists z'. auto.
  - intros self time Hd Hc Hlen H3.
    rewrite fcn_discrete_input by exact Hd.
    cbn [length Nat.eqb orb]. change (py_index [z] 0) with (Ok z).
    cbn [bind].
    destruct (rescale_single_column z (drop_last (FCN.lb self))
                (drop_last (FCN.ub self)) Hc)
      as (z' & E & Hr & Hc' & _).
    + rewrite !length_drop_last. lia.
    + rewrite length_drop_last. lia.
    + exists z'. rewrite length_drop_last in Hc'. auto.
Qed.

Lemma rescale_silent_broadcast_witness :
  exists z',
    rescale half [0; 0]%R [1; 1]%R = Ok z' /\ ncols z' = 2.
Proof.
  destruct (@rescale_silent_broadcast half ltac:(repeat constructor))
    as (_ & H & _).
  destruct (H [0; 0]%R [1; 1]%R eq_refl eq_refl ltac:(cbn; lia))
    as (z' & E & _ & C).
  exists z'. split; [exact E|exact C].
Defined.

(* ------------------------------------------------------------------ *)
(** ** Forward passes: the number of spatial tensors *)

(** X14: with no spatial tensor or more than three, the forward passes
    that append the time (FCN in continuous mode, NetHFM, ParallelNet)
    raise [ValueError] at the three-way unpacking.  An FCN in discrete
    mode raises [IndexError] for no spatial tensor, and for one or more
    than three it uses the first tensor only, ignoring the others. *)
Theorem forward_spatial_arity (spatial : list Tensor) (time : Tensor) :
  length spatial = 0 \/ 4 <= length spatial ->
  (forall self, FCN.discrete self = false ->
                FCN.forward self spatial time = Raise ValueError)
  /\ (forall self, NetHFM.forward self spatial time = Raise ValueError)
  /\ (forall self, ParallelNet.forward self spatial time = Raise ValueError)
  /\ (forall self, FCN.discrete self = true -> spatial = [] ->
                   FCN.forward self spatial time = Raise IndexError)
  /\ (forall self x rest, FCN.discrete self = true -> spatial = x :: rest ->
                          FCN.forward self spatial time
                          = FCN.forward self [x] time).
Proof.
  intros Hlen.
  destruct spatial as [|x [|y [|z [|w rest]]]]; simpl in Hlen; try lia.
  - split; [|split; [|split; [|split]]].
    + intros self Hd. unfold FCN.forward, FCN.network_output, FCN.network_input.
      now rewrite Hd.
    + reflexivity.
    + reflexivity.
    + intros self Hd _. unfold FCN.forward, FCN.network_output,
        FCN.network_input. now rewrite Hd.
    + discriminate.
  - split; [|split; [|split; [|split]]].
    + intros self Hd. unfold FCN.forward, FCN.network_output, FCN.network_input.
      now rewrite Hd.
    + reflexivity.
    + reflexivity.
    + discriminate.
    + intros self x0 rest0 Hd [= <- <-].
      unfold FCN.forward, FCN.network_output, FCN.network_input.
      now rewrite Hd.
Qed.

Lemma forward_spatial_arity_witness :
  NetHFM.forward (NetHFM.mk 2 ["u"%string] [0; 0]%R [1; 1]%R [] [] [])
    [half; half; half; half] half = Raise ValueError.
Proof.
  apply (@forward_spatial_arity [half; half; half; half] half).
  right. simpl. lia.
Defined.

(* ------------------------------------------------------------------ *)
(** ** The mapping keeps the whole final tensor *)

Lemma comprehend_fresh {V : Type} (f : nat -> string -> V) (names : list string) :
  forall start (d : PyDict.t V),
    NoDup (PyDict.keys d ++ names) ->
    PyDict.comprehend f start names d
    = d ++ map (fun p => (snd p, f (fst p) (snd p)))
             (combine (seq start (length names)) names).
Proof.
  induction names as [|n names IH]; intros start d Hnd; cbn [PyDict.comprehend].
  - cbn. now rewrite app_nil_r.
  - assert (Hn : ~ In n (PyDict.keys d)).
    { intros Hin. apply NoDup_remove_2 in Hnd. apply Hnd.
      apply in_or_app. now left. }
    rewrite IH.
    + rewrite set_fresh by assumption. rewrite <- app_assoc. reflexivity.
    + rewrite keys_set_fresh by assumption. now rewrite <- app_assoc.
Qed.

Lemma values_column_dict (z : Tensor) (names : list string) :
  NoDup names ->
  PyDict.values (column_dict z names)
  = map (fun i => slice_cols z i (i + 1)) (seq 0 (length names)).
Proof.
  intros Hnd. unfold column_dict. rewrite comprehend_fresh by exact Hnd.
  unfold PyDict.values, PyDict.empty. cbn [app]. rewrite map_map. cbn [snd fst].
  assert (G : forall k,
             map (fun x : nat * string => slice_cols z (fst x) (fst x + 1))
               (combine (seq k (length names)) names)
             = map (fun i => slice_cols z i (i + 1)) (seq k (length names))).
  { clear Hnd. induction names as [|n names IH]; intros k; [reflexivity|].
    cbn [length seq combine map fst]. f_equal. apply IH. }
  apply G.
Qed.

Lemma firstn_succ_skipn {A : Type} (r : list A) : forall k,
  firstn k r ++ firstn 1 (skipn k r) = firstn (k + 1) r.
Proof.
  induction r as [|a r IH]; intros [|k]; try reflexivity.
  cbn [firstn skipn app Nat.add]. f_equal. apply IH.
Qed.

Lemma zip_with_map {A B C D : Type} (f : B -> C -> D) (g : A -> B)
  (h : A -> C) (l : list A) :
  zip_with f (map g l) (map h l) = map (fun x => f (g x) (h x)) l.
Proof.
  induction l as [|x l IH]; [reflexivity|]. cbn [map zip_with]. now rewrite IH.
Qed.

Lemma cat2_next_column (z : Tensor) (k : nat) :
  cat2 (slice_cols z 0 k) (slice_cols z k (k + 1))
  = Ok (slice_cols z 0 (k + 1)).
Proof.
  unfold cat2, slice_cols, nrows. cbn [rows ncols].
  rewrite !length_map, Nat.eqb_refl. f_equal. f_equal; [lia|].
  replace (k + 1 - k) with 1 by lia. rewrite !Nat.sub_0_r.
  rewrite zip_with_map. apply map_ext. intros r. cbn [skipn].
  apply firstn_succ_skipn.
Qed.

Lemma cat_onto_columns_of (z : Tensor) (m : nat) : forall k,
  cat_onto (slice_cols z 0 k)
    (map (fun i => slice_cols z i (i + 1)) (seq k m))
  = Ok (slice_cols z 0 (k + m)).
Proof.
  induction m as [|m IH]; intros k; cbn [seq map cat_onto].
  - now rewrite Nat.add_0_r.
  - rewrite cat2_next_column. cbn [bind].
    replace (k + 1) with (S k) by lia. rewrite IH.
    now rewrite Nat.add_succ_comm.
Qed.

Lemma slice_cols_all (z : Tensor) : wf z -> slice_cols z 0 (ncols z) = z.
Proof.
  intros Hwf. unfold slice_cols. destruct z as [c rs]. cbn [ncols rows] in *.
  f_equal; [lia|].
  unfold wf in Hwf. cbn [ncols rows] in Hwf.
  rewrite <- (map_id rs) at 2. apply map_ext_in. intros r Hr.
  rewrite Forall_forall in Hwf. cbn [skipn]. rewrite Nat.sub_0_r.
  apply firstn_all2. rewrite (Hwf r Hr). lia.
Qed.

(** X15: when [forward] slices columns and the output names are distinct
    and as many as the final tensor has columns (at least one), the
    mapping keeps the whole tensor: concatenating its values in key order
    gives the final tensor back. *)
Theorem forward_values_concatenate m spatial time z :
  slices_columns m = true ->
  net_output m spatial time = Ok z ->
  wf z ->
  NoDup (net_output_names m) ->
  length (net_output_names m) = ncols z ->
  1 <= ncols z ->
  exists d,
    net_forward m spatial time = Ok d
    /\ PyDict.keys d = net_output_names m
    /\ torch_cat (PyDict.values d) = Ok z.
Proof.
  intros Hs Hz Hwf Hnd Hlen Hpos.
  exists (column_dict z (net_output_names m)).
  split; [now apply net_forward_columns|]. split.
  - unfold column_dict. apply (keys_comprehend_NoDup _ _ _ PyDict.empty Hnd).
  - rewrite values_column_dict by exact Hnd. rewrite Hlen.
    assert (Hseq : seq 0 (ncols z) = 0 :: seq 1 (ncols z - 1)).
    { destruct (ncols z) as [|c]; [lia|].
      replace (S c - 1) with c by lia. reflexivity. }
    rewrite Hseq. cbn [map torch_cat]. change (0 + 1) with 1.
    rewrite (cat_onto_columns_of z (ncols z - 1) 1).
    replace (1 + (ncols z - 1)) with (ncols z) by lia.
    now rewrite slice_cols_all.
Qed.

Lemma forward_values_concatenate_witness :
  exists self s z d,
    FCN.init zero_noise [2; 3; 2] [0; 0]%R [1; 1]%R
      ["u"%string; "v"%string] "tanh" false 0 = Ok (self, s)
    /\ FCN.network_output self [half] half = Ok z
    /\ FCN.forward self [half] half = Ok d
    /\ torch_cat (PyDict.values d) = Ok z.
Proof.
  eexists. eexists. eexists.
  match goal with
  | |- exists d, ?I /\ _ => assert (HI : I) by reflexivity
  end.
  match goal with
  | |- exists d, _ /\ ?O /\ _ => assert (HO : O) by reflexivity
  end.
  match type of HO with
  | FCN.network_output ?self _ _ = Ok ?z =>
      assert (Hwf : wf z) by (repeat constructor);
      destruct (@forward_values_concatenate (OfFCN self) [half] half z
                  eq_refl HO Hwf) as (d & F & _ & C)
  end.
  - repeat constructor; simpl; intuition discriminate.
  - reflexivity.
  - cbn. lia.
  - exists d. split; [exact HI|]. split; [exact HO|]. split; [exact F|exact C].
Defined.

(* ------------------------------------------------------------------ *)
(** ** Activations *)

Lemma tanh_range (x : R) : (-1 <= tanh x <= 1)%R.
Proof.
  unfold tanh, sinh, cosh.
  pose proof (exp_pos x) as Ha. pose proof (exp_pos (- x)) as Hb.
  set (a := exp x) in *. set (b := exp (- x)) in *.
  assert (Hc : (0 < (a + b) / 2)%R) by lra.
  split.
  - apply Rmult_le_reg_r with ((a + b) / 2)%R; [exact Hc|].
    unfold Rdiv at 2. rewrite Rmult_assoc, Rinv_l by lra. lra.
  - apply Rmult_le_reg_r with ((a + b) / 2)%R; [exact Hc|].
    unfold Rdiv at 1. rewrite Rmult_assoc, Rinv_l by lra. lra.
Qed.

Lemma sigmoid_range (x : R) : (0 <= sigmoid x <= 1)%R.
Proof.
  unfold sigmoid. pose proof (exp_pos (- x)) as Hb.
  set (b := exp (- x)) in *.
  assert (Hi : (0 < / (1 + b))%R) by (apply Rinv_0_lt_compat; lra).
  unfold Rdiv. rewrite Rmult_1_l. split; [lra|].
  rewrite <- Rinv_1. apply Rinv_le_contravar; lra.
Qed.

(** X16: the activation modules the constructions select ([Sin], and the
    hyperbolic tangent and sigmoid of torch) never raise, keep the shape
    of their input, and bound every entry: [Sin] and the hyperbolic
    tangent by [-1, 1], the sigmoid by [0, 1]. *)
Theorem activation_shape_and_range (x : Tensor) :
  (exists z, module_forward Sin x = Ok z
             /\ nrows z = nrows x /\ ncols z = ncols x
             /\ entries_within (-1) 1 z)
  /\ (exists z, module_forward Tanh x = Ok z
                /\ nrows z = nrows x /\ ncols z = ncols x
                /\ entries_within (-1) 1 z)
  /\ (exists z, module_forward Sigmoid x = Ok z
                /\ nrows z = nrows x /\ ncols z = ncols x
                /\ entries_within 0 1 z).
Proof.
  assert (G : forall (f : R -> R) lo hi,
             (forall a, (lo <= f a <= hi)%R) ->
             nrows (tmap f x) = nrows x /\ ncols (tmap f x) = ncols x
             /\ entries_within lo hi (tmap f x)).
  { intros f lo hi Hf. unfold nrows, entries_within, tmap. cbn [rows ncols].
    rewrite length_map. split; [reflexivity|]. split; [reflexivity|].
    apply Forall_map, Forall_forall. intros r _.
    apply Forall_map, Forall_forall. intros a _. apply Hf. }
  split; [|split]; eexists; (split; [reflexivity|]); apply G.
  - apply SIN_bound.
  - apply tanh_range.
  - apply sigmoid_range.
Qed.

(* ------------------------------------------------------------------ *)
(** ** NetHFM: a freshly constructed layer *)

Lemma zip_with_ones_zeros (r : list R) :
  zip_with Rplus
    (zip_with (fun h gj => (gj * h)%R) r (repeat 1%R (length r)))
    (repeat 0%R (length r))
  = r.
Proof.
  induction r as [|a r IH]; [reflexivity|].
  cbn [length repeat zip_with]. rewrite IH. f_equal. lra.
Qed.

(** X17: with the bias of zeros and the gamma of ones that [NetHFM.init]
    creates, a layer is the plain product with the normalised weight:
    [g * (H @ V) + b] is [H @ V]. *)
Theorem hfm_fresh_layer_is_product (W H : Tensor) (n i o : nat) :
  has_shape W i o -> has_shape H n i ->
  exists V HV,
    broadcast Rdiv W (norm_dim0 W) = Ok V
    /\ matmul H V = Ok HV
    /\ has_shape HV n o
    /\ hfm_affine W (repeat 0%R o) (repeat 1%R o) H = Ok HV.
Proof.
  intros HW HH.
  destruct (@broadcast_shape Rdiv W (norm_dim0 W) i o HW) as (V & EV & HV).
  { rewrite length_norm_dim0. now destruct HW as (_ & Hc & _). }
  destruct (@matmul_shape H V n i HH) as (P & EP & HP).
  { now destruct HV as (Hr & _). }
  replace (ncols V) with o in HP by (now destruct HV as (_ & Hc & _)).
  exists V, P. split; [exact EV|]. split; [exact EP|]. split; [exact HP|].
  unfold hfm_affine. rewrite EV. cbn [bind]. rewrite EP. cbn [bind].
  destruct HP as (Hr & Hc & Hw).
  unfold broadcast. rewrite Hc, repeat_length, Nat.eqb_refl.
  cbn [bind ncols rows]. rewrite repeat_length, Nat.eqb_refl.
  destruct P as [c rs]. cbn [ncols rows] in *. subst c.
  f_equal. f_equal. rewrite map_map.
  rewrite <- (map_id rs) at 2. apply map_ext_in. intros r Hrow.
  unfold wf in Hw. cbn [ncols rows] in Hw. rewrite Forall_forall in Hw.
  rewrite <- (Hw r Hrow). apply zip_with_ones_zeros.
Qed.

Lemma hfm_fresh_layer_is_product_witness :
  exists HV,
    hfm_affine (mkTensor 1 [[3]; [4]]%R) (repeat 0%R 1) (repeat 1%R 1)
      (mkTensor 2 [[1; 1]]%R) = Ok HV
    /\ has_shape HV 1 1.
Proof.
  destruct (@hfm_fresh_layer_is_product (mkTensor 1 [[3]; [4]]%R)
              (mkTensor 2 [[1; 1]]%R) 1 2 1)
    as (V & HV & _ & _ & S & E).
  - repeat split; repeat constructor.
  - repeat split; repeat constructor.
  - exists HV. split; [exact E|exact S].
Defined.

(* ------------------------------------------------------------------ *)
(** ** ParallelNet: which branch a column comes from *)

Lemma slice_zip_left (i c1 : nat) : forall (l1 l2 : list (list R)),
  length l1 = length l2 ->
  Forall (fun r => length r = c1) l1 ->
  i < c1 ->
  map (fun r => firstn 1 (skipn i r)) (zip_with (@app R) l1 l2)
  = map (fun r => firstn 1 (skipn i r)) l1.
Proof.
  induction l1 as [|r1 l1 IH]; intros [|r2 l2] Hlen Hall Hi;
    try discriminate; [reflexivity|].
  inversion Hall as [|r0 l0 Hr Hall']. subst.
  cbn [zip_with map]. f_equal.
  - rewrite skipn_app, firstn_app.
    replace (1 - length (skipn i r1)) with 0
      by (rewrite length_skipn; lia).
    cbn [firstn]. apply app_nil_r.
  - apply IH; [simpl in Hlen; lia|assumption|assumption].
Qed.

Lemma slice_zip_right (i c1 : nat) : forall (l1 l2 : list (list R)),
  length l1 = length l2 ->
  Forall (fun r => length r = c1) l1 ->
  c1 <= i ->
  map (fun r => firstn 1 (skipn i r)) (zip_with (@app R) l1 l2)
  = map (fun r => firstn 1 (skipn (i - c1) r)) l2.
Proof.
  induction l1 as [|r1 l1 IH]; intros [|r2 l2] Hlen Hall Hi;
    try discriminate; [reflexivity|].
  inversion Hall as [|r0 l0 Hr Hall']. subst.
  cbn [zip_with map]. f_equal.
  - rewrite skipn_app, skipn_all2 by lia. reflexivity.
  - apply IH; [simpl in Hlen; lia|assumption|assumption].
Qed.

(** X18: in the mapping of ParallelNet, for sub-networks that end with an
    affine layer, the columns of index below the width of branch 1 are the
    columns of [model1]'s output, unchanged, and the following ones are
    the columns of [exp(model2(z2))], in order. *)
Theorem parallel_columns_by_branch self spatial time z z1 z2 i :
  affine_output (OfParallelNet self) ->
  ParallelNet.branch_outputs self spatial time = Ok (z1, z2) ->
  ParallelNet.network_output self spatial time = Ok z ->
  (i < ncols z1 -> slice_cols z i (i + 1) = slice_cols z1 i (i + 1))
  /\ (ncols z1 <= i ->
      slice_cols z i (i + 1)
      = slice_cols z2 (i - ncols z1) (i - ncols z1 + 1)).
Proof.
  intros [H1 H2] Eb Hz.
  unfold ParallelNet.network_output in Hz. rewrite Eb in Hz. cbn [bind] in Hz.
  destruct (torch_cat_pair _ _ Hz) as (Hr & Hc & Hrows).
  assert (W1 : wf z1).
  { unfold ParallelNet.branch_outputs in Eb.
    destruct (ParallelNet.branch_inputs self spatial time) as [[i1 i2]|];
      cbn [bind] in Eb; [|discriminate].
    destruct (Sequential_forward (ParallelNet.model1 self) i1) as [o1|] eqn:E1;
      cbn [bind] in Eb; [|discriminate].
    destruct (Sequential_forward (ParallelNet.model2 self) i2) as [m2|];
      cbn [bind] in Eb; [|discriminate].
    injection Eb as <- _. exact (@ends_affine_forward_wf _ _ _ H1 E1). }
  unfold slice_cols. rewrite Hrows, Hc. split; intros Hi.
  - f_equal; [lia|]. replace (i + 1 - i) with 1 by lia.
    now apply slice_zip_left with (c1 := ncols z1).
  - f_equal; [lia|]. replace (i + 1 - i) with 1 by lia.
    replace (i - ncols z1 + 1 - (i - ncols z1)) with 1 by lia.
    now apply slice_zip_right.
Qed.

Lemma parallel_columns_by_branch_witness :
  exists self s z z1 z2,
    ParallelNet.init zero_noise [2; 2; 1] [1; 2; 1] [0; 0]%R [1; 1]%R
      ["j"%string; "rho"%string] "tanh" "sin" 0 = Ok (self, s)
    /\ ParallelNet.branch_outputs self [half] half = Ok (z1, z2)
    /\ ParallelNet.network_output self [half] half = Ok z
    /\ slice_cols z 0 1 = slice_cols z1 0 1
    /\ slice_cols z 1 2 = slice_cols z2 0 1.
Proof.
  eexists. eexists. eexists. eexists. eexists.
  match goal with
  | |- ?I /\ _ => assert (HI : I) by reflexivity
  end.
  split; [exact HI|].
  match goal with
  | |- ?B /\ _ => assert (HB : B) by reflexivity
  end.
  split; [exact HB|].
  match goal with
  | |- ?O /\ _ => assert (HO : O) by reflexivity
  end.
  split; [exact HO|].
  assert (Ha : affine_output (OfParallelNet _))
    by (eapply parallel_init_affine_output; [| |exact HI]; simpl; lia).
  split.
  - apply (proj1 (@parallel_columns_by_branch _ _ _ _ _ _ 0 Ha HB HO)).
    cbn. lia.
  - apply (proj2 (@parallel_columns_by_branch _ _ _ _ _ _ 1 Ha HB HO)).
    cbn. lia.
Defined.
